(** * aws-mcp: the JSON-RPC line handler of [mcp-server-aws.js]

  A shallow embedding of the server's protocol engine: the static tool
  catalog [tools], the handler table [toolHandlers], the two senders
  [sendResponse] and [sendErrorResponse], the diagnostic [log], and the
  listener of [rl.on('line', ...)]. The server the repository started
  from, [mcp-server-jsonrpc.js], is embedded in [Basic] over the same
  runtime.

  JavaScript strings are sequences of UTF-16 code units, objects are
  property lists in enumeration order, and statements run in a
  state-and-exception monad over a [world] that holds what the process
  can touch: the lines written to standard output, the log file and the
  fate of the coming appends to it, the ambient AWS region, and the AWS
  SDK seen as an oracle.

  What the embedding takes from the platform rather than from the
  source:
  - [JSON.parse], [JSON.stringify], ToString, ToPrimitive, ToBoolean and
    property lookup follow ECMAScript; messages of errors the engine
    raises are worded as V8 words them;
  - the numbers of JSON text are the decimals their literals denote (see
    [Num.number]); the milliseconds of a relative time are computed in
    binary64, product by product (see [binary64]);
  - the time stamp that [log] puts before each entry is left out, and
    the dates given to CloudWatch are kept relative to the clock (see
    [time_before] for the instant they denote);
  - [console.log] does not fail, and a call of the SDK settles;
  - building a client of the SDK, [new AWS.EC2({ region })], splits a
    truthy region at its dashes, and so throws for one that is not a
    string (see [new_client]);
  - the listener is asynchronous. [on_line] is one listener from its
    line to its end, and [serve] a session whose lines come one at a
    time; [run] is the process under any delivery of lines in chunks,
    where a listener stops at its [await] and goes on after the chunk
    (see [step]). A rejection nobody handles ends the process, as it
    does from Node 15 on. *)

From Stdlib Require Import List ZArith NArith String Ascii Bool Lia.
Import ListNotations.

Set Implicit Arguments.
Set Warnings "-register-all".

(* ------------------------------------------------------------------ *)
(** ** JavaScript strings *)

Module JStr.

(** A JavaScript string: its UTF-16 code units. *)
Definition jstring := list N.

(** The code units of an ASCII literal. *)
Definition js (s : string) : jstring :=
  map N_of_ascii (list_ascii_of_string s).

(** Wire text written with a backtick where the wire has a double
    quote. *)
Definition wire (s : string) : jstring :=
  map (fun c => if N.eqb c 96 then 34%N else c) (js s).

Fixpoint eqb (a b : jstring) : bool :=
  match a, b with
  | [], [] => true
  | x :: a', y :: b' => N.eqb x y && eqb a' b'
  | _, _ => false
  end.

Definition startsWith (s p : jstring) : bool :=
  eqb (firstn (List.length p) s) p.

(** [separator.join(parts)]. *)
Fixpoint join (sep : jstring) (parts : list jstring) : jstring :=
  match parts with
  | [] => []
  | [p] => p
  | p :: rest => p ++ sep ++ join sep rest
  end.

End JStr.
Import JStr.

(* ------------------------------------------------------------------ *)
(** ** Numbers *)

Module Num.

(** A number as JSON text denotes it: [Dec m e] is [m * 10^e].
    JavaScript rounds every literal to the nearest binary64 value; the
    model keeps the decimal, so the two print alike for literals of at
    most 15 significant digits whose magnitude lies in the normal
    binary64 range, and the sign of a negative zero is dropped (it
    prints as [0] and is falsy either way). *)
Inductive number :=
| Dec (m : Z) (e : Z)
| NaN.

Definition of_Z (z : Z) : number := Dec z 0.

Definition is_zero (x : number) : bool :=
  match x with Dec m _ => Z.eqb m 0 | NaN => false end.

(** [count + n] for an integer count. *)
Definition add (x y : number) : number :=
  match x, y with
  | Dec a 0, Dec b 0 => Dec (a + b) 0
  | Dec a ea, Dec b eb =>
      let e := Z.min ea eb in
      Dec (a * 10 ^ (ea - e) + b * 10 ^ (eb - e)) e
  | _, _ => NaN
  end.

Fixpoint digits_fuel (fuel : nat) (n : Z) (acc : list Z) : list Z :=
  match fuel with
  | O => acc
  | S f => if (n <? 10)%Z then n :: acc
           else digits_fuel f (n / 10)%Z ((n mod 10)%Z :: acc)
  end.

(** The decimal digits of a positive integer, most significant first. *)
Definition digits (n : Z) : list Z :=
  digits_fuel (S (Z.to_nat (Z.log2 n))) n [].

Fixpoint strip_zeros_rev (ds : list Z) (dropped : Z) : list Z * Z :=
  match ds with
  | 0%Z :: r => strip_zeros_rev r (dropped + 1)
  | _ => (ds, dropped)
  end.

Definition digit_unit (d : Z) : N := (48 + Z.to_N d)%N.

Definition digit_text (ds : list Z) : jstring := map digit_unit ds.

Definition zeros (n : Z) : jstring := repeat 48%N (Z.to_nat n).

(** Number::toString for the positive decimal [m * 10^e]. *)
Definition positive_text (m e : Z) : jstring :=
  let '(rev_sig, dropped) := strip_zeros_rev (rev (digits m)) 0 in
  let ds := rev rev_sig in
  let k := Z.of_nat (List.length ds) in
  let n := (k + e + dropped)%Z in
  if ((k <=? n) && (n <=? 21))%Z%bool then
    digit_text ds ++ zeros (n - k)
  else if ((0 <? n) && (n <=? 21))%Z%bool then
    digit_text (firstn (Z.to_nat n) ds) ++ [46%N] ++ digit_text (skipn (Z.to_nat n) ds)
  else if ((-6 <? n) && (n <=? 0))%Z%bool then
    [48%N; 46%N] ++ zeros (- n) ++ digit_text ds
  else
    let ex := (n - 1)%Z in
    let sign := if (ex <? 0)%Z then 45%N else 43%N in
    match ds with
    | [d] => digit_unit d :: 101%N :: sign :: digit_text (digits (Z.abs ex))
    | d :: rest =>
        digit_unit d :: 46%N :: digit_text rest
          ++ 101%N :: sign :: digit_text (digits (Z.abs ex))
    | [] => [48%N]
    end.

(** Number::toString. *)
Definition to_text (x : number) : jstring :=
  match x with
  | NaN => js "NaN"
  | Dec m e =>
      if (m =? 0)%Z then js "0"
      else if (m <? 0)%Z then 45%N :: positive_text (- m) e
      else positive_text m e
  end.

End Num.
Import Num.

(* ------------------------------------------------------------------ *)
(** ** Values *)

(** Objects of the host that a tool call can hand back and that are not
    data: the handler table itself (what the inherited [valueOf] returns)
    and a built-in function (what the inherited [__lookupGetter__] returns
    for [__proto__]). *)
Inductive host :=
| HandlerTable
| NativeFunction (name : jstring).

(** A JavaScript value. An object is its own enumerable properties in
    enumeration order. *)
Inductive value :=
| VUndefined
| VNull
| VBool (b : bool)
| VNum (n : number)
| VStr (s : jstring)
| VArr (items : list value)
| VObj (fields : list (jstring * value))
| VHost (h : host).

(** What is thrown: every throw of the program and of the runtime is an
    [Error] object, of which the program only reads [message]. *)
Inductive thrown :=
| JsError (message : jstring).

Definition message (e : thrown) : jstring :=
  match e with JsError m => m end.

(** A completion: a value, or an abrupt completion by [throw]. *)
Inductive completion (A : Type) :=
| Normal (a : A)
| Throw (e : thrown).
Arguments Normal {A} a.
Arguments Throw {A} e.

(** ToBoolean. *)
Definition truthy (v : value) : bool :=
  match v with
  | VUndefined | VNull => false
  | VBool b => b
  | VNum n => match n with NaN => false | _ => negb (is_zero n) end
  | VStr s => match s with [] => false | _ => true end
  | VArr _ | VObj _ | VHost _ => true
  end.

(** [a || b]. *)
Definition or_else (a b : value) : value := if truthy a then a else b.

(** [a === lit] for a string literal. *)
Definition strict_eq_str (a : value) (lit : jstring) : bool :=
  match a with VStr s => JStr.eqb s lit | _ => false end.

Fixpoint assoc (k : jstring) (fields : list (jstring * value)) : option value :=
  match fields with
  | [] => None
  | (k', v) :: rest => if JStr.eqb k k' then Some v else assoc k rest
  end.

Definition has_own (k : jstring) (fields : list (jstring * value)) : bool :=
  match assoc k fields with Some _ => true | None => false end.

Definition cannot_read (base k : jstring) : thrown :=
  JsError (js "Cannot read properties of " ++ base ++ js " (reading '" ++ k ++ js "')").

(** [v.k] for a property name [k] that no built-in prototype defines
    (every name the program reads from request data is such a name):
    reading from [undefined] or [null] throws a TypeError (message as V8
    words it), a missing property reads as [undefined]. *)
Definition prop (v : value) (k : jstring) : completion value :=
  match v with
  | VUndefined => Throw (cannot_read (js "undefined") k)
  | VNull => Throw (cannot_read (js "null") k)
  | VObj fields => Normal (match assoc k fields with Some x => x | None => VUndefined end)
  | _ => Normal VUndefined
  end.

(** [v?.k]. *)
Definition prop_opt (v : value) (k : jstring) : value :=
  match v with
  | VObj fields => match assoc k fields with Some x => x | None => VUndefined end
  | _ => VUndefined
  end.

Definition host_text (h : host) : jstring :=
  match h with
  | HandlerTable => js "[object Object]"
  | NativeFunction name => js "function " ++ name ++ js "() { [native code] }"
  end.

Definition bind_c {A B : Type} (c : completion A) (k : A -> completion B) : completion B :=
  match c with
  | Normal a => k a
  | Throw e => Throw e
  end.

(** ToString. An array joins its elements with a comma, [null] and
    [undefined] elements as the empty string. A plain object is
    [[object Object]] through the inherited [toString], unless it has an
    own property of that name: data is never callable, the inherited
    [valueOf] answers the object itself, and the conversion throws. *)
Fixpoint to_string (v : value) : completion jstring :=
  match v with
  | VUndefined => Normal (js "undefined")
  | VNull => Normal (js "null")
  | VBool true => Normal (js "true")
  | VBool false => Normal (js "false")
  | VNum n => Normal (to_text n)
  | VStr s => Normal s
  | VArr items =>
      let element (x : value) : completion jstring :=
        match x with
        | VUndefined | VNull => Normal []
        | _ => to_string x
        end in
      let elements :=
        fix elements (l : list value) : completion (list jstring) :=
          match l with
          | [] => Normal []
          | x :: rest =>
              bind_c (element x) (fun s =>
              bind_c (elements rest) (fun ss => Normal (s :: ss)))
          end in
      bind_c (elements items) (fun ss => Normal (join (js ",") ss))
  | VObj fields =>
      if has_own (js "toString") fields
      then Throw (JsError (js "Cannot convert object to primitive value"))
      else Normal (js "[object Object]")
  | VHost h => Normal (host_text h)
  end.

(* ------------------------------------------------------------------ *)
(** ** JSON.parse and JSON.stringify *)

Module JSON.

Definition is_ws (c : N) : bool :=
  (N.eqb c 32 || N.eqb c 9 || N.eqb c 10 || N.eqb c 13)%bool.

Fixpoint skip_ws (s : jstring) : jstring :=
  match s with
  | c :: r => if is_ws c then skip_ws r else s
  | [] => []
  end.

Definition is_digit (c : N) : bool := (N.leb 48 c && N.leb c 57)%bool.

Definition hex_val (c : N) : option N :=
  if is_digit c then Some (c - 48)%N
  else if (N.leb 97 c && N.leb c 102)%bool then Some (c - 87)%N
  else if (N.leb 65 c && N.leb c 70)%bool then Some (c - 55)%N
  else None.

Definition hex4 (a b c d : N) : option N :=
  match hex_val a, hex_val b, hex_val c, hex_val d with
  | Some x, Some y, Some z, Some w => Some (((x * 16 + y) * 16 + z) * 16 + w)%N
  | _, _, _, _ => None
  end.

(** The character a one-letter escape denotes. *)
Definition simple_escape (e : N) : option N :=
  if N.eqb e 34 then Some 34%N
  else if N.eqb e 92 then Some 92%N
  else if N.eqb e 47 then Some 47%N
  else if N.eqb e 98 then Some 8%N
  else if N.eqb e 102 then Some 12%N
  else if N.eqb e 110 then Some 10%N
  else if N.eqb e 114 then Some 13%N
  else if N.eqb e 116 then Some 9%N
  else None.

(** The rest of a string literal after its opening quote: the string and
    what follows the closing quote. *)
Fixpoint string_body (s : jstring) (acc : jstring) : option (jstring * jstring) :=
  match s with
  | [] => None
  | c :: r =>
      if N.eqb c 34 then Some (rev acc, r)
      else if N.eqb c 92 then
        match r with
        | [] => None
        | e :: r' =>
            if N.eqb e 117 then
              match r' with
              | h1 :: h2 :: h3 :: h4 :: r'' =>
                  match hex4 h1 h2 h3 h4 with
                  | Some u => string_body r'' (u :: acc)
                  | None => None
                  end
              | _ => None
              end
            else
              match simple_escape e with
              | Some u => string_body r' (u :: acc)
              | None => None
              end
        end
      else if N.ltb c 32 then None
      else string_body r (c :: acc)
  end.

Fixpoint take_digits (s : jstring) : list N * jstring :=
  match s with
  | c :: r =>
      if is_digit c then let '(ds, rest) := take_digits r in (c :: ds, rest)
      else ([], s)
  | [] => ([], [])
  end.

Definition digits_value (ds : list N) : Z :=
  fold_left (fun acc c => (acc * 10 + Z.of_N (c - 48))%Z) ds 0%Z.

(** The integer part: a lone [0], or a run of digits that starts with a
    non-zero one. *)
Definition int_part (s : jstring) : option (list N * jstring) :=
  match s with
  | c :: r =>
      if N.eqb c 48 then Some ([c], r)
      else if is_digit c then Some (take_digits s)
      else None
  | [] => None
  end.

(** The text after the character [c] when [s] begins with it. *)
Definition next_is (c : N) (s : jstring) : option jstring :=
  match s with
  | x :: r => if N.eqb x c then Some r else None
  | [] => None
  end.

Definition frac_part (s : jstring) : option (list N * jstring) :=
  match next_is 46 s with
  | Some r =>
      match take_digits r with
      | ([], _) => None
      | (ds, rest) => Some (ds, rest)
      end
  | None => Some ([], s)
  end.

Definition exp_part (s : jstring) : option (Z * jstring) :=
  match s with
  | c :: r =>
      if (N.eqb c 101 || N.eqb c 69)%bool then
        let '(neg, r1) :=
          match next_is 45 r with
          | Some r1 => (true, r1)
          | None =>
              match next_is 43 r with
              | Some r1 => (false, r1)
              | None => (false, r)
              end
          end in
        match take_digits r1 with
        | ([], _) => None
        | (ds, rest) => Some (if neg then (- digits_value ds)%Z else digits_value ds, rest)
        end
      else Some (0%Z, s)
  | [] => Some (0%Z, s)
  end.

Definition number_literal (s : jstring) : option (number * jstring) :=
  let '(neg, s1) := match next_is 45 s with Some r => (true, r) | None => (false, s) end in
  match int_part s1 with
  | None => None
  | Some (ints, s2) =>
      match frac_part s2 with
      | None => None
      | Some (fracs, s3) =>
          match exp_part s3 with
          | None => None
          | Some (ex, s4) =>
              let m := digits_value (ints ++ fracs) in
              Some (Dec (if neg then (- m)%Z else m) (ex - Z.of_nat (List.length fracs)), s4)
          end
      end
  end.

(** An array index: the canonical decimal of an integer below 2^32 - 1.
    Such keys enumerate first, in ascending order. *)
Definition array_index (k : jstring) : option Z :=
  match k with
  | [] => None
  | c :: r =>
      if (forallb is_digit k && (negb (N.eqb c 48) || match r with [] => true | _ => false end))%bool
      then let i := digits_value k in
           if (i <? 4294967295)%Z then Some i else None
      else None
  end.

Fixpoint insert_index (i : Z) (k : jstring) (v : value) (fields : list (jstring * value))
  : list (jstring * value) :=
  match fields with
  | [] => [(k, v)]
  | (k', v') :: rest =>
      match array_index k' with
      | Some j => if (j <? i)%Z then (k', v') :: insert_index i k v rest
                  else (k, v) :: fields
      | None => (k, v) :: fields
      end
  end.

Fixpoint replace_field (k : jstring) (v : value) (fields : list (jstring * value))
  : list (jstring * value) :=
  match fields with
  | [] => []
  | (k', v') :: rest =>
      if JStr.eqb k k' then (k', v) :: rest else (k', v') :: replace_field k v rest
  end.

(** Defining property [k]: a repeated key keeps its place and takes the
    later value; a new index key goes among the indices, any other new
    key last. *)
Definition define (k : jstring) (v : value) (fields : list (jstring * value))
  : list (jstring * value) :=
  if has_own k fields then replace_field k v fields
  else match array_index k with
       | Some i => insert_index i k v fields
       | None => fields ++ [(k, v)]
       end.

Definition literal (word : jstring) (v : value) (s : jstring) : option (value * jstring) :=
  if startsWith s word then Some (v, skipn (List.length word) s) else None.

(** One JSON value at the head of [s] (after white space), and the
    rest. [elements] and [members] read what follows [[] and [{] once
    the empty cases are set aside. *)
Fixpoint parse_value (fuel : nat) (s : jstring) : option (value * jstring) :=
  match fuel with
  | O => None
  | S fuel =>
      match skip_ws s with
      | [] => None
      | c :: r =>
          if N.eqb c 123 then
            match next_is 125 (skip_ws r) with
            | Some r' => Some (VObj [], r')
            | None => members fuel [] r
            end
          else if N.eqb c 91 then
            match next_is 93 (skip_ws r) with
            | Some r' => Some (VArr [], r')
            | None => elements fuel [] r
            end
          else if N.eqb c 34 then
            match string_body r [] with
            | Some (str, rest) => Some (VStr str, rest)
            | None => None
            end
          else if N.eqb c 116 then literal (js "true") (VBool true) (c :: r)
          else if N.eqb c 102 then literal (js "false") (VBool false) (c :: r)
          else if N.eqb c 110 then literal (js "null") VNull (c :: r)
          else
            match number_literal (c :: r) with
            | Some (n, rest) => Some (VNum n, rest)
            | None => None
            end
      end
  end
with elements (fuel : nat) (acc : list value) (s : jstring) : option (value * jstring) :=
  match fuel with
  | O => None
  | S fuel =>
      match parse_value fuel s with
      | None => None
      | Some (v, rest) =>
          match next_is 44 (skip_ws rest) with
          | Some r => elements fuel (v :: acc) r
          | None =>
              match next_is 93 (skip_ws rest) with
              | Some r => Some (VArr (rev (v :: acc)), r)
              | None => None
              end
          end
      end
  end
with members (fuel : nat) (acc : list (jstring * value)) (s : jstring) : option (value * jstring) :=
  match fuel with
  | O => None
  | S fuel =>
      match next_is 34 (skip_ws s) with
      | None => None
      | Some r =>
          match string_body r [] with
          | None => None
          | Some (k, rest) =>
              match next_is 58 (skip_ws rest) with
              | None => None
              | Some r1 =>
                  match parse_value fuel r1 with
                  | None => None
                  | Some (v, rest1) =>
                      match next_is 44 (skip_ws rest1) with
                      | Some r2 => members fuel (define k v acc) r2
                      | None =>
                          match next_is 125 (skip_ws rest1) with
                          | Some r2 => Some (VObj (define k v acc), r2)
                          | None => None
                          end
                      end
                  end
              end
          end
      end
  end.

(** [JSON.parse(text)]: [None] stands for the SyntaxError it throws.
    The fuel is enough for every text ([parse_fuel_enough] below): a
    value of [n] characters needs at most [2n + 1]. *)
Definition parse (text : jstring) : option value :=
  match parse_value (S (2 * List.length text)) text with
  | Some (v, rest) => match skip_ws rest with [] => Some v | _ => None end
  | None => None
  end.

Definition hex_digit (d : N) : N := if N.ltb d 10 then (48 + d)%N else (87 + d)%N.

(** [\uXXXX] with lower-case hexadecimal digits. *)
Definition unicode_escape (c : N) : jstring :=
  [92; 117; hex_digit (c / 4096 mod 16); hex_digit (c / 256 mod 16);
   hex_digit (c / 16 mod 16); hex_digit (c mod 16)]%N.

Definition is_high_surrogate (c : N) : bool := (N.leb 55296 c && N.leb c 56319)%bool.
Definition is_low_surrogate (c : N) : bool := (N.leb 56320 c && N.leb c 57343)%bool.

(** QuoteJSONString without the enclosing quotes: the two-character
    escapes, [\u00XX] for the other control characters and for a
    surrogate that is not part of a pair. *)
Fixpoint quote_body (s : jstring) : jstring :=
  match s with
  | [] => []
  | c :: r =>
      if N.eqb c 34 then [92; 34]%N ++ quote_body r
      else if N.eqb c 92 then [92; 92]%N ++ quote_body r
      else if N.eqb c 8 then [92; 98]%N ++ quote_body r
      else if N.eqb c 12 then [92; 102]%N ++ quote_body r
      else if N.eqb c 10 then [92; 110]%N ++ quote_body r
      else if N.eqb c 13 then [92; 114]%N ++ quote_body r
      else if N.eqb c 9 then [92; 116]%N ++ quote_body r
      else if N.ltb c 32 then unicode_escape c ++ quote_body r
      else if is_high_surrogate c then
        match r with
        | d :: r' =>
            if is_low_surrogate d then c :: d :: quote_body r'
            else unicode_escape c ++ quote_body r
        | [] => unicode_escape c
        end
      else if is_low_surrogate c then unicode_escape c ++ quote_body r
      else c :: quote_body r
  end.

Definition quote (s : jstring) : jstring := 34%N :: quote_body s ++ [34%N].

(** SerializeJSONProperty: [None] is [undefined], the outcome for
    [undefined] itself and for a function. A property whose value has no
    JSON text is left out of its object; such an array element is
    written [null]. *)
Fixpoint serialize (v : value) : option jstring :=
  match v with
  | VUndefined => None
  | VNull => Some (js "null")
  | VBool true => Some (js "true")
  | VBool false => Some (js "false")
  | VNum NaN => Some (js "null")
  | VNum n => Some (to_text n)
  | VStr s => Some (quote s)
  | VArr items =>
      let texts :=
        fix texts (l : list value) : list jstring :=
          match l with
          | [] => []
          | x :: rest =>
              match serialize x with
              | Some t => t
              | None => js "null"
              end :: texts rest
          end in
      Some (91%N :: join (js ",") (texts items) ++ [93%N])
  | VObj fields =>
      let texts :=
        fix texts (l : list (jstring * value)) : list jstring :=
          match l with
          | [] => []
          | (k, x) :: rest =>
              match serialize x with
              | Some t => (quote k ++ 58%N :: t) :: texts rest
              | None => texts rest
              end
          end in
      Some (123%N :: join (js ",") (texts fields) ++ [125%N])
  | VHost HandlerTable => Some (js "{}")
  | VHost (NativeFunction _) => None
  end.

(** [JSON.stringify(v)] as [console.log] and a template literal print
    it. *)
Definition stringify (v : value) : jstring :=
  match serialize v with
  | Some t => t
  | None => js "undefined"
  end.

End JSON.

(* ------------------------------------------------------------------ *)
(** ** The world of the process *)

(** A [Date] handed to the SDK, as the source builds it: [new Date(v)]
    for a primitive [v]; [new Date(clock - ms)] for the Number [ms],
    written [NowMinus ms], where [None] is a Number that is not finite
    (NaN or an infinity); or the [null] that [parseRelativeTime] answers
    for a unit it does not know. What time [NowMinus ms] holds depends on
    the clock: [time_before] below gives it, an Invalid Date included. *)
Inductive date :=
| DateFrom (v : value)
| NowMinus (ms : option Z)
| NullDate.

(** The requests the handlers send through the AWS SDK. *)
Inductive sdk_request :=
| DescribeInstances (Filters : value)
| ListBuckets
| ListObjectsV2 (listParams : value)
| ListFunctions
| ListTables
| GetMetricStatistics (Namespace MetricName Dimensions : value)
    (StartTime EndTime : date) (Period Statistics : value).

(** One call: the region its client was built with, and the request. *)
Record sdk_call := { call_region : value; call_request : sdk_request }.

(** How [.promise()] settles: the SDK rejects with an [Error]. *)
Inductive sdk_outcome :=
| Resolved (data : value)
| Rejected (error : jstring).

(** What the process can touch. [disk] tells the fate of the coming
    calls of [fs.appendFileSync], in order: [Some m] is a call that
    throws an [Error] with message [m]; past the end of the list every
    append succeeds. [aws] answers a call from the calls made so far.
    [logfile] holds the text of each line appended, after its time
    stamp. *)
Record world := {
  stdout : list jstring;
  logfile : list jstring;
  disk : list (option jstring);
  config_region : value;
  calls : list sdk_call;
  aws : list sdk_call -> sdk_call -> sdk_outcome
}.

Definition M (A : Type) : Type := world -> completion A * world.

Definition ret {A : Type} (a : A) : M A := fun w => (Normal a, w).

Definition throw {A : Type} (e : thrown) : M A := fun w => (Throw e, w).

Definition bind {A B : Type} (c : M A) (k : A -> M B) : M B :=
  fun w =>
    match c w with
    | (Normal a, w') => k a w'
    | (Throw e, w') => (Throw e, w')
    end.

(** [try { body } catch (error) { handler }]. *)
Definition try_catch {A : Type} (body : M A) (handler : thrown -> M A) : M A :=
  fun w =>
    match body w with
    | (Normal a, w') => (Normal a, w')
    | (Throw e, w') => handler e w'
    end.

Definition lift {A : Type} (c : completion A) : M A := fun w => (c, w).

Declare Scope js_scope.
Delimit Scope js_scope with stmt.
Notation "x <- c ;; k" := (bind c (fun x => k))
  (at level 61, c at next level, right associativity) : js_scope.
Notation "c ;; k" := (bind c (fun _ => k))
  (at level 61, right associativity) : js_scope.
Open Scope js_scope.

(** [v.k] as a statement. *)
Definition get (v : value) (k : string) : M value := lift (prop v (js k)).

Definition wrote (line : jstring) (w : world) : world :=
  {| stdout := stdout w ++ [line]; logfile := logfile w; disk := disk w;
     config_region := config_region w; calls := calls w; aws := aws w |}.

(** The world after an append that succeeded. *)
Definition logged (entry : jstring) (w : world) : world :=
  {| stdout := stdout w; logfile := logfile w ++ [entry]; disk := tl (disk w);
     config_region := config_region w; calls := calls w; aws := aws w |}.

(** The world after an append that failed. *)
Definition unlogged (w : world) : world :=
  {| stdout := stdout w; logfile := logfile w; disk := tl (disk w);
     config_region := config_region w; calls := calls w; aws := aws w |}.

Definition configured (r : value) (w : world) : world :=
  {| stdout := stdout w; logfile := logfile w; disk := disk w;
     config_region := r; calls := calls w; aws := aws w |}.

Definition called (c : sdk_call) (w : world) : world :=
  {| stdout := stdout w; logfile := logfile w; disk := disk w;
     config_region := config_region w; calls := calls w ++ [c]; aws := aws w |}.

(** [log(message)] for a string message: [fs.appendFileSync] is not
    guarded, what it throws leaves [log]. *)
Definition log (entry : jstring) : M unit :=
  fun w =>
    match disk w with
    | Some m :: _ => (Throw (JsError m), unlogged w)
    | _ => (Normal tt, logged entry w)
    end.

(** [console.log(line)]. *)
Definition console_log (line : jstring) : M unit :=
  fun w => (Normal tt, wrote line w).

(** [AWS.config.update({ region })]. *)
Definition config_update (r : value) : M unit :=
  fun w => (Normal tt, configured r w).

(** [await client.operation(params).promise()] on a client built with
    [{ region }]. *)
Definition sdk_invoke (region : value) (req : sdk_request) : M value :=
  fun w =>
    let c := {| call_region := region; call_request := req |} in
    match aws w (calls w) c with
    | Resolved data => (Normal data, called c w)
    | Rejected m => (Throw (JsError m), called c w)
    end.

(* ------------------------------------------------------------------ *)
(** ** The tool catalog *)

Definition str (s : string) : value := VStr (js s).

Definition field (k : string) (v : value) : jstring * value := (js k, v).

(** One entry of [tools]. *)
Record tool := { name : jstring; description : jstring; parameters : value }.

Definition tools : list tool :=
[
  {| name := js "aws.ec2.describeInstances";
     description := js "List EC2 instances and their details";
     parameters := VObj
       [field "type" (str "object");
        field "properties" (VObj
          [field "region" (VObj
             [field "type" (str "string");
              field "description" (str "AWS region (e.g., us-west-2)")]);
           field "filters" (VObj
             [field "type" (str "array");
              field "description" (str "Optional filters to apply");
              field "items" (VObj
                [field "type" (str "object");
                 field "properties" (VObj
                   [field "Name" (VObj [field "type" (str "string")]);
                    field "Values" (VObj
                      [field "type" (str "array");
                       field "items" (VObj [field "type" (str "string")])])])])])]);
        field "required" (VArr [])] |};
  {| name := js "aws.ec2.describeVpcs";
     description := js "List VPCs and their details";
     parameters := VObj
       [field "type" (str "object");
        field "properties" (VObj
          [field "region" (VObj
             [field "type" (str "string");
              field "description" (str "AWS region (e.g., us-west-2)")]);
           field "vpcIds" (VObj
             [field "type" (str "array");
              field "description" (str "Optional VPC IDs to filter");
              field "items" (VObj [field "type" (str "string")])])]);
        field "required" (VArr [])] |};
  {| name := js "aws.ec2.describeSecurityGroups";
     description := js "List security groups and their details";
     parameters := VObj
       [field "type" (str "object");
        field "properties" (VObj
          [field "region" (VObj
             [field "type" (str "string");
              field "description" (str "AWS region (e.g., us-west-2)")]);
           field "groupIds" (VObj
             [field "type" (str "array");
              field "description" (str "Optional security group IDs to filter");
              field "items" (VObj [field "type" (str "string")])])]);
        field "required" (VArr [])] |};
  {| name := js "aws.s3.listBuckets";
     description := js "List all S3 buckets";
     parameters := VObj
       [field "type" (str "object");
        field "properties" (VObj
          [field "region" (VObj
             [field "type" (str "string");
              field "description" (str "AWS region (e.g., us-west-2)")])]);
        field "required" (VArr [])] |};
  {| name := js "aws.s3.listObjects";
     description := js "List objects in an S3 bucket";
     parameters := VObj
       [field "type" (str "object");
        field "properties" (VObj
          [field "region" (VObj
             [field "type" (str "string");
              field "description" (str "AWS region (e.g., us-west-2)")]);
           field "bucket" (VObj
             [field "type" (str "string");
              field "description" (str "S3 bucket name")]);
           field "prefix" (VObj
             [field "type" (str "string");
              field "description" (str "Optional prefix to filter objects")])]);
        field "required" (VArr [str "bucket"])] |};
  {| name := js "aws.lambda.listFunctions";
     description := js "List Lambda functions";
     parameters := VObj
       [field "type" (str "object");
        field "properties" (VObj
          [field "region" (VObj
             [field "type" (str "string");
              field "description" (str "AWS region (e.g., us-west-2)")])]);
        field "required" (VArr [])] |};
  {| name := js "aws.lambda.getFunctionConfiguration";
     description := js "Get detailed configuration for a Lambda function";
     parameters := VObj
       [field "type" (str "object");
        field "properties" (VObj
          [field "region" (VObj
             [field "type" (str "string");
              field "description" (str "AWS region (e.g., us-west-2)")]);
           field "functionName" (VObj
             [field "type" (str "string");
              field "description" (str "Name or ARN of the Lambda function")])]);
        field "required" (VArr [str "functionName"])] |};
  {| name := js "aws.dynamodb.listTables";
     description := js "List DynamoDB tables";
     parameters := VObj
       [field "type" (str "object");
        field "properties" (VObj
          [field "region" (VObj
             [field "type" (str "string");
              field "description" (str "AWS region (e.g., us-west-2)")])]);
        field "required" (VArr [])] |};
  {| name := js "aws.dynamodb.describeTable";
     description := js "Get detailed information about a DynamoDB table";
     parameters := VObj
       [field "type" (str "object");
        field "properties" (VObj
          [field "region" (VObj
             [field "type" (str "string");
              field "description" (str "AWS region (e.g., us-west-2)")]);
           field "tableName" (VObj
             [field "type" (str "string");
              field "description" (str "Name of the DynamoDB table")])]);
        field "required" (VArr [str "tableName"])] |};
  {| name := js "aws.cloudwatch.getMetricStatistics";
     description := js "Get CloudWatch metrics for a resource";
     parameters := VObj
       [field "type" (str "object");
        field "properties" (VObj
          [field "region" (VObj
             [field "type" (str "string");
              field "description" (str "AWS region (e.g., us-west-2)")]);
           field "namespace" (VObj
             [field "type" (str "string");
              field "description" (str "Metric namespace (e.g., AWS/EC2)")]);
           field "metricName" (VObj
             [field "type" (str "string");
              field "description" (str "Name of the metric")]);
           field "dimensions" (VObj
             [field "type" (str "array");
              field "description" (str "Dimensions for the metric");
              field "items" (VObj
                [field "type" (str "object");
                 field "properties" (VObj
                   [field "Name" (VObj [field "type" (str "string")]);
                    field "Value" (VObj [field "type" (str "string")])])])]);
           field "startTime" (VObj
             [field "type" (str "string");
              field "description" (str "Start time for metrics (ISO format or relative time like -3h)")]);
           field "endTime" (VObj
             [field "type" (str "string");
              field "description" (str "End time for metrics (ISO format or current time by default)")]);
           field "period" (VObj
             [field "type" (str "number");
              field "description" (str "Period in seconds (60, 300, 3600, etc.)")]);
           field "statistics" (VObj
             [field "type" (str "array");
              field "description" (str "Statistics to retrieve (Average, Maximum, Minimum, SampleCount, Sum)");
              field "items" (VObj [field "type" (str "string")])])]);
        field "required" (VArr [str "namespace"; str "metricName"])] |};
  {| name := js "aws.cloudwatch.describeAlarms";
     description := js "List CloudWatch alarms";
     parameters := VObj
       [field "type" (str "object");
        field "properties" (VObj
          [field "region" (VObj
             [field "type" (str "string");
              field "description" (str "AWS region (e.g., us-west-2)")]);
           field "alarmNames" (VObj
             [field "type" (str "array");
              field "description" (str "Optional alarm names to filter");
              field "items" (VObj [field "type" (str "string")])]);
           field "alarmTypes" (VObj
             [field "type" (str "array");
              field "description" (str "Optional alarm types to filter");
              field "items" (VObj
                [field "type" (str "string");
                 field "enum" (VArr [str "MetricAlarm"; str "CompositeAlarm"])])]);
           field "stateValue" (VObj
             [field "type" (str "string");
              field "description" (str "Optional state to filter by (OK, ALARM, INSUFFICIENT_DATA)");
              field "enum" (VArr [str "OK"; str "ALARM"; str "INSUFFICIENT_DATA"])])]);
        field "required" (VArr [])] |};
  {| name := js "aws.iam.listUsers";
     description := js "List IAM users";
     parameters := VObj
       [field "type" (str "object");
        field "properties" (VObj
          [field "pathPrefix" (VObj
             [field "type" (str "string");
              field "description" (str "Optional path prefix to filter users")]);
           field "maxItems" (VObj
             [field "type" (str "number");
              field "description" (str "Maximum number of items to return")])]);
        field "required" (VArr [])] |};
  {| name := js "aws.iam.listRoles";
     description := js "List IAM roles";
     parameters := VObj
       [field "type" (str "object");
        field "properties" (VObj
          [field "pathPrefix" (VObj
             [field "type" (str "string");
              field "description" (str "Optional path prefix to filter roles")]);
           field "maxItems" (VObj
             [field "type" (str "number");
              field "description" (str "Maximum number of items to return")])]);
        field "required" (VArr [])] |};
  {| name := js "aws.rds.describeDBInstances";
     description := js "List RDS database instances";
     parameters := VObj
       [field "type" (str "object");
        field "properties" (VObj
          [field "region" (VObj
             [field "type" (str "string");
              field "description" (str "AWS region (e.g., us-west-2)")]);
           field "dbInstanceIdentifier" (VObj
             [field "type" (str "string");
              field "description" (str "Optional database instance identifier")])]);
        field "required" (VArr [])] |};
  {| name := js "aws.sns.listTopics";
     description := js "List SNS topics";
     parameters := VObj
       [field "type" (str "object");
        field "properties" (VObj
          [field "region" (VObj
             [field "type" (str "string");
              field "description" (str "AWS region (e.g., us-west-2)")])]);
        field "required" (VArr [])] |};
  {| name := js "aws.sqs.listQueues";
     description := js "List SQS queues";
     parameters := VObj
       [field "type" (str "object");
        field "properties" (VObj
          [field "region" (VObj
             [field "type" (str "string");
              field "description" (str "AWS region (e.g., us-west-2)")]);
           field "queueNamePrefix" (VObj
             [field "type" (str "string");
              field "description" (str "Optional prefix to filter queue names")])]);
        field "required" (VArr [])] |};
  {| name := js "aws.cloudformation.listStacks";
     description := js "List CloudFormation stacks";
     parameters := VObj
       [field "type" (str "object");
        field "properties" (VObj
          [field "region" (VObj
             [field "type" (str "string");
              field "description" (str "AWS region (e.g., us-west-2)")]);
           field "stackStatusFilter" (VObj
             [field "type" (str "array");
              field "description" (str "Optional status filters");
              field "items" (VObj [field "type" (str "string")])])]);
        field "required" (VArr [])] |};
  {| name := js "aws.route53.listHostedZones";
     description := js "List Route53 hosted zones";
     parameters := VObj
       [field "type" (str "object");
        field "properties" (VObj
          [field "maxItems" (VObj
             [field "type" (str "number");
              field "description" (str "Maximum number of items to return")])]);
        field "required" (VArr [])] |};
  {| name := js "aws.cloudfront.listDistributions";
     description := js "List CloudFront distributions";
     parameters := VObj
       [field "type" (str "object");
        field "properties" (VObj
          [field "maxItems" (VObj
             [field "type" (str "number");
              field "description" (str "Maximum number of items to return")])]);
        field "required" (VArr [])] |};
  {| name := js "aws.ecs.listClusters";
     description := js "List ECS clusters";
     parameters := VObj
       [field "type" (str "object");
        field "properties" (VObj
          [field "region" (VObj
             [field "type" (str "string");
              field "description" (str "AWS region (e.g., us-west-2)")])]);
        field "required" (VArr [])] |};
  {| name := js "aws.eks.listClusters";
     description := js "List EKS clusters";
     parameters := VObj
       [field "type" (str "object");
        field "properties" (VObj
          [field "region" (VObj
             [field "type" (str "string");
              field "description" (str "AWS region (e.g., us-west-2)")])]);
        field "required" (VArr [])] |};
  {| name := js "ping";
     description := js "Responds with pong";
     parameters := VObj
       [field "type" (str "object");
        field "properties" (VObj []);
        field "required" (VArr [])] |}
].

(* ------------------------------------------------------------------ *)
(** ** The tool handlers *)

(** ToPrimitive, as [+] applies it. *)
Definition to_primitive (v : value) : completion value :=
  match v with
  | VArr _ | VObj _ | VHost _ => bind_c (to_string v) (fun s => Normal (VStr s))
  | _ => Normal v
  end.

(** ToNumber of a primitive that is not a string. *)
Definition to_number (v : value) : number :=
  match v with
  | VNum n => n
  | VNull | VBool false => of_Z 0
  | VBool true => of_Z 1
  | _ => NaN
  end.

(** [a + b]. *)
Definition plus (a b : value) : completion value :=
  bind_c (to_primitive a) (fun pa =>
  bind_c (to_primitive b) (fun pb =>
    match pa, pb with
    | VStr _, _ | _, VStr _ =>
        bind_c (to_string pa) (fun sa =>
        bind_c (to_string pb) (fun sb => Normal (VStr (sa ++ sb))))
    | _, _ => Normal (VNum (add (to_number pa) (to_number pb)))
    end)).

(** [v.length]. *)
Definition length_of (v : value) : completion value :=
  match v with
  | VArr items => Normal (VNum (of_Z (Z.of_nat (List.length items))))
  | VStr s => Normal (VNum (of_Z (Z.of_nat (List.length s))))
  | _ => prop v (js "length")
  end.

(** [reservations.reduce((count, reservation) =>
      count + reservation.Instances.length, 0)]. *)
Definition instance_count (reservations : value) : completion value :=
  match reservations with
  | VArr items =>
      fold_left
        (fun acc reservation =>
           bind_c acc (fun count =>
           bind_c (prop reservation (js "Instances")) (fun instances =>
           bind_c (length_of instances) (fun n => plus count n))))
        items (Normal (VNum (of_Z 0)))
  | VUndefined => Throw (cannot_read (js "undefined") (js "reduce"))
  | VNull => Throw (cannot_read (js "null") (js "reduce"))
  | _ => Throw (JsError (js "result.Reservations.reduce is not a function"))
  end.

(** [handleRegion(params)]. *)
Definition handleRegion (params : value) : M value :=
  fun w =>
    if (truthy params && truthy (prop_opt params (js "region")))%bool then
      (_ <- config_update (prop_opt params (js "region")) ;;
       ret (prop_opt params (js "region"))) w
    else ret (or_else (config_region w) (str "us-west-2")) w.

Definition is_str_white_space (c : N) : bool :=
  (existsb (N.eqb c) [9; 10; 11; 12; 13; 32; 160; 5760; 8232; 8233; 8239; 8287; 12288; 65279]
   || (N.leb 8192 c && N.leb c 8202))%N%bool.

Fixpoint trim_start (s : jstring) : jstring :=
  match s with
  | c :: r => if is_str_white_space c then trim_start r else s
  | [] => []
  end.

Fixpoint take_hex (s : jstring) : list N :=
  match s with
  | c :: r => match JSON.hex_val c with Some d => d :: take_hex r | None => [] end
  | [] => []
  end.

(** [parseInt(s)]: [None] is NaN. *)
Definition parseInt (s : jstring) : option Z :=
  let s0 := trim_start s in
  let '(neg, s1) :=
    match s0 with
    | 45%N :: r => (true, r)
    | 43%N :: r => (false, r)
    | _ => (false, s0)
    end in
  let magnitude :=
    match s1 with
    | 48%N :: x :: r =>
        if (N.eqb x 120 || N.eqb x 88)%bool then
          match take_hex r with
          | [] => None
          | ds => Some (fold_left (fun acc d => (acc * 16 + Z.of_N d)%Z) ds 0%Z)
          end
        else Some (JSON.digits_value (fst (JSON.take_digits s1)))
    | _ =>
        match JSON.take_digits s1 with
        | ([], _) => None
        | (ds, _) => Some (JSON.digits_value ds)
        end
    end in
  match magnitude with
  | Some z => Some (if neg then (- z)%Z else z)
  | None => None
  end.

(** [s.slice(1, -1)]. *)
Definition slice_1_m1 (s : jstring) : jstring := removelast (tl s).

(** The Number nearest to the integer [z]: a binary64 value, which
    holds an integer up to [2^53] as it is and a larger one rounded to 53
    significant bits, a tie going to the even one; [None] past the largest
    finite value, where the Number is an infinity. *)
Definition binary64 (z : Z) : option Z :=
  let a := Z.abs z in
  if (a <=? 2 ^ 53)%Z then Some z
  else
    let ulp := (2 ^ (Z.log2 a - 52))%Z in
    let q := (a / ulp)%Z in
    let r := (a mod ulp)%Z in
    let q' := if (2 * r <? ulp)%Z then q
              else if (ulp <? 2 * r)%Z then (q + 1)%Z
              else if Z.even q then q else (q + 1)%Z in
    if (2 ^ 1024 <=? q' * ulp)%Z then None
    else Some (Z.sgn z * (q' * ulp))%Z.

(** [x * k] for a Number [x] that holds an integer, or is not finite
    ([None]: NaN and the infinities stay what they are), and a literal
    [k] that is not zero. *)
Definition times (x : option Z) (k : Z) : option Z :=
  match x with
  | Some v => binary64 (v * k)
  | None => None
  end.

(** [parseRelativeTime(timeStr)] for a string. [parseInt] answers the
    Number nearest to the integer it reads, and each product is rounded
    in its turn. *)
Definition parseRelativeTime (timeStr : jstring) : date :=
  if (negb (truthy (VStr timeStr)) || negb (startsWith timeStr (js "-")))%bool then NullDate
  else
    let unit := last timeStr 0%N in
    let value :=
      match parseInt (slice_1_m1 timeStr) with
      | Some v => binary64 v
      | None => None
      end in
    if N.eqb unit 104 then NowMinus (times (times (times value 60) 60) 1000)
    else if N.eqb unit 100 then NowMinus (times (times (times (times value 24) 60) 60) 1000)
    else if N.eqb unit 109 then NowMinus (times (times value 60) 1000)
    else NullDate.

(** The time value of [new Date(now - ms)], in milliseconds since the
    epoch, when the clock reads [now]: [None] is an Invalid Date, which
    is what [TimeClip] makes of a Number that is not finite or lies more
    than 8.64e15 ms from the epoch. *)
Definition time_before (now : Z) (ms : option Z) : option Z :=
  match ms with
  | Some z =>
      match binary64 (now - z) with
      | Some t => if (Z.abs t <=? 8640000000000000)%Z then Some t else None
      | None => None
      end
  | None => None
  end.

(** [new Date(v)] for a value of the request: the constructor takes the
    primitive of [v], and the conversion throws for an object that
    cannot be converted. *)
Definition new_Date (v : value) : completion date :=
  bind_c (to_primitive v) (fun p => Normal (DateFrom p)).

(** [new AWS.<Service>({ region })]. To find the endpoint of the client
    the SDK splits a truthy region at its dashes, and only a string has
    a [split]; a string makes a client. *)
Definition new_client (region : value) : M unit :=
  if truthy region then
    match region with
    | VStr _ => ret tt
    | _ => throw (JsError (js "region.split is not a function"))
    end
  else ret tt.

(** The keys of [toolHandlers], in source order. *)
Inductive handler_name :=
| Ping
| Ec2DescribeInstances
| S3ListBuckets
| S3ListObjects
| LambdaListFunctions
| DynamodbListTables
| CloudwatchGetMetricStatistics.

Definition handler_key (h : handler_name) : jstring :=
  match h with
  | Ping => js "ping"
  | Ec2DescribeInstances => js "aws.ec2.describeInstances"
  | S3ListBuckets => js "aws.s3.listBuckets"
  | S3ListObjects => js "aws.s3.listObjects"
  | LambdaListFunctions => js "aws.lambda.listFunctions"
  | DynamodbListTables => js "aws.dynamodb.listTables"
  | CloudwatchGetMetricStatistics => js "aws.cloudwatch.getMetricStatistics"
  end.

Definition handler_names : list handler_name :=
  [Ping; Ec2DescribeInstances; S3ListBuckets; S3ListObjects;
   LambdaListFunctions; DynamodbListTables; CloudwatchGetMetricStatistics].

(** [try { body } catch (error) { throw new Error(`<service> Error: ${error.message}`) }]. *)
Definition rethrow_as (service : string) (body : M value) : M value :=
  try_catch body
    (fun error => throw (JsError (js service ++ js " Error: " ++ message error))).

(** [toolHandlers[h](params)]: the body of each handler, from its call
    to the settling of the promise it returns. *)
Definition run_handler (h : handler_name) (params : value) : M value :=
  match h with
  | Ping => ret (VObj [field "result" (str "pong")])
  | Ec2DescribeInstances =>
      region <- handleRegion params ;;
      new_client region ;;
      rethrow_as "EC2"
        (filters <- get params "filters" ;;
         result <- sdk_invoke region (DescribeInstances (or_else filters (VArr []))) ;;
         reservations <- get result "Reservations" ;;
         instanceCount <- lift (instance_count reservations) ;;
         ret (VObj [field "result" (VObj
                [field "region" region;
                 field "reservations" reservations;
                 field "instanceCount" instanceCount])]))
  | S3ListBuckets =>
      region <- handleRegion params ;;
      new_client region ;;
      rethrow_as "S3"
        (result <- sdk_invoke region ListBuckets ;;
         buckets <- get result "Buckets" ;;
         ret (VObj [field "result" (VObj
                [field "region" region; field "buckets" buckets])]))
  | S3ListObjects =>
      region <- handleRegion params ;;
      new_client region ;;
      bucket <- get params "bucket" ;;
      if negb (truthy bucket) then throw (JsError (js "Bucket name is required"))
      else
        rethrow_as "S3"
          (prefix <- get params "prefix" ;;
           let listParams :=
             VObj (field "Bucket" bucket
                   :: if truthy prefix then [field "Prefix" prefix] else []) in
           result <- sdk_invoke region (ListObjectsV2 listParams) ;;
           contents <- get result "Contents" ;;
           keyCount <- get result "KeyCount" ;;
           ret (VObj [field "result" (VObj
                  [field "region" region;
                   field "bucket" bucket;
                   field "prefix" (or_else prefix (VStr []));
                   field "objects" contents;
                   field "count" keyCount])]))
  | LambdaListFunctions =>
      region <- handleRegion params ;;
      new_client region ;;
      rethrow_as "Lambda"
        (result <- sdk_invoke region ListFunctions ;;
         functions <- get result "Functions" ;;
         ret (VObj [field "result" (VObj
                [field "region" region; field "functions" functions])]))
  | DynamodbListTables =>
      region <- handleRegion params ;;
      new_client region ;;
      rethrow_as "DynamoDB"
        (result <- sdk_invoke region ListTables ;;
         tables <- get result "TableNames" ;;
         ret (VObj [field "result" (VObj
                [field "region" region; field "tables" tables])]))
  | CloudwatchGetMetricStatistics =>
      region <- handleRegion params ;;
      new_client region ;;
      namespace <- get params "namespace" ;;
      if negb (truthy namespace) then throw (JsError (js "Namespace is required"))
      else
        metricName <- get params "metricName" ;;
        if negb (truthy metricName) then throw (JsError (js "Metric name is required"))
        else
          rethrow_as "CloudWatch"
            (start <- get params "startTime" ;;
             startTime <-
               (if truthy start then
                  match start with
                  | VStr s =>
                      if startsWith s (js "-") then ret (parseRelativeTime s)
                      else lift (new_Date start)
                  | _ => throw (JsError (js "params.startTime.startsWith is not a function"))
                  end
                else ret (NowMinus (Some (3600 * 1000)%Z))) ;;
             finish <- get params "endTime" ;;
             endTime <-
               (if truthy finish then lift (new_Date finish)
                else ret (NowMinus (Some 0%Z))) ;;
             dimensions <- get params "dimensions" ;;
             period <- get params "period" ;;
             statistics <- get params "statistics" ;;
             result <- sdk_invoke region
               (GetMetricStatistics namespace metricName
                  (or_else dimensions (VArr [])) startTime endTime
                  (or_else period (VNum (of_Z 300)))
                  (or_else statistics (VArr [str "Average"]))) ;;
             datapoints <- get result "Datapoints" ;;
             label <- get result "Label" ;;
             ret (VObj [field "result" (VObj
                    [field "region" region;
                     field "namespace" namespace;
                     field "metricName" metricName;
                     field "datapoints" datapoints;
                     field "label" label])]))
  end.

(* ------------------------------------------------------------------ *)
(** ** Property lookup on [toolHandlers] *)

(** [toolHandlers] is an object literal: a lookup that finds no own
    property goes on to [Object.prototype]. These are its members. *)
Inductive proto_member :=
| P_constructor
| P_defineGetter
| P_defineSetter
| P_hasOwnProperty
| P_lookupGetter
| P_lookupSetter
| P_isPrototypeOf
| P_propertyIsEnumerable
| P_toString
| P_valueOf
| P_proto
| P_toLocaleString.

Definition proto_key (p : proto_member) : jstring :=
  match p with
  | P_constructor => js "constructor"
  | P_defineGetter => js "__defineGetter__"
  | P_defineSetter => js "__defineSetter__"
  | P_hasOwnProperty => js "hasOwnProperty"
  | P_lookupGetter => js "__lookupGetter__"
  | P_lookupSetter => js "__lookupSetter__"
  | P_isPrototypeOf => js "isPrototypeOf"
  | P_propertyIsEnumerable => js "propertyIsEnumerable"
  | P_toString => js "toString"
  | P_valueOf => js "valueOf"
  | P_proto => js "__proto__"
  | P_toLocaleString => js "toLocaleString"
  end.

Definition proto_members : list proto_member :=
  [P_constructor; P_defineGetter; P_defineSetter; P_hasOwnProperty;
   P_lookupGetter; P_lookupSetter; P_isPrototypeOf; P_propertyIsEnumerable;
   P_toString; P_valueOf; P_proto; P_toLocaleString].

(** What [toolHandlers[key]] finds. Every member is truthy: the own ones
    and all inherited ones but one are functions, and [__proto__] reads
    as the prototype object. *)
Inductive member :=
| Own (h : handler_name)
| Inherited (p : proto_member).

(** The handler registered under [key], if any. *)
Definition registered (key : jstring) : option handler_name :=
  find (fun h => JStr.eqb key (handler_key h)) handler_names.

(** [toolHandlers[key]]: [None] is [undefined]. *)
Definition toolHandlers_get (key : jstring) : option member :=
  match registered key with
  | Some h => Some (Own h)
  | None =>
      match find (fun p => JStr.eqb key (proto_key p)) proto_members with
      | Some p => Some (Inherited p)
      | None => None
      end
  end.

(** [toolHandlers[p](params)] for an inherited member, called with
    [toolHandlers] as [this]. [Object(params)] wraps a primitive in an
    object that serialises as the primitive does, so the primitive stands
    for it. Messages of the TypeErrors are V8's. *)
Definition call_inherited (p : proto_member) (params : value) : completion value :=
  match p with
  | P_constructor => Normal params
  | P_hasOwnProperty | P_propertyIsEnumerable =>
      bind_c (to_string params) (fun key =>
        Normal (VBool (match registered key with Some _ => true | None => false end)))
  | P_isPrototypeOf => Normal (VBool false)
  | P_toString | P_toLocaleString => Normal (str "[object Object]")
  | P_valueOf => Normal (VHost HandlerTable)
  | P_proto => Throw (JsError (js "toolHandlers[toolName] is not a function"))
  | P_defineGetter =>
      Throw (JsError (js "Object.prototype.__defineGetter__: Expecting function"))
  | P_defineSetter =>
      Throw (JsError (js "Object.prototype.__defineSetter__: Expecting function"))
  | P_lookupGetter =>
      bind_c (to_string params) (fun key =>
        Normal (if JStr.eqb key (js "__proto__")
                then VHost (NativeFunction (js "get __proto__"))
                else VUndefined))
  | P_lookupSetter =>
      bind_c (to_string params) (fun key =>
        Normal (if JStr.eqb key (js "__proto__")
                then VHost (NativeFunction (js "set __proto__"))
                else VUndefined))
  end.

(** [await toolHandlers[key](params)]. *)
Definition call_tool (key : jstring) (params : value) : M value :=
  match toolHandlers_get key with
  | Some (Own h) => run_handler h params
  | Some (Inherited p) => lift (call_inherited p params)
  | None => throw (JsError (js "toolHandlers[toolName] is not a function"))
  end.

(* ------------------------------------------------------------------ *)
(** ** The protocol engine *)

(** The two response envelopes. *)
Inductive response :=
| Success (id result : value)
| Failure (id : value) (code : Z) (msg : jstring).

(** The object a sender builds for a response. *)
Definition envelope (r : response) : value :=
  match r with
  | Success id result =>
      VObj [field "jsonrpc" (str "2.0"); field "id" id; field "result" result]
  | Failure id code msg =>
      VObj [field "jsonrpc" (str "2.0"); field "id" id;
            field "error" (VObj [field "code" (VNum (of_Z code));
                                 field "message" (VStr msg)])]
  end.

(** The line a response is written as. *)
Definition encode (r : response) : jstring := JSON.stringify (envelope r).

(** [sendResponse(id, result)]. *)
Definition sendResponse (id result : value) : M unit :=
  log (js "[aws] [info] Sending response: " ++ encode (Success id result)) ;;
  console_log (encode (Success id result)).

(** [sendErrorResponse(id, code, message)]. *)
Definition sendErrorResponse (id : value) (code : Z) (msg : jstring) : M unit :=
  log (js "[aws] [error] Sending error: " ++ encode (Failure id code msg)) ;;
  console_log (encode (Failure id code msg)).

(** The descriptor [tools/list] gives for a catalog entry. *)
Definition describe (t : tool) : value :=
  VObj
    [field "name" (VStr (name t));
     field "description" (VStr (description t));
     field "inputSchema" (VObj
       [field "type" (str "object");
        field "properties" (or_else (prop_opt (parameters t) (js "properties")) (VObj []));
        field "required" (or_else (prop_opt (parameters t) (js "required")) (VArr []));
        field "additionalProperties" (VBool false)])].

(** The SyntaxError of [JSON.parse]. V8 words it after the offending
    token and its position; the program only logs the message. *)
Definition syntax_error : thrown := JsError (js "Unexpected token in JSON").

(** [JSON.parse(line)] as a statement. *)
Definition JSON_parse (line : jstring) : M value :=
  match JSON.parse line with
  | Some v => ret v
  | None => throw syntax_error
  end.

(** The [tools/invoke] branch. *)
Definition invoke (request : value) : M unit :=
  params <- get request "params" ;;
  let toolName := prop_opt params (js "name") in
  let toolParams := or_else (prop_opt params (js "parameters")) (VObj []) in
  missing <-
    (if truthy toolName then
       key <- lift (to_string toolName) ;;
       ret (match toolHandlers_get key with Some _ => false | None => true end)
     else ret true) ;;
  if missing : bool then
    id <- get request "id" ;;
    shown <- lift (to_string toolName) ;;
    sendErrorResponse id (-32601) (js "Tool '" ++ shown ++ js "' not found")
  else
    try_catch
      (key <- lift (to_string toolName) ;;
       result <- call_tool key toolParams ;;
       id <- get request "id" ;;
       sendResponse id result)
      (fun error =>
         log (js "[aws] [error] Tool execution error: " ++ message error) ;;
         id <- get request "id" ;;
         sendErrorResponse id (-32000) (js "Tool execution error: " ++ message error)).

(** The steps of the line handler once the line is parsed. *)
Definition dispatch (request : value) : M unit :=
  log (js "[aws] [info] Received request: " ++ JSON.stringify request) ;;
  jsonrpc <- get request "jsonrpc" ;;
  if negb (strict_eq_str jsonrpc (js "2.0")) then
    id <- get request "id" ;;
    sendErrorResponse id (-32600) (js "Invalid Request: Not JSON-RPC 2.0")
  else
    method <- get request "method" ;;
    if strict_eq_str method (js "initialize") then
      id <- get request "id" ;;
      params <- get request "params" ;;
      protocolVersion <- get params "protocolVersion" ;;
      sendResponse id
        (VObj [field "protocolVersion" protocolVersion;
               field "capabilities" (VObj [field "tools" (VObj [])]);
               field "serverInfo" (VObj [field "name" (str "aws-mcp-server");
                                         field "version" (str "1.0.0")])])
    else if strict_eq_str method (js "tools/list") then
      id <- get request "id" ;;
      sendResponse id (VObj [field "tools" (VArr (map describe tools))])
    else if strict_eq_str method (js "tools/invoke") then
      invoke request
    else if strict_eq_str method (js "notifications/initialized") then
      ret tt
    else
      id <- get request "id" ;;
      sendErrorResponse id (-32601) (js "Method not found").

(** The listener of [rl.on('line', ...)], from the arrival of its line
    to the settling of the promise it returns, nothing else running in
    between: a [Throw] is the rejection of that promise. *)
Definition on_line (line : jstring) : M unit :=
  try_catch
    (request <- JSON_parse line ;; dispatch request)
    (fun error =>
       log (js "[aws] [error] Error processing request: " ++ message error) ;;
       sendErrorResponse VNull (-32700) (js "Parse error")).

(** A session whose lines arrive one at a time, each once the listener
    of the line before it has settled: that of a client that waits for
    the reply before it writes again. It is the run of the schedule
    [one_by_one] of the process below ([serve_run]); there the lines of a
    chunk and the calls in flight take their turns as they come. A
    rejection nobody handles ends the process. *)
Fixpoint serve (lines : list jstring) : M unit :=
  match lines with
  | [] => ret tt
  | line :: rest => on_line line ;; serve rest
  end.

(** The top level of the module up to the first line read: the two
    start-up log entries around the SDK set-up, and the readiness
    notification. The set-up sets the region unless building the
    credentials throws [m], which is logged. *)
Definition startup (credentials : option jstring) : M unit :=
  log (js "[aws] [info] Initializing server...") ;;
  match credentials with
  | None => config_update (str "us-west-2")
  | Some m => log (js "[aws] [error] Error initializing AWS credentials: " ++ m)
  end ;;
  log (js "[aws] [info] Server started and connected successfully") ;;
  console_log (JSON.stringify
    (VObj [field "jsonrpc" (str "2.0");
           field "method" (str "notifications/ready");
           field "params" (VObj [])])).

(** A process that has not run yet. *)
Definition fresh (faults : list (option jstring))
  (oracle : list sdk_call -> sdk_call -> sdk_outcome) : world :=
  {| stdout := []; logfile := []; disk := faults;
     config_region := VUndefined; calls := []; aws := oracle |}.

(* ------------------------------------------------------------------ *)
(** ** The listener in time *)

(** The listener is an [async] function. Called with a line it runs to
    its end or to its [await], that of the invocation; there it stops,
    and the rest of it runs once the promise it awaits has settled and
    the code that was running has come to its end. A handler of
    [toolHandlers] is [async] as well: it runs to its own [await], on
    the call it has just sent to the SDK, and the rest of it builds its
    result or its error without another effect. So [run_handler] gives
    at once the state the handler leaves when it stops and the way its
    promise settles later. *)

(** A listener stopped at its [await]: the request it answers, how the
    promise it awaits settles, and whether that promise waits for the
    SDK (the handler sent a call) or is settled already. *)
Record task := {
  task_request : value;
  task_outcome : completion value;
  task_waits : bool
}.

(** [toolHandlers[key](params)] as the listener sees it before its
    [await]. A registered handler never throws into the listener: what
    it throws rejects its promise. A member that [toolHandlers]
    inherits is an ordinary function, which returns or throws at
    once. *)
Definition start_tool (key : jstring) (params : value) : M (completion value * bool) :=
  match toolHandlers_get key with
  | Some (Own h) =>
      fun w =>
        let '(outcome, w') := run_handler h params w in
        ((Normal (outcome, Nat.ltb (List.length (calls w)) (List.length (calls w')))), w')
  | Some (Inherited p) =>
      result <- lift (call_inherited p params) ;;
      ret (Normal result, false)
  | None => throw (JsError (js "toolHandlers[toolName] is not a function"))
  end.

(** The [tools/invoke] branch up to the [await]: [None] when the
    listener is through, the request answered. *)
Definition begin_invoke (request : value) : M (option task) :=
  params <- get request "params" ;;
  let toolName := prop_opt params (js "name") in
  let toolParams := or_else (prop_opt params (js "parameters")) (VObj []) in
  missing <-
    (if truthy toolName then
       key <- lift (to_string toolName) ;;
       ret (match toolHandlers_get key with Some _ => false | None => true end)
     else ret true) ;;
  if missing : bool then
    id <- get request "id" ;;
    shown <- lift (to_string toolName) ;;
    sendErrorResponse id (-32601) (js "Tool '" ++ shown ++ js "' not found") ;;
    ret None
  else
    try_catch
      (key <- lift (to_string toolName) ;;
       started <- start_tool key toolParams ;;
       ret (Some {| task_request := request;
                    task_outcome := fst started;
                    task_waits := snd started |}))
      (fun error =>
         log (js "[aws] [error] Tool execution error: " ++ message error) ;;
         id <- get request "id" ;;
         sendErrorResponse id (-32000) (js "Tool execution error: " ++ message error) ;;
         ret None).

(** The steps of the listener once the line is parsed, up to the
    [await]. *)
Definition begin_dispatch (request : value) : M (option task) :=
  log (js "[aws] [info] Received request: " ++ JSON.stringify request) ;;
  jsonrpc <- get request "jsonrpc" ;;
  if negb (strict_eq_str jsonrpc (js "2.0")) then
    id <- get request "id" ;;
    sendErrorResponse id (-32600) (js "Invalid Request: Not JSON-RPC 2.0") ;;
    ret None
  else
    method <- get request "method" ;;
    if strict_eq_str method (js "initialize") then
      id <- get request "id" ;;
      params <- get request "params" ;;
      protocolVersion <- get params "protocolVersion" ;;
      sendResponse id
        (VObj [field "protocolVersion" protocolVersion;
               field "capabilities" (VObj [field "tools" (VObj [])]);
               field "serverInfo" (VObj [field "name" (str "aws-mcp-server");
                                         field "version" (str "1.0.0")])]) ;;
      ret None
    else if strict_eq_str method (js "tools/list") then
      id <- get request "id" ;;
      sendResponse id (VObj [field "tools" (VArr (map describe tools))]) ;;
      ret None
    else if strict_eq_str method (js "tools/invoke") then
      begin_invoke request
    else if strict_eq_str method (js "notifications/initialized") then
      ret None
    else
      id <- get request "id" ;;
      sendErrorResponse id (-32601) (js "Method not found") ;;
      ret None.

(** The listener from the arrival of its line to its end or to its
    [await]; a [Throw] is the rejection of its promise. *)
Definition arrive (line : jstring) : M (option task) :=
  try_catch
    (request <- JSON_parse line ;; begin_dispatch request)
    (fun error =>
       log (js "[aws] [error] Error processing request: " ++ message error) ;;
       sendErrorResponse VNull (-32700) (js "Parse error") ;;
       ret None).

(** The [try] block of the invocation from the [await] on. *)
Definition go_on (t : task) : M unit :=
  try_catch
    (result <- lift (task_outcome t) ;;
     id <- get (task_request t) "id" ;;
     sendResponse id result)
    (fun error =>
       log (js "[aws] [error] Tool execution error: " ++ message error) ;;
       id <- get (task_request t) "id" ;;
       sendErrorResponse id (-32000) (js "Tool execution error: " ++ message error)).

(** The listener from its [await] on, inside the two [try] blocks it
    stopped in. *)
Definition resume (t : task) : M unit :=
  try_catch (go_on t)
    (fun error =>
       log (js "[aws] [error] Error processing request: " ++ message error) ;;
       sendErrorResponse VNull (-32700) (js "Parse error")).

(** What is left of a listener once it has stopped or ended. *)
Definition finish (stopped : option task) : M unit :=
  match stopped with
  | Some t => resume t
  | None => ret tt
  end.

(** What is left of the [try] block of the invocation. *)
Definition finish_block (stopped : option task) : M unit :=
  match stopped with
  | Some t => go_on t
  | None => ret tt
  end.

(** [c'] is [c] up to the [await]: running [c'] and then what is left
    of the block is running [c]. *)
Definition stops (c : M unit) (c' : M (option task)) : Prop :=
  forall w, c w = bind c' finish_block w.

(** The process between two turns of its event loop: its state, the
    listeners that wait for the SDK, in the order they stopped, and
    whether it has ended on a rejection nobody handled. *)
Record process := {
  state : world;
  pending : list task;
  crashed : bool
}.

Definition start (w : world) : process :=
  {| state := w; pending := []; crashed := false |}.

(** What the event loop brings: a chunk of input, whose lines
    [readline] hands to the listener one after the other, or the
    completion of the call that the [n]-th waiting listener sent. *)
Inductive event :=
| Chunk (lines : list jstring)
| Settled (n : nat).

(** The listeners of the lines of a chunk, each run up to its [await]:
    the listeners that stopped, whether one was rejected, the state. *)
Fixpoint arrivals (lines : list jstring) (w : world) : list task * bool * world :=
  match lines with
  | [] => ([], false, w)
  | line :: rest =>
      let '(outcome, w1) := arrive line w in
      let '(stopped, rejected, w2) := arrivals rest w1 in
      match outcome with
      | Normal (Some t) => (t :: stopped, rejected, w2)
      | Normal None => (stopped, rejected, w2)
      | Throw _ => (stopped, true, w2)
      end
  end.

(** Listeners going on one after the other: whether one was rejected,
    and the state. *)
Fixpoint resumptions (stopped : list task) (w : world) : bool * world :=
  match stopped with
  | [] => (false, w)
  | t :: rest =>
      let '(outcome, w1) := resume t w in
      let '(rejected, w2) := resumptions rest w1 in
      (match outcome with Normal _ => rejected | Throw _ => true end, w2)
  end.

(** A chunk: the listeners of its lines run up to their [await]s; then,
    the code of the chunk being over, those whose promise is settled go
    on in the order they stopped, and the others join the waiting ones.
    A rejected listener has no handler for its rejection: the process
    ends when the chunk is through (Node 15 and later). *)
Definition deliver (lines : list jstring) (p : process) : process :=
  let '(stopped, rejected, w1) := arrivals lines (state p) in
  let '(rejected', w2) := resumptions (filter (fun t => negb (task_waits t)) stopped) w1 in
  {| state := w2;
     pending := pending p ++ filter task_waits stopped;
     crashed := (rejected || rejected')%bool |}.

(** The call of the [n]-th waiting listener completes: the listener
    goes on. *)
Definition settle (n : nat) (p : process) : process :=
  match nth_error (pending p) n with
  | Some t =>
      let '(outcome, w1) := resume t (state p) in
      {| state := w1;
         pending := firstn n (pending p) ++ skipn (S n) (pending p);
         crashed := match outcome with Normal _ => false | Throw _ => true end |}
  | None => p
  end.

Definition step (e : event) (p : process) : process :=
  if crashed p then p
  else match e with
       | Chunk lines => deliver lines p
       | Settled n => settle n p
       end.

(** The process after the events of a schedule. *)
Definition run (schedule : list event) (p : process) : process :=
  fold_left (fun q e => step e q) schedule p.

(** The schedule of [serve]: each line in a chunk of its own, the call
    it sent, if any, completing before the next chunk comes. *)
Definition one_by_one (lines : list jstring) : list event :=
  flat_map (fun line => [Chunk [line]; Settled 0]) lines.

(* ------------------------------------------------------------------ *)
(** ** Reading a parsed request *)

(** [request.k] for a request that is an object: what the theorems below
    call the request's [jsonrpc], [method], [id] and [params]. *)
Definition member_of (request : value) (k : string) : value :=
  prop_opt request (js k).

(** The request asks [method] under the version tag the server accepts. *)
Definition asks (request : value) (method : string) : Prop :=
  member_of request "jsonrpc" = str "2.0" /\ member_of request "method" = str method.

(** [request.params?.parameters || {}]. *)
Definition parameters_of (request : value) : value :=
  or_else (prop_opt (member_of request "params") (js "parameters")) (VObj []).

(** [request.params?.name]. *)
Definition tool_name_of (request : value) : value :=
  prop_opt (member_of request "params") (js "name").

(** The request is the [notifications/initialized] notification, under
    the version tag the server accepts. *)
Definition initialized_notification (request : value) : bool :=
  (strict_eq_str (member_of request "jsonrpc") (js "2.0")
   && strict_eq_str (member_of request "method") (js "notifications/initialized"))%bool.

(** How many lines the handler of a line writes when the log works. *)
Definition reply_count (line : jstring) : nat :=
  match JSON.parse line with
  | Some request => if initialized_notification request then 0 else 1
  | None => 1
  end.

(** No coming append to the log fails. *)
Definition quiet (w : world) : Prop := Forall (fun fate => fate = None) (disk w).

(** The lines a computation adds to standard output from [w]. *)
Definition output {A : Type} (c : M A) (w : world) : list jstring :=
  skipn (List.length (stdout w)) (stdout (snd (c w))).

(** An SDK that is never reached. *)
Definition offline : list sdk_call -> sdk_call -> sdk_outcome :=
  fun _ _ => Rejected (js "offline").

(** The process after a start-up with working credentials and a working
    log, its readiness notification written. *)
Definition started : world := snd (startup None (fresh [] offline)).

(* ------------------------------------------------------------------ *)
(** ** The vocabulary of the statements *)

(** What [parse_value], [elements] and [members] find with fuel [f]
    they find with any fuel that is enough for the length of the text,
    and they consume at least one, two and five characters. *)
Definition value_found (f : nat) : Prop :=
  forall s v rest, JSON.parse_value f s = Some (v, rest) ->
    List.length rest < List.length s
    /\ forall g, 2 * List.length s + 1 <= g -> JSON.parse_value g s = Some (v, rest).

Definition elements_found (f : nat) : Prop :=
  forall acc s v rest, JSON.elements f acc s = Some (v, rest) ->
    List.length rest + 2 <= List.length s
    /\ forall g, 2 * List.length s + 2 <= g -> JSON.elements g acc s = Some (v, rest).

Definition members_found (f : nat) : Prop :=
  forall acc s v rest, JSON.members f acc s = Some (v, rest) ->
    List.length rest + 5 <= List.length s
    /\ forall g, 2 * List.length s <= g -> JSON.members g acc s = Some (v, rest).

(** [w'] has the output, the log file and the log's fate of [w]. *)
Definition same_channels (w w' : world) : Prop :=
  stdout w' = stdout w /\ logfile w' = logfile w /\ disk w' = disk w.

(** A computation that neither writes a line nor logs. *)
Definition silent {A : Type} (c : M A) : Prop :=
  forall w, same_channels w (snd (c w)).

(** A computation that only adds lines to standard output. *)
Definition appends {A : Type} (c : M A) : Prop :=
  forall w, exists ls, stdout (snd (c w)) = stdout w ++ ls.

(** The [id] a response carries. *)
Definition response_id (r : response) : value :=
  match r with
  | Success id _ => id
  | Failure id _ _ => id
  end.

(** From a world whose log works, [c] either completes having written
    exactly [n] response lines, all of responses that satisfy [ok], or
    throws having written nothing; the log still works afterwards. *)
Definition replying {A : Type} (ok : response -> Prop) (c : M A) (n : nat) : Prop :=
  forall w, quiet w ->
    match c w with
    | (Normal _, w') =>
        quiet w' /\ exists rs, List.length rs = n /\ Forall ok rs
                               /\ stdout w' = stdout w ++ map encode rs
    | (Throw _, w') => quiet w' /\ stdout w' = stdout w
    end.

(** From a world whose log works, [c] completes having written exactly
    [n] response lines, all of responses that satisfy [ok]. *)
Definition answers (ok : response -> Prop) (c : M unit) (n : nat) : Prop :=
  forall w, quiet w ->
    exists w' rs, c w = (Normal tt, w') /\ quiet w'
                  /\ List.length rs = n /\ Forall ok rs
                  /\ stdout w' = stdout w ++ map encode rs.

(** The response of the [catch] of the line handler. *)
Definition parse_error : response := Failure VNull (-32700) (js "Parse error").

(** A response to [request]: one that echoes its [id], or the one of the
    [catch] of the line handler. *)
Definition response_to (request : value) (r : response) : Prop :=
  response_id r = member_of request "id" \/ r = parse_error.

(** Reading a property of a request that is neither [null] nor
    [undefined] does not throw. *)
Definition readable (request : value) : Prop :=
  forall k, prop request (js k) = Normal (member_of request k).

(** What a line is answered with: a response to the request it parses
    to, or the response of the [catch] when it does not parse. *)
Definition answer_to (line : jstring) (r : response) : Prop :=
  match JSON.parse line with
  | Some request => response_to request r
  | None => r = parse_error
  end.

(** The line handler run on [line] from [w]: how its promise settles. *)
Definition settles (line : jstring) (w : world) : completion unit := fst (on_line line w).

(** The world the line handler leaves. *)
Definition after (line : jstring) (w : world) : world := snd (on_line line w).

(** The world in which the branch of a parsed request runs: the request
    has been logged. *)
Definition received (request : value) (w : world) : world :=
  logged (js "[aws] [info] Received request: " ++ JSON.stringify request) w.

(** The response the invocation of handler [h] ends in. *)
Definition adapted (id : value) (outcome : completion value) : response :=
  match outcome with
  | Normal v => Success id v
  | Throw e => Failure id (-32000) (js "Tool execution error: " ++ message e)
  end.

(** The elements of an array, the property names of an object. *)
Definition elements (v : value) : list value :=
  match v with VArr items => items | _ => [] end.







(** The payload of the [ping] tool. *)
Definition pong : value := VObj [field "result" (str "pong")].

(** The [id] a line carries once parsed. *)
Definition id_of_line (line : jstring) : option value :=
  option_map (fun request => member_of request "id") (JSON.parse line).

(** What the [`${toolName}`] of the not-found message shows for a name
    that is missing or a string. *)
Definition shown_name (toolName : value) : jstring :=
  match toolName with VStr s => s | _ => js "undefined" end.

(** A tool name that finds nothing in [toolHandlers]: a missing name, or
    a string that is neither a registered name nor a member every object
    inherits. *)
Definition finds_nothing (toolName : value) : Prop :=
  toolName = VUndefined \/ exists s, toolName = VStr s /\ toolHandlers_get s = None.

(** The methods the handler has a branch for. *)
Definition known_methods : list string :=
  ["initialize"; "tools/list"; "tools/invoke"; "notifications/initialized"]%string.

(** The result of the handshake. *)
Definition handshake (protocolVersion : value) : value :=
  VObj [field "protocolVersion" protocolVersion;
        field "capabilities" (VObj [field "tools" (VObj [])]);
        field "serverInfo" (VObj [field "name" (str "aws-mcp-server");
                                  field "version" (str "1.0.0")])].

(** The readiness notification. *)
Definition ready : jstring :=
  wire "{`jsonrpc`:`2.0`,`method`:`notifications/ready`,`params`:{}}".

(* ------------------------------------------------------------------ *)
(** ** The vocabulary of the handlers *)

(** Whether [params] names a region: the test of [handleRegion]. *)
Definition names_region (params : value) : bool :=
  (truthy params && truthy (prop_opt params (js "region")))%bool.

(** The region [handleRegion(params)] answers from [w]. *)
Definition effective_region (params : value) (w : world) : value :=
  if names_region params then prop_opt params (js "region")
  else or_else (config_region w) (str "us-west-2").

(** The ambient region [handleRegion(params)] leaves behind. *)
Definition region_after (params : value) (w : world) : value :=
  if names_region params then prop_opt params (js "region") else config_region w.

(** The world [handleRegion(params)] leaves behind. *)
Definition region_world (params : value) (w : world) : world :=
  if names_region params then configured (prop_opt params (js "region")) w else w.

(** The service name a handler puts before the failures it reports. *)
Definition service_of (h : handler_name) : string :=
  match h with
  | Ping => ""
  | Ec2DescribeInstances => "EC2"
  | S3ListBuckets | S3ListObjects => "S3"
  | LambdaListFunctions => "Lambda"
  | DynamodbListTables => "DynamoDB"
  | CloudwatchGetMetricStatistics => "CloudWatch"
  end.

(** How a handler words the failure [m] of its service. *)
Definition service_error (h : handler_name) (m : jstring) : thrown :=
  JsError (js (service_of h) ++ js " Error: " ++ m).

(** The call of request [req] on a client of [region]. *)
Definition the_call (region : value) (req : sdk_request) : sdk_call :=
  {| call_region := region; call_request := req |}.

(** A computation that leaves the world as it is. *)
Definition unchanged {A : Type} (c : M A) : Prop := forall w, snd (c w) = w.

(** What the body of a handler's [try] may do from [w]: throw before
    any call, or make one call on a client of [region], whose rejection
    it lets through. *)
Definition guarded_step (region : value) (w : world)
    (r : completion value * world) : Prop :=
  (snd r = w /\ exists e, fst r = Throw e)
  \/ exists req,
       snd r = called (the_call region req) w
       /\ forall m, aws w (calls w) (the_call region req) = Rejected m ->
                    fst r = Throw (JsError m).

Definition guarded_call (region : value) (body : M value) : Prop :=
  forall w, guarded_step region w (body w).

(** What a handler may do from [w] once [handleRegion] is past: throw
    before any call, or make one call on a client of [region]; a
    rejection of the call, and whatever else is thrown once the call is
    made, is reported under the name of the service. *)
Definition reported_step (region : value) (service : jstring) (w : world)
    (r : completion value * world) : Prop :=
  (snd r = w /\ exists e, fst r = Throw e)
  \/ exists req,
       snd r = called (the_call region req) w
       /\ (forall m, aws w (calls w) (the_call region req) = Rejected m ->
                     fst r = Throw (JsError (service ++ js " Error: " ++ m)))
       /\ (forall e, fst r = Throw e ->
                     startsWith (message e) (service ++ js " Error: ") = true).

Definition reported_call (region : value) (service : jstring) (c : M value) : Prop :=
  forall w, reported_step region service w (c w).

(** The request invokes the registered handler [h]. *)
Definition invokes (request : value) (h : handler_name) : Prop :=
  asks request "tools/invoke" /\ tool_name_of request = VStr (handler_key h).

(** A reservation as the SDK delivers it: an object whose [Instances]
    is an array. *)
Definition has_instances (reservation : value) : bool :=
  match prop_opt reservation (js "Instances") with VArr _ => true | _ => false end.

(** The instances of a reservation. *)
Definition instances_of (reservation : value) : list value :=
  elements (prop_opt reservation (js "Instances")).

(** The request [aws.ec2.describeInstances] sends for [params]. *)
Definition describe_request (params : value) : sdk_request :=
  DescribeInstances (or_else (prop_opt params (js "filters")) (VArr [])).

(** The parameters a catalog entry declares required. *)
Definition required_names (t : tool) : list value :=
  elements (member_of (parameters t) "required").

(** What the catalog entries named [key] declare required. *)
Definition required_for (key : jstring) : list value :=
  flat_map (fun t => if JStr.eqb (name t) key then required_names t else []) tools.

(** The milliseconds of a unit of [parseRelativeTime]: the factors of
    its [switch]. *)
Definition unit_ms (unit : N) : option Z :=
  if N.eqb unit 104 then Some (60 * 60 * 1000)%Z
  else if N.eqb unit 100 then Some (24 * 60 * 60 * 1000)%Z
  else if N.eqb unit 109 then Some (60 * 1000)%Z
  else None.

(** The factors by which the [switch] of [parseRelativeTime] multiplies
    the amount, in the order of the products. *)
Definition unit_factors (unit : N) : option (list Z) :=
  if N.eqb unit 104 then Some [60; 60; 1000]%Z
  else if N.eqb unit 100 then Some [24; 60; 60; 1000]%Z
  else if N.eqb unit 109 then Some [60; 1000]%Z
  else None.

(** A Number that is not finite, or whose magnitude is [2^53] at least. *)
Definition beyond (x : option Z) : Prop :=
  match x with Some y => (2 ^ 53 <= Z.abs y)%Z | None => True end.

(** The Number [x] computed for the integer [p]: [p] itself up to [2^53],
    and a Number beyond when [p] is larger. *)
Definition tracks (p : Z) (x : option Z) : Prop :=
  ((p <= 2 ^ 53)%Z /\ x = Some p) \/ ((2 ^ 53 < p)%Z /\ beyond x).

(** What may follow the digits of an amount: nothing, or a code unit
    that is neither a digit nor the [x] of a hexadecimal prefix. *)
Definition ends_amount (s : jstring) : bool :=
  match s with
  | [] => true
  | c :: _ => (negb (JSON.is_digit c) && negb (N.eqb c 120 || N.eqb c 88))%bool
  end.

(** A text without control characters: in particular it holds no line
    break. *)
Definition printable (s : jstring) : Prop := Forall (fun c => (32 <= c)%N) s.

(** The log entry a sender makes for a response before it writes it. *)
Definition sending (r : response) : jstring :=
  match r with
  | Success _ _ => js "[aws] [info] Sending response: " ++ encode r
  | Failure _ _ _ => js "[aws] [error] Sending error: " ++ encode r
  end.

(** A computation that writes response lines only, each one entered in
    the log by its sender. *)
Definition accounted {A : Type} (c : M A) : Prop :=
  forall w, exists rs entries,
    stdout (snd (c w)) = stdout w ++ map encode rs
    /\ logfile (snd (c w)) = logfile w ++ entries
    /\ Forall (fun r => In (sending r) entries) rs.

(** The appends to the log that start-up makes: the two entries around
    the set-up of the SDK, and the one of its [catch]. *)
Definition startup_appends (credentials : option jstring) : nat :=
  match credentials with None => 2 | Some _ => 3 end.

(* ------------------------------------------------------------------ *)
(** ** The basic server *)

(** [mcp-server-jsonrpc.js], the server the repository started from: the
    same line protocol with one tool, [ping], answered in the line
    handler itself. It shares the runtime and the world with the full
    server; of the world it uses the output and the log only. *)
Module Basic.

Definition tools : list tool :=
  [{| name := js "ping";
      description := js "Responds with pong";
      parameters := VObj
        [field "type" (str "object");
         field "properties" (VObj []);
         field "required" (VArr [])] |}].

(** [sendResponse(id, result)]. *)
Definition sendResponse (id result : value) : M unit :=
  log (js "Sending response: " ++ encode (Success id result)) ;;
  console_log (encode (Success id result)).

(** [sendErrorResponse(id, code, message)]. *)
Definition sendErrorResponse (id : value) (code : Z) (msg : jstring) : M unit :=
  log (js "Sending error: " ++ encode (Failure id code msg)) ;;
  console_log (encode (Failure id code msg)).

(** The steps of the line handler once the line is parsed. *)
Definition dispatch (request : value) : M unit :=
  log (js "Received request: " ++ JSON.stringify request) ;;
  jsonrpc <- get request "jsonrpc" ;;
  if negb (strict_eq_str jsonrpc (js "2.0")) then
    id <- get request "id" ;;
    sendErrorResponse id (-32600) (js "Invalid Request: Not JSON-RPC 2.0")
  else
    method <- get request "method" ;;
    if strict_eq_str method (js "initialize") then
      id <- get request "id" ;;
      params <- get request "params" ;;
      protocolVersion <- get params "protocolVersion" ;;
      sendResponse id
        (VObj [field "protocolVersion" protocolVersion;
               field "capabilities" (VObj [field "tools" (VObj [])]);
               field "serverInfo" (VObj [field "name" (str "aws-mcp-server");
                                         field "version" (str "1.0.0")])])
    else if strict_eq_str method (js "tools/list") then
      id <- get request "id" ;;
      sendResponse id (VObj [field "tools" (VArr (map describe tools))])
    else
      is_ping <-
        (if strict_eq_str method (js "tools/invoke") then
           params <- get request "params" ;;
           ret (strict_eq_str (prop_opt params (js "name")) (js "ping"))
         else ret false) ;;
      if is_ping : bool then
        id <- get request "id" ;;
        sendResponse id (VObj [field "result" (str "pong")])
      else
        id <- get request "id" ;;
        sendErrorResponse id (-32601) (js "Method not found").

(** The listener of [rl.on('line', ...)]. *)
Definition on_line (line : jstring) : M unit :=
  try_catch
    (request <- JSON_parse line ;; dispatch request)
    (fun error =>
       log (js "Error processing request: " ++ message error) ;;
       sendErrorResponse VNull (-32700) (js "Parse error")).

(** The lines of a session, one after the other. *)
Fixpoint serve (lines : list jstring) : M unit :=
  match lines with
  | [] => ret tt
  | line :: rest => on_line line ;; serve rest
  end.

(** The top level of the module up to the first line read. *)
Definition startup : M unit :=
  log (js "Server starting...") ;;
  log (js "Server ready") ;;
  console_log (JSON.stringify
    (VObj [field "jsonrpc" (str "2.0");
           field "method" (str "notifications/ready");
           field "params" (VObj [])])).

End Basic.

(** A request that the full server treats otherwise than the basic one:
    a listing of the tools (the catalogs differ), an invocation of a tool
    other than [ping], the [notifications/initialized] notification. *)
Definition extended (request : value) : bool :=
  (strict_eq_str (member_of request "jsonrpc") (js "2.0")
   && (strict_eq_str (member_of request "method") (js "tools/list")
       || strict_eq_str (member_of request "method") (js "notifications/initialized")
       || (strict_eq_str (member_of request "method") (js "tools/invoke")
           && negb (strict_eq_str (tool_name_of request) (js "ping")))))%bool.

(** A line that holds no such request. *)
Definition plain (line : jstring) : bool :=
  match JSON.parse line with
  | Some request => negb (extended request)
  | None => true
  end.

(** Two worlds in which the log works and the same lines are written. *)
Definition related (w1 w2 : world) : Prop :=
  quiet w1 /\ quiet w2 /\ stdout w1 = stdout w2.

(** Two computations that, from related worlds, end alike in related
    worlds. *)
Definition agree {A : Type} (c1 c2 : M A) : Prop :=
  forall w1 w2, related w1 w2 ->
    match c1 w1, c2 w2 with
    | (Normal a1, w1'), (Normal a2, w2') => a1 = a2 /\ related w1' w2'
    | (Throw _, w1'), (Throw _, w2') => related w1' w2'
    | _, _ => False
    end.

(** The end of the window of [aws.cloudwatch.getMetricStatistics]:
    [params.endTime ? new Date(params.endTime) : new Date()]. *)
Definition end_time (params : value) : completion date :=
  if truthy (prop_opt params (js "endTime"))
  then new_Date (prop_opt params (js "endTime"))
  else Normal (NowMinus (Some 0%Z)).

(** The request [aws.cloudwatch.getMetricStatistics] sends for [params]
    once the two ends of the window are known. *)
Definition metric_request (params : value) (startTime endTime : date) : sdk_request :=
  GetMetricStatistics
    (prop_opt params (js "namespace")) (prop_opt params (js "metricName"))
    (or_else (prop_opt params (js "dimensions")) (VArr []))
    startTime endTime
    (or_else (prop_opt params (js "period")) (VNum (of_Z 300)))
    (or_else (prop_opt params (js "statistics")) (VArr [str "Average"])).

(** A line that holds an invocation of a tool. *)
Definition invocation (line : jstring) : bool :=
  match JSON.parse line with
  | Some request =>
      (strict_eq_str (member_of request "jsonrpc") (js "2.0")
       && strict_eq_str (member_of request "method") (js "tools/invoke"))%bool
  | None => false
  end.

(** A computation that leaves AWS alone: it makes no call and keeps the
    ambient region. *)
Definition aside {A : Type} (c : M A) : Prop :=
  forall w, calls (snd (c w)) = calls w /\ config_region (snd (c w)) = config_region w.

(** A computation that makes at most [n] calls to the SDK. *)
Definition spends {A : Type} (n : nat) (c : M A) : Prop :=
  forall w, exists made,
    calls (snd (c w)) = calls w ++ made /\ List.length made <= n.

(** A computation that writes no line. *)
Definition mute {A : Type} (c : M A) : Prop :=
  forall w, stdout (snd (c w)) = stdout w.

(** A computation that writes nothing, or writes one line and then
    completes. *)
Definition once {A : Type} (c : M A) : Prop :=
  forall w,
    stdout (snd (c w)) = stdout w
    \/ exists line, stdout (snd (c w)) = stdout w ++ [line]
                    /\ exists a, fst (c w) = Normal a.

(** The lines of a chunk in the order the full server answers them when
    its only invocations are of [ping]: the invocations last. *)
Definition pings_last (chunk : list jstring) : list jstring :=
  filter (fun line => negb (invocation line)) chunk ++ filter invocation chunk.

(** The listener of the [ping] line [line], stopped at its [await]. *)
Definition ping_task (t : task) (line : jstring) : Prop :=
  exists request,
    JSON.parse line = Some request
    /\ asks request "tools/invoke"
    /\ tool_name_of request = str "ping"
    /\ plain line = true
    /\ t = {| task_request := request; task_outcome := Normal pong; task_waits := false |}.

(** A computation of the listener that never stops at an [await]. *)
Definition through (c : M (option task)) : Prop :=
  forall w t, fst (c w) <> Normal (Some t).

(* ------------------------------------------------------------------ *)
(** * Properties *)

(** ** The runtime: numbers, strings and JSON text *)

Example number_text_integer : to_text (Dec 2 0) = js "2".
Proof. reflexivity. Qed.

Example number_text_trailing_zeros : to_text (Dec (-1500) (-2)) = js "-15".
Proof. reflexivity. Qed.

Example number_text_fraction : to_text (Dec 125 (-2)) = js "1.25".
Proof. reflexivity. Qed.

Example number_text_large : to_text (Dec 1 21) = js "1e+21".
Proof. reflexivity. Qed.

Example number_text_small : to_text (Dec 12 (-8)) = js "1.2e-7".
Proof. reflexivity. Qed.

Example number_text_six_places : to_text (Dec 5 (-6)) = js "0.000005".
Proof. reflexivity. Qed.

Example parse_keeps_key_order :
  option_map JSON.stringify (JSON.parse (wire " { `b` : [1, 2.50, -0, 1e3] , `1`: {}, `a`:null, `b`:2, `0`:`z` } "))
  = Some (wire "{`0`:`z`,`1`:{},`b`:2,`a`:null}").
Proof. vm_compute; reflexivity. Qed.

Example parse_numbers_and_escapes :
  option_map JSON.stringify (JSON.parse (wire "[1, 2.50, -0, 1e3, 1E-7, 123e-2, true, `a\u0041\n\/`]"))
  = Some (wire "[1,2.5,0,1000,1e-7,1.23,true,`aA\n/`]").
Proof. vm_compute; reflexivity. Qed.

Example parse_rejects :
  map JSON.parse [wire "[1,]"; wire "{`a`:1,}"; js "01"; js ""; js "nul"; wire "`abc"; js "{} x"; js "1."]
  = [None; None; None; None; None; None; None; None].
Proof. vm_compute; reflexivity. Qed.

Example parseRelativeTime_hours :
  parseRelativeTime (js "-3h") = NowMinus (Some (3 * 60 * 60 * 1000)%Z).
Proof. reflexivity. Qed.

Example ready_line :
  JSON.stringify (VObj [field "jsonrpc" (str "2.0"); field "method" (str "notifications/ready");
                        field "params" (VObj [])])
  = wire "{`jsonrpc`:`2.0`,`method`:`notifications/ready`,`params`:{}}".
Proof. vm_compute; reflexivity. Qed.

Example to_string_array :
  to_string (VArr [VStr (js "ping"); VNull; VArr [VNum (Dec 1 0); VBool true]])
  = Normal (js "ping,,1,true").
Proof. reflexivity. Qed.

(** ** Strings *)

Lemma eqb_spec (a b : jstring) : JStr.eqb a b = true <-> a = b.
Proof.
  revert b; induction a as [|x a IH]; intros [|y b]; simpl;
    try (split; [discriminate | discriminate]); try tauto.
  rewrite andb_true_iff, N.eqb_eq, IH.
  split; [intros [-> ->]; reflexivity | intros E; inversion E; auto].
Qed.

Lemma eqb_refl (a : jstring) : JStr.eqb a a = true.
Proof. apply eqb_spec; reflexivity. Qed.

Lemma strict_eq_str_true (v : value) (lit : jstring) :
  strict_eq_str v lit = true <-> v = VStr lit.
Proof.
  destruct v; simpl; try (split; [discriminate | discriminate]).
  rewrite eqb_spec. split; [intros ->; reflexivity | intros E; inversion E; auto].
Qed.

(** ** The fuel of the parser *)

Module JSONFacts.
Import JSON.

Lemma skip_ws_length (s : jstring) : List.length (skip_ws s) <= List.length s.
Proof.
  induction s as [|c r IH]; simpl; [lia|]. destruct (is_ws c); simpl; lia.
Qed.

Lemma next_is_length (c : N) (s r : jstring) :
  next_is c s = Some r -> List.length s = S (List.length r).
Proof.
  destruct s as [|x s']; simpl; [discriminate|].
  destruct (N.eqb x c); [|discriminate]. intros E; inversion E; reflexivity.
Qed.

Lemma take_digits_length (s : jstring) :
  List.length (fst (take_digits s)) + List.length (snd (take_digits s)) = List.length s.
Proof.
  induction s as [|c r IH]; simpl; [reflexivity|].
  destruct (is_digit c); simpl; [|reflexivity].
  destruct (take_digits r) as [ds rest]; simpl in *. lia.
Qed.

Lemma string_body_length (s acc str rest : jstring) :
  string_body s acc = Some (str, rest) -> List.length rest < List.length s.
Proof.
  remember (List.length s) as n eqn:L. revert s acc L.
  induction n as [n IH] using lt_wf_ind. intros s acc L H.
  destruct s as [|c r]; [discriminate|]. simpl in H, L.
  destruct (N.eqb c 34).
  { inversion H; subst. lia. }
  destruct (N.eqb c 92).
  { destruct r as [|e r']; [discriminate|].
    destruct (N.eqb e 117).
    - destruct r' as [|h1 [|h2 [|h3 [|h4 r'']]]]; try discriminate.
      destruct (hex4 h1 h2 h3 h4); [|discriminate].
      assert (List.length rest < List.length r'')
        by (eapply IH; [| reflexivity | exact H]; simpl in *; lia).
      simpl in *; lia.
    - destruct (simple_escape e); [|discriminate].
      assert (List.length rest < List.length r')
        by (eapply IH; [| reflexivity | exact H]; simpl in *; lia).
      simpl in *; lia. }
  destruct (N.ltb c 32); [discriminate|].
  assert (List.length rest < List.length r)
    by (eapply IH; [| reflexivity | exact H]; lia).
  lia.
Qed.

Lemma int_part_length (s : jstring) (ds : list N) (rest : jstring) :
  int_part s = Some (ds, rest) -> List.length rest < List.length s.
Proof.
  unfold int_part. destruct s as [|c r]; [discriminate|].
  destruct (N.eqb c 48). { intros E; inversion E; subst; simpl; lia. }
  destruct (is_digit c) eqn:D; [|discriminate].
  intros E. pose proof (take_digits_length (c :: r)) as L.
  simpl in E, L. rewrite D in E, L.
  destruct (take_digits r) as [ds' rest']. inversion E; subst. simpl in *. lia.
Qed.

Lemma frac_part_length (s : jstring) (ds : list N) (rest : jstring) :
  frac_part s = Some (ds, rest) -> List.length rest <= List.length s.
Proof.
  unfold frac_part. destruct (next_is 46 s) as [r|] eqn:E.
  - apply next_is_length in E. pose proof (take_digits_length r) as L.
    destruct (take_digits r) as [[|d ds'] rest']; [discriminate|].
    intros T; inversion T; subst. simpl in *. lia.
  - intros T; inversion T; subst. lia.
Qed.

Lemma exp_part_length (s : jstring) (ex : Z) (rest : jstring) :
  exp_part s = Some (ex, rest) -> List.length rest <= List.length s.
Proof.
  unfold exp_part. destruct s as [|c r]; [intros T; inversion T; subst; lia|].
  destruct (N.eqb c 101 || N.eqb c 69)%bool; [|intros T; inversion T; subst; lia].
  assert (S1 : forall neg r1,
             (match next_is 45 r with
              | Some r1 => (true, r1)
              | None => match next_is 43 r with
                        | Some r1 => (false, r1)
                        | None => (false, r)
                        end
              end) = (neg, r1) -> List.length r1 <= List.length r).
  { intros neg r1. destruct (next_is 45 r) as [x|] eqn:A.
    - apply next_is_length in A. intros T; inversion T; subst. lia.
    - destruct (next_is 43 r) as [x|] eqn:B.
      + apply next_is_length in B. intros T; inversion T; subst. lia.
      + intros T; inversion T; subst. lia. }
  destruct (match next_is 45 r with
            | Some r1 => (true, r1)
            | None => match next_is 43 r with
                      | Some r1 => (false, r1)
                      | None => (false, r)
                      end
            end) as [neg r1] eqn:Sg.
  specialize (S1 neg r1 eq_refl). pose proof (take_digits_length r1) as L.
  destruct (take_digits r1) as [[|d ds'] rest']; [discriminate|].
  intros T; inversion T; subst. simpl in *. lia.
Qed.

Lemma number_literal_length (s : jstring) (n : number) (rest : jstring) :
  number_literal s = Some (n, rest) -> List.length rest < List.length s.
Proof.
  unfold number_literal.
  assert (S1 : forall neg s1,
             (match next_is 45 s with Some r => (true, r) | None => (false, s) end) = (neg, s1) ->
             List.length s1 <= List.length s).
  { intros neg s1. destruct (next_is 45 s) as [x|] eqn:A.
    - apply next_is_length in A. intros T; inversion T; subst. lia.
    - intros T; inversion T; subst. lia. }
  destruct (match next_is 45 s with Some r => (true, r) | None => (false, s) end) as [neg s1].
  specialize (S1 neg s1 eq_refl).
  destruct (int_part s1) as [[ints s2]|] eqn:I; [|discriminate].
  apply int_part_length in I.
  destruct (frac_part s2) as [[fracs s3]|] eqn:F; [|discriminate].
  apply frac_part_length in F.
  destruct (exp_part s3) as [[ex s4]|] eqn:X; [|discriminate].
  apply exp_part_length in X.
  intros T; inversion T; subst. lia.
Qed.

Lemma literal_length (word : jstring) (v v' : value) (s rest : jstring) :
  word <> [] -> literal word v s = Some (v', rest) -> List.length rest < List.length s.
Proof.
  unfold literal, startsWith. intros W.
  destruct (JStr.eqb (firstn (List.length word) s) word) eqn:E; [|discriminate].
  apply eqb_spec in E. intros T; inversion T; subst.
  assert (L : List.length (firstn (List.length word) s) = List.length word) by (rewrite E; reflexivity).
  rewrite length_firstn in L. apply Nat.min_l_iff in L. rewrite length_skipn.
  destruct word; [contradiction|]. simpl in *. lia.
Qed.

Lemma parse_value_S (f : nat) (s : jstring) :
  parse_value (S f) s
  = match skip_ws s with
    | [] => None
    | c :: r =>
        if N.eqb c 123 then
          match next_is 125 (skip_ws r) with
          | Some r' => Some (VObj [], r')
          | None => members f [] r
          end
        else if N.eqb c 91 then
          match next_is 93 (skip_ws r) with
          | Some r' => Some (VArr [], r')
          | None => elements f [] r
          end
        else if N.eqb c 34 then
          match string_body r [] with
          | Some (str, rest) => Some (VStr str, rest)
          | None => None
          end
        else if N.eqb c 116 then literal (js "true") (VBool true) (c :: r)
        else if N.eqb c 102 then literal (js "false") (VBool false) (c :: r)
        else if N.eqb c 110 then literal (js "null") VNull (c :: r)
        else
          match number_literal (c :: r) with
          | Some (n, rest) => Some (VNum n, rest)
          | None => None
          end
    end.
Proof. reflexivity. Qed.

Lemma elements_S (f : nat) (acc : list value) (s : jstring) :
  elements (S f) acc s
  = match parse_value f s with
    | None => None
    | Some (v, rest) =>
        match next_is 44 (skip_ws rest) with
        | Some r => elements f (v :: acc) r
        | None =>
            match next_is 93 (skip_ws rest) with
            | Some r => Some (VArr (rev (v :: acc)), r)
            | None => None
            end
        end
    end.
Proof. reflexivity. Qed.

Lemma members_S (f : nat) (acc : list (jstring * value)) (s : jstring) :
  members (S f) acc s
  = match next_is 34 (skip_ws s) with
    | None => None
    | Some r =>
        match string_body r [] with
        | None => None
        | Some (k, rest) =>
            match next_is 58 (skip_ws rest) with
            | None => None
            | Some r1 =>
                match parse_value f r1 with
                | None => None
                | Some (v, rest1) =>
                    match next_is 44 (skip_ws rest1) with
                    | Some r2 => members f (define k v acc) r2
                    | None =>
                        match next_is 125 (skip_ws rest1) with
                        | Some r2 => Some (VObj (define k v acc), r2)
                        | None => None
                        end
                    end
                end
            end
        end
    end.
Proof. reflexivity. Qed.

Lemma fuel_enough (f : nat) : value_found f /\ elements_found f /\ members_found f.
Proof.
  induction f as [|f (IHv & IHe & IHm)].
  { repeat split; intros; discriminate. }
  split; [|split].
  - intros s v rest H. rewrite parse_value_S in H.
    pose proof (skip_ws_length s) as W.
    destruct (skip_ws s) as [|c r] eqn:Ws; [discriminate|]. simpl in W.
    pose proof (skip_ws_length r) as Wr.
    destruct (N.eqb c 123) eqn:C1.
    { destruct (next_is 125 (skip_ws r)) as [r'|] eqn:Nx.
      - inversion H; subst. pose proof (next_is_length _ _ Nx) as L.
        split; [lia|]. intros [|g] G; [lia|]. rewrite parse_value_S, Ws, C1, Nx. reflexivity.
      - destruct (IHm _ _ _ _ H) as [Lm Tm].
        split; [lia|]. intros [|g] G; [lia|]. rewrite parse_value_S, Ws, C1, Nx. apply Tm. lia. }
    destruct (N.eqb c 91) eqn:C2.
    { destruct (next_is 93 (skip_ws r)) as [r'|] eqn:Nx.
      - inversion H; subst. pose proof (next_is_length _ _ Nx) as L.
        split; [lia|]. intros [|g] G; [lia|]. rewrite parse_value_S, Ws, C1, C2, Nx. reflexivity.
      - destruct (IHe _ _ _ _ H) as [Le Te].
        split; [lia|]. intros [|g] G; [lia|]. rewrite parse_value_S, Ws, C1, C2, Nx.
        apply Te. lia. }
    destruct (N.eqb c 34) eqn:C3.
    { destruct (string_body r []) as [[str rest']|] eqn:Sb; [|discriminate].
      inversion H; subst. pose proof (string_body_length _ _ Sb) as L.
      split; [lia|]. intros [|g] G; [lia|]. rewrite parse_value_S, Ws, C1, C2, C3, Sb. reflexivity. }
    destruct (N.eqb c 116) eqn:C4.
    { assert (L := H). apply literal_length in L; [|discriminate]. simpl in L.
      split; [lia|]. intros [|g] G; [lia|]. rewrite parse_value_S, Ws, C1, C2, C3, C4. exact H. }
    destruct (N.eqb c 102) eqn:C5.
    { assert (L := H). apply literal_length in L; [|discriminate]. simpl in L.
      split; [lia|]. intros [|g] G; [lia|]. rewrite parse_value_S, Ws, C1, C2, C3, C4, C5. exact H. }
    destruct (N.eqb c 110) eqn:C6.
    { assert (L := H). apply literal_length in L; [|discriminate]. simpl in L.
      split; [lia|]. intros [|g] G; [lia|].
      rewrite parse_value_S, Ws, C1, C2, C3, C4, C5, C6. exact H. }
    destruct (number_literal (c :: r)) as [[n rest']|] eqn:Nl; [|discriminate].
    inversion H; subst. pose proof (number_literal_length _ Nl) as L. simpl in L.
    split; [lia|]. intros [|g] G; [lia|].
    rewrite parse_value_S, Ws, C1, C2, C3, C4, C5, C6, Nl. reflexivity.
  - intros acc s v rest H. rewrite elements_S in H.
    destruct (parse_value f s) as [[v1 rest1]|] eqn:Pv; [|discriminate].
    destruct (IHv _ _ _ Pv) as [Lv Tv]. pose proof (skip_ws_length rest1) as W.
    destruct (next_is 44 (skip_ws rest1)) as [r|] eqn:N1.
    + pose proof (next_is_length _ _ N1) as L1. destruct (IHe _ _ _ _ H) as [Le Te].
      split; [lia|]. intros [|g] G; [lia|].
      rewrite elements_S, (Tv g) by lia. rewrite N1. apply Te. lia.
    + destruct (next_is 93 (skip_ws rest1)) as [r|] eqn:N2; [|discriminate].
      pose proof (next_is_length _ _ N2) as L2. inversion H; subst.
      split; [lia|]. intros [|g] G; [lia|].
      rewrite elements_S, (Tv g) by lia. rewrite N1, N2. reflexivity.
  - intros acc s v rest H. rewrite members_S in H.
    pose proof (skip_ws_length s) as W.
    destruct (next_is 34 (skip_ws s)) as [r|] eqn:N0; [|discriminate].
    pose proof (next_is_length _ _ N0) as L0.
    destruct (string_body r []) as [[k rest0]|] eqn:Sb; [|discriminate].
    pose proof (string_body_length _ _ Sb) as Ls.
    pose proof (skip_ws_length rest0) as W0.
    destruct (next_is 58 (skip_ws rest0)) as [r1|] eqn:N1; [|discriminate].
    pose proof (next_is_length _ _ N1) as L1.
    destruct (parse_value f r1) as [[v1 rest1]|] eqn:Pv; [|discriminate].
    destruct (IHv _ _ _ Pv) as [Lv Tv]. pose proof (skip_ws_length rest1) as W1.
    destruct (next_is 44 (skip_ws rest1)) as [r2|] eqn:N2.
    + pose proof (next_is_length _ _ N2) as L2. destruct (IHm _ _ _ _ H) as [Lm Tm].
      split; [lia|]. intros [|g] G; [lia|].
      rewrite members_S, N0, Sb, N1, (Tv g) by lia. rewrite N2. apply Tm. lia.
    + destruct (next_is 125 (skip_ws rest1)) as [r2|] eqn:N3; [|discriminate].
      pose proof (next_is_length _ _ N3) as L3. inversion H; subst.
      split; [lia|]. intros [|g] G; [lia|].
      rewrite members_S, N0, Sb, N1, (Tv g) by lia. rewrite N2, N3. reflexivity.
Qed.

(** Whatever fuel finds a value at the head of a text, [JSON.parse] has
    fuel enough to find it: a line it rejects is rejected for its
    syntax. *)
Theorem parse_fuel_enough (f : nat) (text : jstring) (v : value) :
  (exists rest, parse_value f text = Some (v, rest) /\ skip_ws rest = []) ->
  parse text = Some v.
Proof.
  intros (rest & H & E). unfold parse.
  destruct (fuel_enough f) as (Hv & _). destruct (Hv _ _ _ H) as [_ T].
  rewrite (T (S (2 * List.length text))) by lia. rewrite E. reflexivity.
Qed.

End JSONFacts.

(** ** The log and the senders when the log works *)

Lemma quiet_logged (e : jstring) (w : world) : quiet w -> quiet (logged e w).
Proof.
  unfold quiet; simpl. destruct (disk w) as [|f d]; simpl; intros H; [constructor|].
  inversion H; assumption.
Qed.

Lemma quiet_wrote (l : jstring) (w : world) : quiet w -> quiet (wrote l w).
Proof. exact (fun H => H). Qed.

Lemma log_quiet (e : jstring) (w : world) :
  quiet w -> log e w = (Normal tt, logged e w).
Proof.
  unfold quiet, log. destruct (disk w) as [|[m|] d]; intros H; try reflexivity.
  inversion H; discriminate.
Qed.

Lemma sendResponse_quiet (id result : value) (w : world) :
  quiet w ->
  sendResponse id result w
  = (Normal tt,
     wrote (encode (Success id result))
       (logged (js "[aws] [info] Sending response: " ++ encode (Success id result)) w)).
Proof.
  intros H. unfold sendResponse, bind. rewrite (log_quiet _ H). reflexivity.
Qed.

Lemma sendErrorResponse_quiet (id : value) (code : Z) (msg : jstring) (w : world) :
  quiet w ->
  sendErrorResponse id code msg w
  = (Normal tt,
     wrote (encode (Failure id code msg))
       (logged (js "[aws] [error] Sending error: " ++ encode (Failure id code msg)) w)).
Proof.
  intros H. unfold sendErrorResponse, bind. rewrite (log_quiet _ H). reflexivity.
Qed.

Lemma output_wrote {A : Type} (c : M A) (w w' : world) (r : completion A) (ls : list jstring) :
  c w = (r, w') -> stdout w' = stdout w ++ ls -> output c w = ls.
Proof.
  intros E S. unfold output. rewrite E; simpl. rewrite S.
  rewrite skipn_app, skipn_all, Nat.sub_diag. reflexivity.
Qed.

(** ** The handlers leave the output and the log alone *)

Lemma same_channels_refl (w : world) : same_channels w w.
Proof. repeat split. Qed.

Lemma same_channels_trans (w1 w2 w3 : world) :
  same_channels w1 w2 -> same_channels w2 w3 -> same_channels w1 w3.
Proof.
  intros (a & b & c) (a' & b' & c'). repeat split; congruence.
Qed.

Lemma quiet_same_channels (w w' : world) : same_channels w w' -> quiet w -> quiet w'.
Proof. intros (_ & _ & D). unfold quiet. rewrite D. trivial. Qed.

Lemma silent_ret {A : Type} (a : A) : silent (ret a).
Proof. intros w; apply same_channels_refl. Qed.

Lemma silent_throw {A : Type} (e : thrown) : silent (@throw A e).
Proof. intros w; apply same_channels_refl. Qed.

Lemma silent_lift {A : Type} (c : completion A) : silent (lift c).
Proof. intros w; apply same_channels_refl. Qed.

Lemma silent_get (v : value) (k : string) : silent (get v k).
Proof. apply silent_lift. Qed.

Lemma silent_bind {A B : Type} (c : M A) (k : A -> M B) :
  silent c -> (forall a, silent (k a)) -> silent (bind c k).
Proof.
  intros Hc Hk w. unfold bind. specialize (Hc w).
  destruct (c w) as [[a|e] w1]; simpl in *; [|exact Hc].
  eapply same_channels_trans; [exact Hc | apply Hk].
Qed.

Lemma silent_try_catch {A : Type} (body : M A) (handler : thrown -> M A) :
  silent body -> (forall e, silent (handler e)) -> silent (try_catch body handler).
Proof.
  intros Hb Hh w. unfold try_catch. specialize (Hb w).
  destruct (body w) as [[a|e] w1]; simpl in *; [exact Hb|].
  eapply same_channels_trans; [exact Hb | apply Hh].
Qed.

Lemma silent_config_update (r : value) : silent (config_update r).
Proof. intros w; repeat split. Qed.

Lemma silent_sdk_invoke (region : value) (req : sdk_request) : silent (sdk_invoke region req).
Proof.
  intros w. unfold sdk_invoke. destruct (aws w (calls w) _); repeat split.
Qed.

Lemma silent_handleRegion (params : value) : silent (handleRegion params).
Proof.
  intros w. unfold handleRegion.
  destruct (truthy params && truthy (prop_opt params (js "region")))%bool; repeat split.
Qed.

Lemma silent_new_client (region : value) : silent (new_client region).
Proof.
  unfold new_client. destruct (truthy region); [|apply silent_ret].
  destruct region; first [apply silent_ret | apply silent_throw].
Qed.

Lemma silent_rethrow_as (service : string) (body : M value) :
  silent body -> silent (rethrow_as service body).
Proof.
  intros H. apply silent_try_catch; [exact H | intros e; apply silent_throw].
Qed.

Ltac silence :=
  repeat first
    [ apply silent_ret | apply silent_throw | apply silent_get | apply silent_lift
    | apply silent_handleRegion | apply silent_sdk_invoke | apply silent_config_update
    | apply silent_new_client
    | apply silent_rethrow_as
    | apply silent_bind; [| intros ?]
    | match goal with
      | |- silent (if ?b then _ else _) => destruct b
      | |- silent (match ?x with _ => _ end) => destruct x
      end ].

(** No handler writes to standard output or to the log. *)
Lemma run_handler_silent (h : handler_name) (params : value) : silent (run_handler h params).
Proof. destruct h; unfold run_handler; silence. Qed.

Lemma call_inherited_silent (p : proto_member) (params : value) :
  silent (lift (call_inherited p params)).
Proof. apply silent_lift. Qed.

Lemma call_tool_silent (key : jstring) (params : value) : silent (call_tool key params).
Proof.
  unfold call_tool. destruct (toolHandlers_get key) as [[h|p]|].
  - apply run_handler_silent.
  - apply silent_lift.
  - apply silent_throw.
Qed.

(** ** Standard output only grows *)

Lemma appends_silent {A : Type} (c : M A) : silent c -> appends c.
Proof.
  intros H w. exists []. rewrite app_nil_r. apply H.
Qed.

Lemma appends_bind {A B : Type} (c : M A) (k : A -> M B) :
  appends c -> (forall a, appends (k a)) -> appends (bind c k).
Proof.
  intros Hc Hk w. unfold bind. destruct (Hc w) as [l1 S1].
  destruct (c w) as [[a|e] w1]; cbn [snd] in S1; [|exists l1; exact S1].
  destruct (Hk a w1) as [l2 S2]. exists (l1 ++ l2). rewrite S2, S1, app_assoc. reflexivity.
Qed.

Lemma appends_try_catch {A : Type} (body : M A) (handler : thrown -> M A) :
  appends body -> (forall e, appends (handler e)) -> appends (try_catch body handler).
Proof.
  intros Hb Hh w. unfold try_catch. destruct (Hb w) as [l1 S1].
  destruct (body w) as [[a|e] w1]; cbn [snd] in S1; [exists l1; exact S1|].
  destruct (Hh e w1) as [l2 S2]. exists (l1 ++ l2). rewrite S2, S1, app_assoc. reflexivity.
Qed.

Lemma appends_log (entry : jstring) : appends (log entry).
Proof.
  intros w. exists []. rewrite app_nil_r. unfold log.
  destruct (disk w) as [|[m|] later]; reflexivity.
Qed.

Lemma appends_console_log (line : jstring) : appends (console_log line).
Proof. intros w. exists [line]. reflexivity. Qed.

Lemma appends_sendResponse (id result : value) : appends (sendResponse id result).
Proof.
  apply appends_bind; [apply appends_log | intros _; apply appends_console_log].
Qed.

Lemma appends_sendErrorResponse (id : value) (code : Z) (msg : jstring) :
  appends (sendErrorResponse id code msg).
Proof.
  apply appends_bind; [apply appends_log | intros _; apply appends_console_log].
Qed.

Lemma appends_get (v : value) (k : string) (cont : value -> M unit) :
  (forall x, appends (cont x)) -> appends (bind (get v k) cont).
Proof.
  intros H. apply appends_bind; [apply appends_silent, silent_get | exact H].
Qed.

Lemma appends_invoke (request : value) : appends (invoke request).
Proof.
  unfold invoke. apply appends_get; intros params. apply appends_bind.
  - destruct (truthy (prop_opt params (js "name"))); apply appends_silent.
    + apply silent_bind; [apply silent_lift | intros; apply silent_ret].
    + apply silent_ret.
  - intros [|].
    + apply appends_get; intros id.
      apply appends_bind; [apply appends_silent, silent_lift|].
      intros shown. apply appends_sendErrorResponse.
    + apply appends_try_catch.
      * apply appends_bind; [apply appends_silent, silent_lift|]. intros key.
        apply appends_bind; [apply appends_silent, call_tool_silent|]. intros result.
        apply appends_get; intros id. apply appends_sendResponse.
      * intros e. apply appends_bind; [apply appends_log|]. intros _.
        apply appends_get; intros id. apply appends_sendErrorResponse.
Qed.

Lemma appends_dispatch (request : value) : appends (dispatch request).
Proof.
  unfold dispatch. apply appends_bind; [apply appends_log|]. intros _.
  apply appends_get; intros jsonrpc.
  destruct (negb (strict_eq_str jsonrpc (js "2.0"))).
  { apply appends_get; intros id. apply appends_sendErrorResponse. }
  apply appends_get; intros method.
  destruct (strict_eq_str method (js "initialize")).
  { apply appends_get; intros id. apply appends_get; intros params.
    apply appends_get; intros version. apply appends_sendResponse. }
  destruct (strict_eq_str method (js "tools/list")).
  { apply appends_get; intros id. apply appends_sendResponse. }
  destruct (strict_eq_str method (js "tools/invoke")).
  { apply appends_invoke. }
  destruct (strict_eq_str method (js "notifications/initialized")).
  { apply appends_silent, silent_ret. }
  apply appends_get; intros id. apply appends_sendErrorResponse.
Qed.

Lemma appends_on_line (line : jstring) : appends (on_line line).
Proof.
  unfold on_line. apply appends_try_catch.
  - apply appends_bind; [|intros request; apply appends_dispatch].
    apply appends_silent. unfold JSON_parse.
    destruct (JSON.parse line); [apply silent_ret | apply silent_throw].
  - intros e. apply appends_bind; [apply appends_log|]. intros _.
    apply appends_sendErrorResponse.
Qed.

(** ** Counting the responses of a computation *)

Section Replying.

Variable ok : response -> Prop.

Lemma replying_silent {A : Type} (c : M A) : silent c -> replying ok c 0.
Proof.
  intros H w Q. specialize (H w). destruct (c w) as [[a|e] w']; simpl in H.
  - split; [eapply quiet_same_channels; eauto|].
    exists []; simpl. rewrite app_nil_r. split; [reflexivity|]. split; [constructor | apply H].
  - split; [eapply quiet_same_channels; eauto | apply H].
Qed.

Lemma replying_bind {A B : Type} (c : M A) (k : A -> M B) (n : nat) :
  replying ok c 0 -> (forall a, replying ok (k a) n) -> replying ok (bind c k) n.
Proof.
  intros Hc Hk w Q. unfold bind. specialize (Hc w Q).
  destruct (c w) as [[a|e] w1]; [|exact Hc].
  destruct Hc as (Q1 & rs & L & _ & S). destruct rs; [|discriminate].
  simpl in S; rewrite app_nil_r in S.
  specialize (Hk a w1 Q1). destruct (k a w1) as [[b|e] w2]; rewrite <- S; exact Hk.
Qed.

Lemma replying_try_catch {A : Type} (body : M A) (handler : thrown -> M A) (n : nat) :
  replying ok body n -> (forall e, replying ok (handler e) n) ->
  replying ok (try_catch body handler) n.
Proof.
  intros Hb Hh w Q. unfold try_catch. specialize (Hb w Q).
  destruct (body w) as [[a|e] w1]; [exact Hb|].
  destruct Hb as (Q1 & S). specialize (Hh e w1 Q1).
  destruct (handler e w1) as [[b|e'] w2]; rewrite <- S; exact Hh.
Qed.

Lemma replying_log (entry : jstring) : replying ok (log entry) 0.
Proof.
  intros w Q. rewrite (log_quiet _ Q). split; [apply quiet_logged; exact Q|].
  exists []; simpl. rewrite app_nil_r. auto.
Qed.

Lemma replying_sendResponse (id result : value) :
  ok (Success id result) -> replying ok (sendResponse id result) 1.
Proof.
  intros K w Q. rewrite (sendResponse_quiet _ _ Q).
  split; [apply quiet_wrote, quiet_logged; exact Q|].
  exists [Success id result]. auto.
Qed.

Lemma replying_sendErrorResponse (id : value) (code : Z) (msg : jstring) :
  ok (Failure id code msg) -> replying ok (sendErrorResponse id code msg) 1.
Proof.
  intros K w Q. rewrite (sendErrorResponse_quiet _ _ _ Q).
  split; [apply quiet_wrote, quiet_logged; exact Q|].
  exists [Failure id code msg]. auto.
Qed.

Lemma replying_throw {A : Type} (e : thrown) (n : nat) : replying ok (@throw A e) n.
Proof. intros w Q. simpl. auto. Qed.

Lemma replying_get (v : value) (k : string) (n : nat) (cont : value -> M unit) :
  (forall x, replying ok (cont x) n) -> replying ok (bind (get v k) cont) n.
Proof.
  intros H. apply replying_bind; [apply replying_silent, silent_get | exact H].
Qed.

Lemma get_eq (v : value) (k : string) (x : value) (cont : value -> M unit) (w : world) :
  prop v (js k) = Normal x -> bind (get v k) cont w = cont x w.
Proof. intros E. unfold bind, get, lift. rewrite E. reflexivity. Qed.

Lemma replying_get_eq (v : value) (k : string) (x : value) (cont : value -> M unit) (n : nat) :
  prop v (js k) = Normal x -> replying ok (cont x) n -> replying ok (bind (get v k) cont) n.
Proof. intros E H w Q. rewrite (get_eq _ _ _ w E). exact (H w Q). Qed.

End Replying.

Lemma answers_try_catch (ok : response -> Prop) (body : M unit)
  (handler : thrown -> M unit) (n : nat) :
  replying ok body n -> (forall e, answers ok (handler e) n) ->
  answers ok (try_catch body handler) n.
Proof.
  intros Hb Hh w Q. unfold try_catch. specialize (Hb w Q).
  destruct (body w) as [[[]|e] w1].
  - destruct Hb as (Q1 & rs & L & K & S). exists w1, rs. auto.
  - destruct Hb as (Q1 & S). destruct (Hh e w1 Q1) as (w2 & rs & E & Q2 & L & K & S2).
    exists w2, rs. rewrite <- S. auto.
Qed.

(** The [catch] of the line handler answers once. *)
Lemma answers_parse_error (ok : response -> Prop) (e : thrown) :
  ok parse_error ->
  answers ok (log (js "[aws] [error] Error processing request: " ++ message e) ;;
              sendErrorResponse VNull (-32700) (js "Parse error")) 1.
Proof.
  intros K w Q. unfold bind. rewrite (log_quiet _ Q).
  rewrite sendErrorResponse_quiet by (apply quiet_logged; exact Q).
  eexists; exists [parse_error].
  split; [reflexivity|]. split; [apply quiet_wrote; repeat apply quiet_logged; exact Q|].
  auto.
Qed.

(** ** The line handler, branch by branch *)

Lemma get_member (fields : list (jstring * value)) (k : string)
  (cont : value -> M unit) (w : world) :
  bind (get (VObj fields) k) cont w = cont (member_of (VObj fields) k) w.
Proof. reflexivity. Qed.

Lemma readable_unless_null (request : value) :
  request <> VNull -> request <> VUndefined -> readable request.
Proof. intros A B k. destruct request; try reflexivity; contradiction. Qed.

(** The [tools/invoke] branch answers once, echoing the [id], unless it
    throws. *)
Lemma invoke_replying (request : value) :
  readable request -> replying (response_to request) (invoke request) 1.
Proof.
  intros R. unfold invoke. apply replying_get; intros params.
  apply replying_bind.
  - destruct (truthy (prop_opt params (js "name"))).
    + apply replying_silent. apply silent_bind; [apply silent_lift | intros; apply silent_ret].
    + apply replying_silent, silent_ret.
  - intros [|].
    + apply replying_get_eq with (x := member_of request "id"); [apply R|].
      apply replying_bind; [apply replying_silent, silent_lift|].
      intros shown. apply replying_sendErrorResponse. left; reflexivity.
    + apply replying_try_catch.
      * apply replying_bind; [apply replying_silent, silent_lift|]. intros key.
        apply replying_bind; [apply replying_silent, call_tool_silent|]. intros result.
        apply replying_get_eq with (x := member_of request "id"); [apply R|].
        apply replying_sendResponse. left; reflexivity.
      * intros e. apply replying_bind; [apply replying_log|]. intros _.
        apply replying_get_eq with (x := member_of request "id"); [apply R|].
        apply replying_sendErrorResponse. left; reflexivity.
Qed.

(** A request with the accepted version tag is an object. *)
Lemma versioned_is_object (request : value) :
  member_of request "jsonrpc" = str "2.0" -> exists fields, request = VObj fields.
Proof. destruct request; try discriminate. eauto. Qed.

(** The handler's steps after parsing answer once, echoing the [id],
    unless they throw or the request is the [notifications/initialized]
    notification. *)
Lemma dispatch_replying (request : value) :
  initialized_notification request = false ->
  replying (response_to request) (dispatch request) 1.
Proof.
  intros N. unfold dispatch. apply replying_bind; [apply replying_log|]. intros _.
  destruct request as [ | | b | n | s | items | fields | h];
    try (intros w Q; split; [exact Q | reflexivity]);
    try (apply replying_get_eq with (x := VUndefined); [reflexivity|];
         cbn [strict_eq_str negb];
         apply replying_get_eq with (x := VUndefined); [reflexivity|];
         apply replying_sendErrorResponse; left; reflexivity).
  assert (R : readable (VObj fields)) by (intros k; reflexivity).
  apply replying_get_eq with (x := member_of (VObj fields) "jsonrpc"); [reflexivity|].
  unfold initialized_notification in N.
  destruct (strict_eq_str (member_of (VObj fields) "jsonrpc") (js "2.0")); cbn [negb andb] in *.
  2: { apply replying_get_eq with (x := member_of (VObj fields) "id"); [reflexivity|].
       apply replying_sendErrorResponse; left; reflexivity. }
  apply replying_get_eq with (x := member_of (VObj fields) "method"); [reflexivity|].
  destruct (strict_eq_str (member_of (VObj fields) "method") (js "initialize")).
  { apply replying_get_eq with (x := member_of (VObj fields) "id"); [reflexivity|].
    apply replying_get; intros params.
    apply replying_get; intros version. apply replying_sendResponse; left; reflexivity. }
  destruct (strict_eq_str (member_of (VObj fields) "method") (js "tools/list")).
  { apply replying_get_eq with (x := member_of (VObj fields) "id"); [reflexivity|].
    apply replying_sendResponse; left; reflexivity. }
  destruct (strict_eq_str (member_of (VObj fields) "method") (js "tools/invoke")).
  { apply invoke_replying; exact R. }
  rewrite N. apply replying_get_eq with (x := member_of (VObj fields) "id"); [reflexivity|].
  apply replying_sendErrorResponse; left; reflexivity.
Qed.

(** The [notifications/initialized] notification is logged and nothing
    else happens. *)
Lemma dispatch_notification (request : value) (w : world) :
  quiet w -> initialized_notification request = true ->
  dispatch request w
  = (Normal tt, logged (js "[aws] [info] Received request: " ++ JSON.stringify request) w).
Proof.
  intros Q N. unfold initialized_notification in N.
  apply andb_true_iff in N. destruct N as [V Mt].
  apply strict_eq_str_true in V, Mt.
  destruct request as [ | | b | n | s | items | fields | h]; try discriminate.
  unfold dispatch. unfold bind at 1. rewrite (log_quiet _ Q).
  rewrite get_member, V. cbn [strict_eq_str negb]. rewrite eqb_refl. cbn [negb].
  rewrite get_member, Mt. reflexivity.
Qed.

(** From a world whose log works, the handler of a line completes, and
    writes one response line, or none for the
    [notifications/initialized] notification. *)
Lemma on_line_answers (line : jstring) :
  answers (answer_to line) (on_line line) (reply_count line).
Proof.
  unfold on_line, reply_count, answer_to. destruct (JSON.parse line) as [request|] eqn:P.
  - destruct (initialized_notification request) eqn:N.
    + intros w Q. exists (logged (js "[aws] [info] Received request: " ++ JSON.stringify request) w), [].
      unfold try_catch, bind, JSON_parse. rewrite P. cbn [ret].
      rewrite (dispatch_notification _ Q N).
      split; [reflexivity|]. split; [apply quiet_logged; exact Q|].
      simpl. rewrite app_nil_r. auto.
    + apply answers_try_catch; [|intros e; apply answers_parse_error; right; reflexivity].
      intros w Q. unfold bind, JSON_parse. rewrite P. cbn [ret].
      exact (dispatch_replying _ N Q).
  - apply answers_try_catch; [|intros e; apply answers_parse_error; reflexivity].
    intros w Q. unfold bind, JSON_parse. rewrite P. cbn [throw]. split; [exact Q | reflexivity].
Qed.

Lemma registered_key (h : handler_name) : toolHandlers_get (handler_key h) = Some (Own h).
Proof. destruct h; reflexivity. Qed.

Lemma handler_key_truthy (h : handler_name) : truthy (VStr (handler_key h)) = true.
Proof. destruct h; reflexivity. Qed.

Lemma run_handler_quiet (h : handler_name) (params : value) (w : world) :
  quiet w -> quiet (snd (run_handler h params w)) /\ stdout (snd (run_handler h params w)) = stdout w.
Proof.
  intros Q. pose proof (run_handler_silent h params w) as S.
  split; [eapply quiet_same_channels; eauto | apply S].
Qed.

Lemma invoke_registered (fields : list (jstring * value)) (h : handler_name) (w : world) :
  quiet w ->
  tool_name_of (VObj fields) = VStr (handler_key h) ->
  let id := member_of (VObj fields) "id" in
  invoke (VObj fields) w
  = (Normal tt,
     match run_handler h (parameters_of (VObj fields)) w with
     | (Normal v, w1) =>
         wrote (encode (Success id v))
           (logged (js "[aws] [info] Sending response: " ++ encode (Success id v)) w1)
     | (Throw e, w1) =>
         let msg := js "Tool execution error: " ++ message e in
         wrote (encode (Failure id (-32000) msg))
           (logged (js "[aws] [error] Sending error: " ++ encode (Failure id (-32000) msg))
              (logged (js "[aws] [error] Tool execution error: " ++ message e) w1))
     end).
Proof.
  intros Q Hname id. unfold invoke. rewrite get_member.
  fold (tool_name_of (VObj fields)). fold (parameters_of (VObj fields)).
  rewrite Hname, handler_key_truthy.
  unfold bind at 1. unfold bind at 1. cbn [lift to_string ret].
  rewrite registered_key.
  unfold try_catch, bind at 1. cbn [lift].
  unfold bind at 1. unfold call_tool. rewrite registered_key.
  destruct (run_handler_quiet h (parameters_of (VObj fields)) Q) as [Q1 _].
  destruct (run_handler h (parameters_of (VObj fields)) w) as [[v|e] w1]; cbn [snd] in Q1.
  - rewrite get_member. rewrite (sendResponse_quiet _ _ Q1). reflexivity.
  - unfold bind at 1. rewrite (log_quiet _ Q1). rewrite get_member.
    rewrite sendErrorResponse_quiet by (apply quiet_logged; exact Q1). reflexivity.
Qed.

Lemma on_line_parsed (line : jstring) (request : value) (w : world) :
  JSON.parse line = Some request ->
  on_line line w
  = try_catch (dispatch request)
      (fun error =>
         log (js "[aws] [error] Error processing request: " ++ message error) ;;
         sendErrorResponse VNull (-32700) (js "Parse error")) w.
Proof.
  intros P. unfold on_line, try_catch, bind at 1, JSON_parse. rewrite P. reflexivity.
Qed.

Lemma on_line_completes (line : jstring) (request : value) (w w' : world) :
  JSON.parse line = Some request ->
  dispatch request w = (Normal tt, w') -> on_line line w = (Normal tt, w').
Proof.
  intros P D. rewrite (@on_line_parsed line request w P). unfold try_catch. rewrite D. reflexivity.
Qed.

(** A versioned request reaches the branch of its method. *)
Lemma dispatch_versioned (request : value) (w : world) :
  quiet w -> member_of request "jsonrpc" = str "2.0" ->
  dispatch request w
  = (let method := member_of request "method" in
     if strict_eq_str method (js "initialize") then
       id <- get request "id" ;;
       params <- get request "params" ;;
       protocolVersion <- get params "protocolVersion" ;;
       sendResponse id
         (VObj [field "protocolVersion" protocolVersion;
                field "capabilities" (VObj [field "tools" (VObj [])]);
                field "serverInfo" (VObj [field "name" (str "aws-mcp-server");
                                          field "version" (str "1.0.0")])])
     else if strict_eq_str method (js "tools/list") then
       id <- get request "id" ;;
       sendResponse id (VObj [field "tools" (VArr (map describe tools))])
     else if strict_eq_str method (js "tools/invoke") then
       invoke request
     else if strict_eq_str method (js "notifications/initialized") then
       ret tt
     else
       id <- get request "id" ;;
       sendErrorResponse id (-32601) (js "Method not found"))
      (logged (js "[aws] [info] Received request: " ++ JSON.stringify request) w).
Proof.
  intros Q V. destruct (versioned_is_object _ V) as [fields ->].
  unfold dispatch. unfold bind at 1. rewrite (log_quiet _ Q).
  rewrite get_member, V. unfold str. cbn [strict_eq_str]. rewrite eqb_refl. cbn [negb].
  rewrite get_member. reflexivity.
Qed.

(** A session handled from a world whose log works runs to its end and
    leaves the log working. *)
Lemma serve_quiet (lines : list jstring) (w : world) :
  quiet w -> fst (serve lines w) = Normal tt /\ quiet (snd (serve lines w)).
Proof.
  revert w. induction lines as [|line rest IH]; intros w Q; [split; [reflexivity | exact Q]|].
  cbn [serve]. unfold bind.
  destruct (on_line_answers line Q) as (w1 & rs & E & Q1 & _). rewrite E.
  apply IH; exact Q1.
Qed.

(** ** Helpers of the claims *)


(** From a world whose log works the handler of a parsed line completes;
    it writes nothing for the [notifications/initialized] notification
    and one response line for anything else: a response that echoes the
    request's [id], or the one of the [catch]. *)
Lemma one_response_unless_initialized (line : jstring) (request : value) (w : world) :
  JSON.parse line = Some request ->
  quiet w ->
  settles line w = Normal tt
  /\ (initialized_notification request = true -> output (on_line line) w = [])
  /\ (initialized_notification request = false ->
      exists r, output (on_line line) w = [encode r] /\ response_to request r).
Proof.
  intros P Q. destruct (on_line_answers line Q) as (w' & rs & E & _ & L & K & S).
  unfold reply_count in L. unfold answer_to in K. rewrite P in L, K.
  unfold settles. rewrite E. split; [reflexivity|]. split; intros N; rewrite N in L.
  - destruct rs; [|discriminate]. eapply output_wrote; [exact E | exact S].
  - destruct rs as [|r [|r' rs]]; try discriminate.
    exists r. split; [eapply output_wrote; [exact E | exact S]|].
    inversion K; assumption.
Qed.

Lemma log_fault (entry : jstring) (w : world) (m : jstring) (later : list (option jstring)) :
  disk w = Some m :: later -> log entry w = (Throw (JsError m), unlogged w).
Proof. intros D. unfold log. rewrite D. reflexivity. Qed.

Lemma get_object {A : Type} (fields : list (jstring * value)) (k : string)
    (cont : value -> M A) (w : world) :
  bind (get (VObj fields) k) cont w = cont (prop_opt (VObj fields) (js k)) w.
Proof. reflexivity. Qed.

(** ** The listener in time *)

Lemma stops_bind {A : Type} (x : M A) (k : A -> M unit) (k' : A -> M (option task)) :
  (forall a, stops (k a) (k' a)) -> stops (bind x k) (bind x k').
Proof.
  intros H w. unfold bind at 1 2 3. destruct (x w) as [[a|e] w1]; [|reflexivity].
  rewrite (H a w1). reflexivity.
Qed.

Lemma stops_done (c : M unit) : stops c (c ;; ret None).
Proof.
  intros w. unfold bind, ret. destruct (c w) as [[[]|e] w1]; reflexivity.
Qed.

Lemma stops_ret : stops (ret tt) (ret None).
Proof. intros w. reflexivity. Qed.

(** The call of the tool, seen whole and seen up to the [await]. *)
Lemma start_tool_call (key : jstring) (params : value) (w : world) :
  match start_tool key params w with
  | (Normal started, w1) => call_tool key params w = (fst started, w1)
  | (Throw e, w1) => call_tool key params w = (Throw e, w1)
  end.
Proof.
  unfold start_tool, call_tool. destruct (toolHandlers_get key) as [[h|p]|].
  - destruct (run_handler h params w) as [outcome w1]. reflexivity.
  - unfold bind, lift, ret. destruct (call_inherited p params); reflexivity.
  - reflexivity.
Qed.

Lemma stops_invoke (request : value) : stops (invoke request) (begin_invoke request).
Proof.
  unfold invoke, begin_invoke. apply stops_bind. intros params.
  apply stops_bind. intros [|].
  - apply stops_bind. intros id. apply stops_bind. intros shown. apply stops_done.
  - intros w.
    set (name := prop_opt params (js "name")).
    set (given := or_else (prop_opt params (js "parameters")) (VObj [])).
    unfold try_catch, bind, lift, ret. cbn [finish_block].
    destruct (to_string name) as [key|e].
    + pose proof (start_tool_call key given w) as C.
      destruct (start_tool key given w) as [[[outcome waits]|e] w2]; rewrite C;
        cbn [fst snd].
      * unfold go_on, try_catch, bind, lift. cbn [task_outcome task_request].
        destruct outcome as [result|e]; reflexivity.
      * destruct (log (js "[aws] [error] Tool execution error: " ++ message e) w2)
          as [[[]|e1] w3]; [|reflexivity].
        destruct (get request "id" w3) as [[id|e2] w4]; [|reflexivity].
        destruct (sendErrorResponse id (-32000)
                    (js "Tool execution error: " ++ message e) w4) as [[[]|e3] w5];
          reflexivity.
    + destruct (log (js "[aws] [error] Tool execution error: " ++ message e) w)
        as [[[]|e1] w3]; [|reflexivity].
      destruct (get request "id" w3) as [[id|e2] w4]; [|reflexivity].
      destruct (sendErrorResponse id (-32000)
                  (js "Tool execution error: " ++ message e) w4) as [[[]|e3] w5];
        reflexivity.
Qed.

Lemma stops_dispatch (request : value) : stops (dispatch request) (begin_dispatch request).
Proof.
  unfold dispatch, begin_dispatch. apply stops_bind. intros _.
  apply stops_bind. intros jsonrpc.
  destruct (negb (strict_eq_str jsonrpc (js "2.0"))).
  { apply stops_bind. intros id. apply stops_done. }
  apply stops_bind. intros method.
  destruct (strict_eq_str method (js "initialize")).
  { apply stops_bind. intros id. apply stops_bind. intros params.
    apply stops_bind. intros version. apply stops_done. }
  destruct (strict_eq_str method (js "tools/list")).
  { apply stops_bind. intros id. apply stops_done. }
  destruct (strict_eq_str method (js "tools/invoke")).
  { apply stops_invoke. }
  destruct (strict_eq_str method (js "notifications/initialized")).
  { apply stops_ret. }
  apply stops_bind. intros id. apply stops_done.
Qed.

(** Handling a line with nothing in between is letting its listener
    run to its [await] and then go on at once. *)
Lemma on_line_arrive (line : jstring) (w : world) :
  on_line line w = bind (arrive line) finish w.
Proof.
  unfold on_line, arrive.
  assert (S : stops (request <- JSON_parse line ;; dispatch request)
                    (request <- JSON_parse line ;; begin_dispatch request))
    by (apply stops_bind; intros request; apply stops_dispatch).
  set (B := request <- JSON_parse line ;; dispatch request) in *.
  set (B' := request <- JSON_parse line ;; begin_dispatch request) in *.
  pose proof (S w) as E. unfold try_catch, bind in *. rewrite E. clear E.
  destruct (B' w) as [[[t|]|e] w1]; cbn [finish_block finish resume].
  - unfold resume, try_catch. reflexivity.
  - reflexivity.
  - destruct (log (js "[aws] [error] Error processing request: " ++ message e) w1)
      as [[[]|e1] w2]; [|reflexivity].
    destruct (sendErrorResponse VNull (-32700) (js "Parse error") w2) as [[[]|e3] w5];
      reflexivity.
Qed.

(** The listener of a [ping] line stops at its [await] with the request
    logged and nothing written. *)
Lemma arrive_ping (line : jstring) (request : value) (w : world) :
  quiet w -> JSON.parse line = Some request ->
  asks request "tools/invoke" -> tool_name_of request = str "ping" ->
  arrive line w
  = (Normal (Some {| task_request := request; task_outcome := Normal pong;
                     task_waits := false |}),
     received request w).
Proof.
  intros Q P [V Mt] Hname. destruct (versioned_is_object _ V) as [fields ->].
  unfold arrive, try_catch, bind at 1, JSON_parse. rewrite P. cbn [ret].
  unfold begin_dispatch. unfold bind at 1. rewrite (log_quiet _ Q).
  fold (received (VObj fields) w).
  rewrite get_object. fold (member_of (VObj fields) "jsonrpc"). rewrite V.
  unfold str. cbn [strict_eq_str]. rewrite eqb_refl. cbn [negb].
  rewrite get_object. fold (member_of (VObj fields) "method"). rewrite Mt.
  change (strict_eq_str (str "tools/invoke") (js "initialize")) with false.
  change (strict_eq_str (str "tools/invoke") (js "tools/list")) with false.
  change (strict_eq_str (str "tools/invoke") (js "tools/invoke")) with true.
  cbv iota. unfold begin_invoke. rewrite get_object.
  fold (member_of (VObj fields) "params"). fold (tool_name_of (VObj fields)).
  rewrite Hname.
  change (truthy (str "ping")) with true. cbv iota.
  unfold bind at 1. unfold bind at 1. cbn [lift to_string str ret].
  change (toolHandlers_get (js "ping")) with (Some (Own Ping)). cbv iota.
  unfold try_catch, bind at 1. cbn [lift].
  unfold bind at 1. unfold start_tool.
  change (toolHandlers_get (js "ping")) with (Some (Own Ping)). cbv iota.
  cbn [run_handler ret fst snd]. rewrite Nat.ltb_irrefl. reflexivity.
Qed.

(** The listener of a [ping] line goes on: it logs and writes the
    response. *)
Lemma resume_ping (request : value) (w : world) :
  quiet w -> member_of request "jsonrpc" = str "2.0" ->
  resume {| task_request := request; task_outcome := Normal pong; task_waits := false |} w
  = (Normal tt,
     wrote (encode (Success (member_of request "id") pong))
       (logged (js "[aws] [info] Sending response: "
                ++ encode (Success (member_of request "id") pong)) w)).
Proof.
  intros Q V. destruct (versioned_is_object _ V) as [fields ->].
  unfold resume, go_on, try_catch. cbn [task_outcome task_request].
  unfold bind at 1. cbn [lift]. rewrite get_member.
  rewrite (sendResponse_quiet _ _ Q). reflexivity.
Qed.

(** ** The text of a success *)


(* ------------------------------------------------------------------ *)
(** * The claims *)

(** C1 (defect of the code): fifteen of the twenty-two tools that
    [tools/list] advertises have no entry in [toolHandlers]; invoking
    one of them, [aws.ec2.describeVpcs], is answered [-32601]
    "Tool 'aws.ec2.describeVpcs' not found". *)
Theorem C1_catalog_tools_without_handler :
  map name (filter (fun t => match toolHandlers_get (name t) with
                             | Some _ => false
                             | None => true
                             end) tools)
  = [js "aws.ec2.describeVpcs"; js "aws.ec2.describeSecurityGroups";
     js "aws.lambda.getFunctionConfiguration"; js "aws.dynamodb.describeTable";
     js "aws.cloudwatch.describeAlarms"; js "aws.iam.listUsers"; js "aws.iam.listRoles";
     js "aws.rds.describeDBInstances"; js "aws.sns.listTopics"; js "aws.sqs.listQueues";
     js "aws.cloudformation.listStacks"; js "aws.route53.listHostedZones";
     js "aws.cloudfront.listDistributions"; js "aws.ecs.listClusters";
     js "aws.eks.listClusters"]
  /\ output
       (on_line (wire "{`jsonrpc`:`2.0`,`id`:4,`method`:`tools/invoke`,`params`:{`name`:`aws.ec2.describeVpcs`}}"))
       started
     = [wire "{`jsonrpc`:`2.0`,`id`:4,`error`:{`code`:-32601,`message`:`Tool 'aws.ec2.describeVpcs' not found`}}"].
Proof. split; vm_compute; reflexivity. Qed.

(** C2, as stated, fails: three requests without an [id] (an unknown
    method, a wrong version tag, a tool call whose handler throws) each
    get a line written, with no [id] member. *)
Lemma C2_counterexample :
  id_of_line (wire "{`jsonrpc`:`2.0`,`method`:`foo`}") = Some VUndefined
  /\ output (on_line (wire "{`jsonrpc`:`2.0`,`method`:`foo`}")) started
     = [wire "{`jsonrpc`:`2.0`,`error`:{`code`:-32601,`message`:`Method not found`}}"]
  /\ id_of_line (wire "{`jsonrpc`:`1.0`,`method`:`tools/list`}") = Some VUndefined
  /\ output (on_line (wire "{`jsonrpc`:`1.0`,`method`:`tools/list`}")) started
     = [wire "{`jsonrpc`:`2.0`,`error`:{`code`:-32600,`message`:`Invalid Request: Not JSON-RPC 2.0`}}"]
  /\ id_of_line (wire "{`jsonrpc`:`2.0`,`method`:`tools/invoke`,`params`:{`name`:`aws.s3.listObjects`}}")
     = Some VUndefined
  /\ output (on_line (wire "{`jsonrpc`:`2.0`,`method`:`tools/invoke`,`params`:{`name`:`aws.s3.listObjects`}}"))
       started
     = [wire "{`jsonrpc`:`2.0`,`error`:{`code`:-32000,`message`:`Tool execution error: Bucket name is required`}}"].
Proof. repeat split; vm_compute; reflexivity. Qed.

(** C2, amended: a request without an [id] gets no output line exactly
    when it is the [notifications/initialized] notification under the
    accepted version tag; any other request without an [id] is answered
    with one response line, which has no [id] member or is the parse
    error with a null [id]. (The log is taken to work.) *)
Theorem C2_silent_only_for_initialized (line : jstring) (request : value) (w : world) :
  JSON.parse line = Some request ->
  quiet w ->
  member_of request "id" = VUndefined ->
  settles line w = Normal tt
  /\ (initialized_notification request = true -> output (on_line line) w = [])
  /\ (initialized_notification request = false ->
      exists r, output (on_line line) w = [encode r]
                /\ (response_id r = VUndefined \/ r = parse_error)).
Proof.
  intros P Q I.
  destruct (@one_response_unless_initialized line request w P Q) as (S & Z & O).
  split; [exact S|]. split; [exact Z|].
  intros N. destruct (O N) as (r & E & K). exists r. split; [exact E|].
  unfold response_to in K. rewrite I in K. exact K.
Qed.

(** C2, amended, at [{"jsonrpc":"2.0","method":"notifications/initialized"}]. *)
Lemma C2_witness :
  output (on_line (wire "{`jsonrpc`:`2.0`,`method`:`notifications/initialized`}")) started = [].
Proof.
  destruct (@C2_silent_only_for_initialized
    (wire "{`jsonrpc`:`2.0`,`method`:`notifications/initialized`}")
    (VObj [field "jsonrpc" (str "2.0"); field "method" (str "notifications/initialized")])
    started) as (_ & H & _).
  - vm_compute; reflexivity.
  - vm_compute; constructor.
  - vm_compute; reflexivity.
  - apply H. vm_compute; reflexivity.
Defined.

(** C3 (defect of the code): [initialize] sent without [params] is
    well-formed; reading [request.params.protocolVersion] throws while
    the reply is built, and the fault is answered with the parse-error
    code and a null [id], not with an internal error that echoes [id] 6. *)
Theorem C3_dispatch_fault_reported_as_parse_error :
  JSON.parse (wire "{`jsonrpc`:`2.0`,`id`:6,`method`:`initialize`}")
  = Some (VObj [field "jsonrpc" (str "2.0"); field "id" (VNum (Dec 6 0));
                field "method" (str "initialize")])
  /\ fst (dispatch (VObj [field "jsonrpc" (str "2.0"); field "id" (VNum (Dec 6 0));
                          field "method" (str "initialize")]) started)
     = Throw (cannot_read (js "undefined") (js "protocolVersion"))
  /\ output (on_line (wire "{`jsonrpc`:`2.0`,`id`:6,`method`:`initialize`}")) started
     = [wire "{`jsonrpc`:`2.0`,`id`:null,`error`:{`code`:-32700,`message`:`Parse error`}}"].
Proof. repeat split; vm_compute; reflexivity. Qed.

(** C4 (defect of the code): the parse error is also the answer to lines
    that are well-formed JSON: the line [null], and a tool call whose
    [name] is an object that cannot be turned into a property key. *)
Theorem C4_parse_error_for_well_formed_lines :
  JSON.parse (js "null") = Some VNull
  /\ output (on_line (js "null")) started = [encode parse_error]
  /\ JSON.parse (wire "{`jsonrpc`:`2.0`,`id`:11,`method`:`tools/invoke`,`params`:{`name`:{`toString`:1}}}")
     = Some (VObj [field "jsonrpc" (str "2.0"); field "id" (VNum (Dec 11 0));
                   field "method" (str "tools/invoke");
                   field "params" (VObj [field "name" (VObj [field "toString" (VNum (Dec 1 0))])])])
  /\ output
       (on_line (wire "{`jsonrpc`:`2.0`,`id`:11,`method`:`tools/invoke`,`params`:{`name`:{`toString`:1}}}"))
       started
     = [wire "{`jsonrpc`:`2.0`,`id`:null,`error`:{`code`:-32700,`message`:`Parse error`}}"].
Proof. repeat split; vm_compute; reflexivity. Qed.

(** C5, as stated, fails: [notifications/initialized] sent with [id] 7
    gets no response. *)
Lemma C5_counterexample :
  id_of_line (wire "{`jsonrpc`:`2.0`,`id`:7,`method`:`notifications/initialized`}")
  = Some (VNum (Dec 7 0))
  /\ output (on_line (wire "{`jsonrpc`:`2.0`,`id`:7,`method`:`notifications/initialized`}")) started
     = [].
Proof. split; vm_compute; reflexivity. Qed.

(** C5, amended: a request with a non-null [id] gets exactly one
    response line, for every method but [notifications/initialized],
    which under the accepted version tag gets none. The one response
    echoes the [id], or is the parse error, the only response that then
    has a null [id]. (The log is taken to work.) *)
Theorem C5_one_response_per_request (line : jstring) (request : value) (w : world) :
  JSON.parse line = Some request ->
  quiet w ->
  member_of request "id" <> VUndefined ->
  member_of request "id" <> VNull ->
  settles line w = Normal tt
  /\ (initialized_notification request = false ->
      exists r, output (on_line line) w = [encode r]
                /\ (response_id r = member_of request "id" \/ r = parse_error)
                /\ response_id r <> VUndefined
                /\ (response_id r = VNull -> r = parse_error))
  /\ (initialized_notification request = true -> output (on_line line) w = []).
Proof.
  intros P Q U N.
  destruct (@one_response_unless_initialized line request w P Q) as (S & Z & O).
  split; [exact S|]. split; [|exact Z].
  intros I. destruct (O I) as (r & E & [K|K]); exists r; (split; [exact E|]).
  - split; [left; exact K|]. rewrite K. split; [exact U|]. intros C; contradiction.
  - split; [right; exact K|]. subst r. split; [discriminate | reflexivity].
Qed.

(** C5, amended, at an unknown method sent with [id] 3. *)
Lemma C5_witness :
  settles (wire "{`jsonrpc`:`2.0`,`id`:3,`method`:`resources/list`}") started = Normal tt
  /\ exists r,
       output (on_line (wire "{`jsonrpc`:`2.0`,`id`:3,`method`:`resources/list`}")) started
       = [encode r]
       /\ (response_id r = VNum (Dec 3 0) \/ r = parse_error)
       /\ response_id r <> VUndefined
       /\ (response_id r = VNull -> r = parse_error).
Proof.
  destruct (@C5_one_response_per_request
    (wire "{`jsonrpc`:`2.0`,`id`:3,`method`:`resources/list`}")
    (VObj [field "jsonrpc" (str "2.0"); field "id" (VNum (Dec 3 0));
           field "method" (str "resources/list")])
    started) as (S & H & _).
  - vm_compute; reflexivity.
  - vm_compute; constructor.
  - vm_compute; discriminate.
  - vm_compute; discriminate.
  - split; [exact S|]. apply H. vm_compute; reflexivity.
Defined.

(** C6 (defect of the code): [toString] names no registered handler, yet
    [toolHandlers["toString"]] finds the method every object inherits;
    it is called, and its result is sent as a success. *)
Theorem C6_inherited_member_invoked :
  registered (js "toString") = None
  /\ toolHandlers_get (js "toString") = Some (Inherited P_toString)
  /\ output
       (on_line (wire "{`jsonrpc`:`2.0`,`id`:5,`method`:`tools/invoke`,`params`:{`name`:`toString`}}"))
       started
     = [wire "{`jsonrpc`:`2.0`,`id`:5,`result`:`[object Object]`}"].
Proof. repeat split; vm_compute; reflexivity. Qed.










(** C10, as stated, fails: the [ping] request that is answered
    [{"result":"pong"}] when the log works is answered with the parse
    error when the first append to the log fails, and with nothing at
    all, the fault leaving the handler, when the next append fails too. *)
Lemma C10_counterexample :
  output (on_line (wire "{`jsonrpc`:`2.0`,`id`:2,`method`:`tools/invoke`,`params`:{`name`:`ping`}}"))
    (fresh [] offline)
  = [wire "{`jsonrpc`:`2.0`,`id`:2,`result`:{`result`:`pong`}}"]
  /\ output (on_line (wire "{`jsonrpc`:`2.0`,`id`:2,`method`:`tools/invoke`,`params`:{`name`:`ping`}}"))
       (fresh [Some (js "ENOSPC: no space left on device, write")] offline)
     = [wire "{`jsonrpc`:`2.0`,`id`:null,`error`:{`code`:-32700,`message`:`Parse error`}}"]
  /\ on_line (wire "{`jsonrpc`:`2.0`,`id`:2,`method`:`tools/invoke`,`params`:{`name`:`ping`}}")
       (fresh [Some (js "ENOSPC: no space left on device, write");
               Some (js "ENOSPC: no space left on device, write")] offline)
     = (Throw (JsError (js "ENOSPC: no space left on device, write")), fresh [] offline).
Proof. repeat split; vm_compute; reflexivity. Qed.

(** C10, amended: a failure to append to the log is not swallowed; [log]
    lets it propagate. When the append of the "Received request" entry of
    a well-formed request fails, the request is not dispatched: if the
    appends that follow succeed, the one line written is
    [Failure{null, -32700, "Parse error"}]; if the next append fails as
    well, nothing is written and the fault leaves the line handler. *)
Theorem C10_log_fault_propagates (line : jstring) (request : value) (w : world)
  (m : jstring) (later : list (option jstring)) :
  JSON.parse line = Some request ->
  disk w = Some m :: later ->
  (quiet (unlogged w) ->
   settles line w = Normal tt /\ output (on_line line) w = [encode parse_error])
  /\ (forall m' later', later = Some m' :: later' ->
      settles line w = Throw (JsError m') /\ output (on_line line) w = []).
Proof.
  intros P D.
  assert (E : on_line line w
              = (log (js "[aws] [error] Error processing request: " ++ m) ;;
                 sendErrorResponse VNull (-32700) (js "Parse error")) (unlogged w)).
  { rewrite (@on_line_parsed line request w P). unfold try_catch, dispatch.
    unfold bind at 1. rewrite (log_fault _ w D). reflexivity. }
  split.
  - intros Q. unfold bind in E. rewrite (log_quiet _ Q) in E.
    rewrite sendErrorResponse_quiet in E by (apply quiet_logged; exact Q).
    unfold settles. rewrite E. split; [reflexivity|].
    eapply output_wrote; [exact E | reflexivity].
  - intros m' later' L. unfold bind in E.
    rewrite (@log_fault _ (unlogged w) m' later') in E by (cbn [disk unlogged]; rewrite D; exact L).
    unfold settles. rewrite E. split; [reflexivity|].
    eapply output_wrote; [exact E|]. cbn [stdout unlogged]. rewrite app_nil_r. reflexivity.
Qed.

(** C10, amended, at a [ping] request whose first append to the log
    fails for lack of space. *)
Lemma C10_witness :
  output (on_line (wire "{`jsonrpc`:`2.0`,`id`:2,`method`:`tools/invoke`,`params`:{`name`:`ping`}}"))
    (fresh [Some (js "ENOSPC: no space left on device, write")] offline)
  = [encode parse_error].
Proof.
  destruct (@C10_log_fault_propagates
    (wire "{`jsonrpc`:`2.0`,`id`:2,`method`:`tools/invoke`,`params`:{`name`:`ping`}}")
    (VObj [field "jsonrpc" (str "2.0"); field "id" (VNum (Dec 2 0));
           field "method" (str "tools/invoke");
           field "params" (VObj [field "name" (str "ping")])])
    (fresh [Some (js "ENOSPC: no space left on device, write")] offline)
    (js "ENOSPC: no space left on device, write") []) as (H & _).
  - vm_compute; reflexivity.
  - reflexivity.
  - apply H. constructor.
Defined.

(* ------------------------------------------------------------------ *)
(** * Further properties of the engine *)

(** A line that is not well-formed JSON is answered with exactly one
    parse error carrying a null [id], the handler completes, and the
    session goes on with the lines that follow. (The log is taken to
    work.) *)
Theorem malformed_line_parse_error (line : jstring) (rest : list jstring) (w : world) :
  JSON.parse line = None ->
  quiet w ->
  settles line w = Normal tt
  /\ output (on_line line) w = [encode parse_error]
  /\ serve (line :: rest) w = serve rest (after line w).
Proof.
  intros P Q.
  assert (E : on_line line w
              = (Normal tt,
                 wrote (encode parse_error)
                   (logged (js "[aws] [error] Sending error: " ++ encode parse_error)
                      (logged (js "[aws] [error] Error processing request: "
                               ++ message syntax_error) w)))).
  { unfold on_line, try_catch, bind at 1, JSON_parse. rewrite P. cbn [throw].
    unfold bind. rewrite (log_quiet _ Q).
    rewrite sendErrorResponse_quiet by (apply quiet_logged; exact Q). reflexivity. }
  unfold settles, after. cbn [serve]. unfold bind at 1. rewrite E.
  repeat split. eapply output_wrote; [exact E | reflexivity].
Qed.

Lemma malformed_line_witness :
  output (on_line (wire "{`jsonrpc`:`2.0`,`id`:1,")) started
  = [wire "{`jsonrpc`:`2.0`,`id`:null,`error`:{`code`:-32700,`message`:`Parse error`}}"].
Proof.
  destruct (@malformed_line_parse_error (wire "{`jsonrpc`:`2.0`,`id`:1,") [] started)
    as (_ & O & _).
  - vm_compute; reflexivity.
  - vm_compute; constructor.
  - rewrite O. vm_compute; reflexivity.
Defined.

(** A request object whose [jsonrpc] is not the string "2.0" is answered
    with [Failure{id, -32600, "Invalid Request: Not JSON-RPC 2.0"}], the
    [id] echoed, whatever its method. (The log is taken to work.) *)
Theorem wrong_version_invalid_request (line : jstring) (fields : list (jstring * value))
  (w : world) :
  JSON.parse line = Some (VObj fields) ->
  quiet w ->
  member_of (VObj fields) "jsonrpc" <> str "2.0" ->
  output (on_line line) w
  = [encode (Failure (member_of (VObj fields) "id") (-32600)
               (js "Invalid Request: Not JSON-RPC 2.0"))].
Proof.
  intros P Q V.
  assert (F : strict_eq_str (member_of (VObj fields) "jsonrpc") (js "2.0") = false).
  { destruct (strict_eq_str _ _) eqn:E; [|reflexivity].
    apply strict_eq_str_true in E. contradiction. }
  assert (D : dispatch (VObj fields) w
              = sendErrorResponse (member_of (VObj fields) "id") (-32600)
                  (js "Invalid Request: Not JSON-RPC 2.0") (received (VObj fields) w)).
  { unfold dispatch. unfold bind at 1. rewrite (log_quiet _ Q).
    rewrite get_member, F. cbn [negb]. rewrite get_member. reflexivity. }
  rewrite sendErrorResponse_quiet in D by (apply quiet_logged; exact Q).
  eapply output_wrote; [apply (@on_line_completes line _ w _ P D) | reflexivity].
Qed.

Lemma wrong_version_witness :
  output (on_line (wire "{`jsonrpc`:`1.0`,`id`:14,`method`:`tools/list`}")) started
  = [wire "{`jsonrpc`:`2.0`,`id`:14,`error`:{`code`:-32600,`message`:`Invalid Request: Not JSON-RPC 2.0`}}"].
Proof.
  rewrite (@wrong_version_invalid_request
    (wire "{`jsonrpc`:`1.0`,`id`:14,`method`:`tools/list`}")
    [field "jsonrpc" (str "1.0"); field "id" (VNum (Dec 14 0)); field "method" (str "tools/list")]
    started).
  - vm_compute; reflexivity.
  - vm_compute; reflexivity.
  - vm_compute; constructor.
  - vm_compute; discriminate.
Defined.

(** A [tools/invoke] request whose name finds nothing in [toolHandlers]
    is answered with [Failure{id, -32601, "Tool '<name>' not found"}],
    the [id] echoed, and no handler runs: no SDK call is made and the
    ambient region stays. (The log is taken to work.) *)
Theorem unknown_tool_not_found (line : jstring) (request : value) (w : world) :
  JSON.parse line = Some request ->
  quiet w ->
  asks request "tools/invoke" ->
  finds_nothing (tool_name_of request) ->
  output (on_line line) w
  = [encode (Failure (member_of request "id") (-32601)
               (js "Tool '" ++ shown_name (tool_name_of request) ++ js "' not found"))]
  /\ calls (after line w) = calls w
  /\ config_region (after line w) = config_region w.
Proof.
  intros P Q [V Mt] U.
  destruct (versioned_is_object _ V) as [fields ->].
  pose proof (@dispatch_versioned _ w Q V) as D. cbv zeta in D. rewrite Mt in D.
  change (strict_eq_str (str "tools/invoke") (js "initialize")) with false in D.
  change (strict_eq_str (str "tools/invoke") (js "tools/list")) with false in D.
  change (strict_eq_str (str "tools/invoke") (js "tools/invoke")) with true in D.
  cbv iota in D.
  assert (I : invoke (VObj fields) (received (VObj fields) w)
              = sendErrorResponse (member_of (VObj fields) "id") (-32601)
                  (js "Tool '" ++ shown_name (tool_name_of (VObj fields)) ++ js "' not found")
                  (received (VObj fields) w)).
  { unfold invoke. rewrite get_member. fold (tool_name_of (VObj fields)).
    destruct U as [U | (s & U & G)]; rewrite U.
    - reflexivity.
    - unfold bind at 1. destruct (truthy (VStr s)).
      + unfold bind at 1. cbn [lift to_string ret]. rewrite G. reflexivity.
      + reflexivity. }
  unfold received in I. rewrite I in D.
  rewrite sendErrorResponse_quiet in D by (apply quiet_logged; exact Q).
  pose proof (@on_line_completes line _ w _ P D) as E.
  unfold after. rewrite E. repeat split.
  eapply output_wrote; [exact E | reflexivity].
Qed.

Lemma unknown_tool_witness :
  output (on_line (wire "{`jsonrpc`:`2.0`,`id`:3,`method`:`tools/invoke`,`params`:{`name`:`nope`}}"))
    started
  = [wire "{`jsonrpc`:`2.0`,`id`:3,`error`:{`code`:-32601,`message`:`Tool 'nope' not found`}}"].
Proof.
  destruct (@unknown_tool_not_found
    (wire "{`jsonrpc`:`2.0`,`id`:3,`method`:`tools/invoke`,`params`:{`name`:`nope`}}")
    (VObj [field "jsonrpc" (str "2.0"); field "id" (VNum (Dec 3 0));
           field "method" (str "tools/invoke");
           field "params" (VObj [field "name" (str "nope")])])
    started) as (O & _).
  - vm_compute; reflexivity.
  - vm_compute; constructor.
  - split; vm_compute; reflexivity.
  - right. exists (js "nope"). split; vm_compute; reflexivity.
  - rewrite O. vm_compute; reflexivity.
Defined.

(** A request under the accepted version tag whose method is none of the
    known ones (or is no string at all) is answered with
    [Failure{id, -32601, "Method not found"}], the [id] echoed. (The log
    is taken to work.) *)
Theorem unknown_method_not_found (line : jstring) (request : value) (w : world) :
  JSON.parse line = Some request ->
  quiet w ->
  member_of request "jsonrpc" = str "2.0" ->
  (forall m, In m known_methods -> member_of request "method" <> str m) ->
  output (on_line line) w
  = [encode (Failure (member_of request "id") (-32601) (js "Method not found"))].
Proof.
  intros P Q V U.
  assert (F : forall m, In m known_methods ->
                        strict_eq_str (member_of request "method") (js m) = false).
  { intros m I. destruct (strict_eq_str _ _) eqn:E; [|reflexivity].
    apply strict_eq_str_true in E. destruct (U m I E). }
  destruct (versioned_is_object _ V) as [fields ->].
  pose proof (@dispatch_versioned _ w Q V) as D. cbv zeta in D.
  rewrite !F in D by (simpl; tauto).
  rewrite get_member in D.
  rewrite sendErrorResponse_quiet in D by (apply quiet_logged; exact Q).
  eapply output_wrote; [apply (@on_line_completes line _ w _ P D) | reflexivity].
Qed.

Lemma unknown_method_witness :
  output (on_line (wire "{`jsonrpc`:`2.0`,`id`:`a`,`method`:`resources/list`}")) started
  = [wire "{`jsonrpc`:`2.0`,`id`:`a`,`error`:{`code`:-32601,`message`:`Method not found`}}"].
Proof.
  rewrite (@unknown_method_not_found
    (wire "{`jsonrpc`:`2.0`,`id`:`a`,`method`:`resources/list`}")
    (VObj [field "jsonrpc" (str "2.0"); field "id" (str "a"); field "method" (str "resources/list")])
    started).
  - vm_compute; reflexivity.
  - vm_compute; reflexivity.
  - vm_compute; constructor.
  - vm_compute; reflexivity.
  - intros m [<-|[<-|[<-|[<-|[]]]]]; vm_compute; discriminate.
Defined.

(** An [initialize] request that has [params] is answered with the
    handshake: the protocol version the client asked for, the tools
    capability and the server's name and version, under the request's
    [id]. (The log is taken to work.) *)
Theorem initialize_handshake (line : jstring) (request : value) (w : world) :
  JSON.parse line = Some request ->
  quiet w ->
  asks request "initialize" ->
  member_of request "params" <> VUndefined ->
  member_of request "params" <> VNull ->
  output (on_line line) w
  = [encode (Success (member_of request "id")
               (handshake (member_of (member_of request "params") "protocolVersion")))].
Proof.
  intros P Q [V Mt] A B.
  destruct (versioned_is_object _ V) as [fields ->].
  pose proof (@dispatch_versioned _ w Q V) as D. cbv zeta in D. rewrite Mt in D.
  change (strict_eq_str (str "initialize") (js "initialize")) with true in D.
  cbv iota in D. rewrite get_member in D. rewrite get_member in D.
  rewrite (@get_eq (member_of (VObj fields) "params") "protocolVersion"
             (member_of (member_of (VObj fields) "params") "protocolVersion")) in D
    by (apply readable_unless_null; assumption).
  rewrite sendResponse_quiet in D by (apply quiet_logged; exact Q).
  eapply output_wrote; [apply (@on_line_completes line _ w _ P D) | reflexivity].
Qed.

Lemma initialize_witness :
  output (on_line (wire "{`jsonrpc`:`2.0`,`id`:1,`method`:`initialize`,`params`:{`protocolVersion`:`2.0`}}"))
    started
  = [wire "{`jsonrpc`:`2.0`,`id`:1,`result`:{`protocolVersion`:`2.0`,`capabilities`:{`tools`:{}},`serverInfo`:{`name`:`aws-mcp-server`,`version`:`1.0.0`}}}"].
Proof.
  rewrite (@initialize_handshake
    (wire "{`jsonrpc`:`2.0`,`id`:1,`method`:`initialize`,`params`:{`protocolVersion`:`2.0`}}")
    (VObj [field "jsonrpc" (str "2.0"); field "id" (VNum (Dec 1 0));
           field "method" (str "initialize");
           field "params" (VObj [field "protocolVersion" (str "2.0")])])
    started).
  - vm_compute; reflexivity.
  - vm_compute; reflexivity.
  - vm_compute; constructor.
  - split; vm_compute; reflexivity.
  - vm_compute; discriminate.
  - vm_compute; discriminate.
Defined.

(** Start-up with a working log writes exactly one line before any input
    is read, the readiness notification, whether or not the credentials
    could be set up. *)
Theorem startup_ready (credentials : option jstring) (faults : list (option jstring))
  (oracle : list sdk_call -> sdk_call -> sdk_outcome) :
  quiet (fresh faults oracle) ->
  fst (startup credentials (fresh faults oracle)) = Normal tt
  /\ stdout (snd (startup credentials (fresh faults oracle))) = [ready].
Proof.
  intros Q.
  assert (E : exists w', startup credentials (fresh faults oracle) = (Normal tt, wrote ready w')
                         /\ stdout w' = []).
  { unfold startup, bind. rewrite (log_quiet _ Q). destruct credentials as [m|].
    - rewrite log_quiet by (apply quiet_logged; exact Q).
      rewrite log_quiet by (repeat apply quiet_logged; exact Q).
      eexists. split; reflexivity.
    - cbn [config_update]. rewrite log_quiet by (apply quiet_logged; exact Q).
      eexists. split; reflexivity. }
  destruct E as (w' & E & S). rewrite E. cbn [fst snd stdout wrote]. rewrite S.
  split; reflexivity.
Qed.

Lemma startup_witness : stdout started = [ready].
Proof.
  apply (@startup_ready None [] offline). constructor.
Defined.

(** [stdout] only grows along a session; with a working log each line
    adds one response line, or none for [notifications/initialized]: no
    request is dropped or answered twice. *)
Theorem session_responses (lines : list jstring) (w : world) :
  quiet w ->
  fst (serve lines w) = Normal tt
  /\ List.length (output (serve lines) w) = list_sum (map reply_count lines).
Proof.
  intros Q.
  assert (H : exists ls, stdout (snd (serve lines w)) = stdout w ++ ls
                         /\ List.length ls = list_sum (map reply_count lines)).
  { revert w Q. induction lines as [|line rest IH]; intros w Q.
    - exists []. simpl. rewrite app_nil_r. auto.
    - destruct (on_line_answers line Q) as (w1 & rs & E & Q1 & L & _ & S).
      destruct (IH w1 Q1) as (ls & S' & L').
      exists (map encode rs ++ ls). cbn [serve]. unfold bind. rewrite E.
      rewrite S', S, app_assoc. split; [reflexivity|].
      rewrite length_app, length_map, L, L'. reflexivity. }
  split; [apply serve_quiet; exact Q|].
  destruct H as (ls & S & L). unfold output. rewrite S.
  rewrite skipn_app, skipn_all, Nat.sub_diag. simpl. exact L.
Qed.

Lemma session_witness :
  List.length (output
    (serve [wire "{`jsonrpc`:`2.0`,`id`:1,`method`:`initialize`,`params`:{}}";
            wire "{`jsonrpc`:`2.0`,`method`:`notifications/initialized`}";
            wire "{`jsonrpc`:`2.0`,`id`:2,`method`:`tools/invoke`,`params`:{`name`:`ping`}}";
            wire "not json"]) started) = 3.
Proof.
  destruct (@session_responses
    [wire "{`jsonrpc`:`2.0`,`id`:1,`method`:`initialize`,`params`:{}}";
     wire "{`jsonrpc`:`2.0`,`method`:`notifications/initialized`}";
     wire "{`jsonrpc`:`2.0`,`id`:2,`method`:`tools/invoke`,`params`:{`name`:`ping`}}";
     wire "not json"] started) as (_ & L).
  - vm_compute; constructor.
  - rewrite L. vm_compute; reflexivity.
Defined.

(* ------------------------------------------------------------------ *)
(** * The handlers and the SDK *)

Lemma startsWith_app (p x : jstring) : startsWith (p ++ x) p = true.
Proof.
  unfold startsWith. rewrite firstn_app, Nat.sub_diag, firstn_all. simpl.
  rewrite app_nil_r. apply eqb_refl.
Qed.

Lemma handleRegion_run (params : value) (w : world) :
  handleRegion params w = (Normal (effective_region params w), region_world params w).
Proof.
  unfold handleRegion, effective_region, region_world, names_region.
  destruct (truthy params && truthy (prop_opt params (js "region")))%bool; reflexivity.
Qed.

Lemma bind_handleRegion (params : value) (k : value -> M value) (w : world) :
  bind (handleRegion params) k w = k (effective_region params w) (region_world params w).
Proof. unfold bind. rewrite handleRegion_run. reflexivity. Qed.

Lemma region_world_facts (params : value) (w : world) :
  config_region (region_world params w) = region_after params w
  /\ calls (region_world params w) = calls w
  /\ aws (region_world params w) = aws w.
Proof.
  unfold region_world, region_after. destruct (names_region params); repeat split.
Qed.

Lemma unchanged_ret {A : Type} (a : A) : unchanged (ret a).
Proof. intros w; reflexivity. Qed.

Lemma unchanged_throw {A : Type} (e : thrown) : unchanged (@throw A e).
Proof. intros w; reflexivity. Qed.

Lemma unchanged_lift {A : Type} (c : completion A) : unchanged (lift c).
Proof. intros w; reflexivity. Qed.

Lemma unchanged_bind {A B : Type} (c : M A) (k : A -> M B) :
  unchanged c -> (forall a, unchanged (k a)) -> unchanged (bind c k).
Proof.
  intros Hc Hk w. unfold bind. specialize (Hc w).
  destruct (c w) as [[a|e] w1]; simpl in *; subst; [apply Hk | reflexivity].
Qed.

Section GuardedCall.

Variable region : value.

Lemma guarded_throw (e : thrown) : guarded_call region (throw e).
Proof. intros w. left. split; [reflexivity | exists e; reflexivity]. Qed.

Lemma guarded_bind {A : Type} (c : M A) (k : A -> M value) :
  unchanged c -> (forall a, guarded_call region (k a)) -> guarded_call region (bind c k).
Proof.
  intros Hc Hk w. unfold bind. specialize (Hc w).
  destruct (c w) as [[a|e] w1]; simpl in Hc; subst w1.
  - apply Hk.
  - left. split; [reflexivity | exists e; reflexivity].
Qed.

Lemma guarded_sdk_invoke (req : sdk_request) (post : value -> M value) :
  (forall data, unchanged (post data)) ->
  guarded_call region (bind (sdk_invoke region req) post).
Proof.
  intros Hp w. right. exists req. unfold bind, sdk_invoke. fold (the_call region req).
  destruct (aws w (calls w) (the_call region req)) as [data|m] eqn:E.
  - specialize (Hp data (called (the_call region req) w)).
    destruct (post data (called (the_call region req) w)) as [o w1]; simpl in *.
    split; [exact Hp | intros m; discriminate].
  - simpl. split; [reflexivity|]. intros m' R. inversion R; reflexivity.
Qed.

Lemma reported_throw (service : jstring) (e : thrown) :
  reported_call region service (throw e).
Proof. intros w. left. split; [reflexivity | exists e; reflexivity]. Qed.

Lemma reported_bind {A : Type} (service : jstring) (c : M A) (k : A -> M value) :
  unchanged c -> (forall a, reported_call region service (k a)) ->
  reported_call region service (bind c k).
Proof.
  intros Hc Hk w. unfold bind. specialize (Hc w).
  destruct (c w) as [[a|e] w1]; simpl in Hc; subst w1.
  - apply Hk.
  - left. split; [reflexivity | exists e; reflexivity].
Qed.

Lemma reported_rethrow_as (service : string) (body : M value) :
  guarded_call region body -> reported_call region (js service) (rethrow_as service body).
Proof.
  intros H w. unfold rethrow_as, try_catch, throw. destruct (H w) as [[S (e & T)] | (req & S & R)].
  - left. destruct (body w) as [o w1]; simpl in *; subst.
    split; [reflexivity | eexists; reflexivity].
  - right. exists req. destruct (body w) as [[v|e] w1]; cbn [fst snd] in *; subst.
    + split; [reflexivity|]. split; [|intros e; discriminate].
      intros m E. specialize (R m E). discriminate.
    + split; [reflexivity|]. split.
      * intros m E. specialize (R m E). inversion R; reflexivity.
      * intros e' T.
        assert (E : e' = JsError (js service ++ js " Error: " ++ message e)) by congruence.
        rewrite E. cbn [message]. rewrite app_assoc. apply startsWith_app.
Qed.

End GuardedCall.

Lemma unchanged_new_client (region : value) : unchanged (new_client region).
Proof.
  unfold new_client. destruct (truthy region); [|apply unchanged_ret].
  destruct region; first [apply unchanged_ret | apply unchanged_throw].
Qed.

Lemma new_client_string (region : jstring) (w : world) :
  new_client (VStr region) w = (Normal tt, w).
Proof. destruct region; reflexivity. Qed.

Lemma new_client_cases (region : value) (w : world) :
  new_client region w = (Normal tt, w) \/ exists e, new_client region w = (Throw e, w).
Proof.
  unfold new_client. destruct (truthy region); [|left; reflexivity].
  destruct region; first [left; reflexivity | right; eexists; reflexivity].
Qed.

Ltac settle_unchanged :=
  repeat first
    [ apply unchanged_ret | apply unchanged_throw | apply unchanged_lift
    | apply unchanged_bind; [| intros ?] ].

(** Past [handleRegion], every handler but [ping] throws before any call
    or makes one call in the region it works in, and reports what goes
    wrong from then on under the name of its service. *)
Lemma handler_reported (h : handler_name) (params : value) (w : world) :
  h <> Ping ->
  reported_step (effective_region params w) (js (service_of h))
    (region_world params w) (run_handler h params w).
Proof.
  intros NP. destruct h; [contradiction| | | | | |]; cbn [run_handler service_of];
    rewrite bind_handleRegion;
    generalize (effective_region params w) (region_world params w);
    clear w; intros region w;
    (apply reported_bind; [apply unchanged_new_client|]; intros _).
  - apply reported_rethrow_as.
    apply guarded_bind; [apply unchanged_lift|]. intros filters.
    apply guarded_sdk_invoke. intros data. unfold get. settle_unchanged.
  - apply reported_rethrow_as.
    apply guarded_sdk_invoke. intros data. unfold get. settle_unchanged.
  - apply reported_bind; [apply unchanged_lift|]. intros bucket.
    destruct (negb (truthy bucket)); [apply reported_throw|].
    apply reported_rethrow_as.
    apply guarded_bind; [apply unchanged_lift|]. intros prefix.
    apply guarded_sdk_invoke. intros data. unfold get. settle_unchanged.
  - apply reported_rethrow_as.
    apply guarded_sdk_invoke. intros data. unfold get. settle_unchanged.
  - apply reported_rethrow_as.
    apply guarded_sdk_invoke. intros data. unfold get. settle_unchanged.
  - apply reported_bind; [apply unchanged_lift|]. intros namespace.
    destruct (negb (truthy namespace)); [apply reported_throw|].
    apply reported_bind; [apply unchanged_lift|]. intros metricName.
    destruct (negb (truthy metricName)); [apply reported_throw|].
    apply reported_rethrow_as.
    apply guarded_bind; [apply unchanged_lift|]. intros start.
    apply guarded_bind.
    { destruct (truthy start); [|apply unchanged_ret].
      destruct start; try apply unchanged_throw.
      destruct (startsWith s (js "-")); [apply unchanged_ret | apply unchanged_lift]. }
    intros startTime.
    apply guarded_bind; [apply unchanged_lift|]. intros finish.
    apply guarded_bind.
    { destruct (truthy finish); [apply unchanged_lift | apply unchanged_ret]. }
    intros endTime.
    apply guarded_bind; [apply unchanged_lift|]. intros dimensions.
    apply guarded_bind; [apply unchanged_lift|]. intros period.
    apply guarded_bind; [apply unchanged_lift|]. intros statistics.
    apply guarded_sdk_invoke. intros data. unfold get. settle_unchanged.
Qed.

Lemma region_named (params : value) (w : world) :
  names_region params = true ->
  effective_region params w = prop_opt params (js "region")
  /\ region_after params w = prop_opt params (js "region")
  /\ truthy (prop_opt params (js "region")) = true.
Proof.
  unfold effective_region, region_after. intros N. rewrite N.
  unfold names_region in N. apply andb_prop in N. tauto.
Qed.

Lemma region_unnamed (params : value) (w : world) :
  names_region params = false ->
  effective_region params w = or_else (config_region w) (str "us-west-2")
  /\ region_after params w = config_region w.
Proof.
  unfold effective_region, region_after. intros N. rewrite N. tauto.
Qed.

(** What a handler but [ping] leaves of the world: the ambient region is
    the one [handleRegion] left, the record of calls is as it was or one
    call longer, the SDK is the same. *)
Lemma handler_world (h : handler_name) (params : value) (w : world) :
  h <> Ping ->
  config_region (snd (run_handler h params w)) = region_after params w
  /\ aws (snd (run_handler h params w)) = aws w
  /\ (calls (snd (run_handler h params w)) = calls w
      \/ exists req, calls (snd (run_handler h params w))
                     = calls w ++ [the_call (effective_region params w) req]).
Proof.
  intros NP. destruct (region_world_facts params w) as (R & C & A).
  destruct (@handler_reported h params w NP) as [[S _] | (req & S & _)]; rewrite S.
  - repeat split; try assumption. left; assumption.
  - cbn [called config_region aws calls]. repeat split; try assumption.
    right. exists req. rewrite C. reflexivity.
Qed.

(** The world the line handler leaves for a request that invokes a
    registered handler differs from the one the handler left only by log
    entries and the response line. *)
Lemma on_line_invokes_world (line : jstring) (request : value) (h : handler_name) (w : world) :
  JSON.parse line = Some request -> quiet w -> invokes request h ->
  let w1 := snd (run_handler h (parameters_of request) (received request w)) in
  quiet (after line w)
  /\ config_region (after line w) = config_region w1
  /\ calls (after line w) = calls w1
  /\ aws (after line w) = aws w1.
Proof.
  intros P Q [[V Mt] Hname].
  destruct (versioned_is_object _ V) as [fields ->].
  assert (Q1 : quiet (received (VObj fields) w)) by (apply quiet_logged; exact Q).
  pose proof (@dispatch_versioned _ w Q V) as D. cbv zeta in D. rewrite Mt in D.
  change (strict_eq_str (str "tools/invoke") (js "initialize")) with false in D.
  change (strict_eq_str (str "tools/invoke") (js "tools/list")) with false in D.
  change (strict_eq_str (str "tools/invoke") (js "tools/invoke")) with true in D.
  cbv iota in D. fold (received (VObj fields) w) in D.
  rewrite (@invoke_registered fields h _ Q1 Hname) in D.
  destruct (@run_handler_quiet h (parameters_of (VObj fields)) _ Q1) as [Q2 _].
  cbv zeta. unfold after. rewrite (@on_line_completes line _ w _ P D). cbn [snd].
  destruct (run_handler h (parameters_of (VObj fields)) (received (VObj fields) w))
    as [[v|e] w1]; cbn [snd] in *; repeat split;
    repeat first [apply quiet_wrote | apply quiet_logged]; exact Q2.
Qed.

(* ------------------------------------------------------------------ *)
(** * Further properties of the handlers *)

(** Every handler but [ping] makes at most one call to the SDK, on a
    client of the region [handleRegion] answered. Either it throws with
    the record of calls as it was, or the record is one call longer; in
    that case a rejection of the call with message [m] is thrown as
    [<Service> Error: m], and whatever is thrown carries that prefix. A
    payload is returned only after a call. *)
Theorem handler_single_call (h : handler_name) (params : value) (w : world) :
  h <> Ping ->
  let region := effective_region params w in
  let outcome := fst (run_handler h params w) in
  let w' := snd (run_handler h params w) in
  (calls w' = calls w /\ exists e, outcome = Throw e)
  \/ exists req,
       calls w' = calls w ++ [the_call region req]
       /\ (forall m, aws w (calls w) (the_call region req) = Rejected m ->
                     outcome = Throw (service_error h m))
       /\ (forall e, outcome = Throw e ->
                     startsWith (message e) (js (service_of h) ++ js " Error: ") = true).
Proof.
  intros NP. cbv zeta. destruct (region_world_facts params w) as (_ & C & A).
  destruct (@handler_reported h params w NP) as [[S T] | (req & S & R & F)].
  - left. rewrite S. split; assumption.
  - right. exists req. rewrite S. cbn [called calls]. rewrite C. split; [reflexivity|].
    rewrite C, A in R. split; assumption.
Qed.

(** At [aws.s3.listBuckets] with the region [eu-west-1] and an SDK
    that is offline. *)
Lemma handler_single_call_witness :
  fst (run_handler S3ListBuckets (VObj [field "region" (str "eu-west-1")]) started)
  = Throw (JsError (js "S3 Error: offline")).
Proof.
  pose proof (@handler_single_call S3ListBuckets
                (VObj [field "region" (str "eu-west-1")]) started) as H.
  destruct H as [[C _] | (req & _ & R & _)].
  - discriminate.
  - vm_compute in C. discriminate.
  - rewrite (R (js "offline")); reflexivity.
Defined.

(** A region named by one invocation stays for the next. When a
    request invokes a handler but [ping] with a truthy [region]
    parameter and the following request invokes one without, the second
    handler works in the region of the first, whether or not the first
    succeeded: the ambient region afterwards is that region, and the
    call the second makes, if any, goes to a client of that region. *)
Theorem region_persists (l1 l2 : jstring) (q1 q2 : value) (h1 h2 : handler_name) (w : world) :
  JSON.parse l1 = Some q1 -> JSON.parse l2 = Some q2 -> quiet w ->
  invokes q1 h1 -> invokes q2 h2 -> h1 <> Ping -> h2 <> Ping ->
  names_region (parameters_of q1) = true ->
  names_region (parameters_of q2) = false ->
  let region := prop_opt (parameters_of q1) (js "region") in
  let w1 := after l1 w in
  let w2 := after l2 w1 in
  config_region w1 = region
  /\ config_region w2 = region
  /\ (calls w2 = calls w1 \/ exists req, calls w2 = calls w1 ++ [the_call region req]).
Proof.
  intros P1 P2 Q I1 I2 N1 N2 R1 R2. cbv zeta.
  destruct (@on_line_invokes_world l1 q1 h1 w P1 Q I1) as (Q1 & G1 & C1 & _).
  destruct (@on_line_invokes_world l2 q2 h2 (after l1 w) P2 Q1 I2) as (_ & G2 & C2 & _).
  destruct (@handler_world h1 (parameters_of q1) (received q1 w) N1) as (A1 & _ & _).
  destruct (@handler_world h2 (parameters_of q2) (received q2 (after l1 w)) N2)
    as (A2 & _ & K2).
  destruct (@region_named (parameters_of q1) (received q1 w) R1) as (_ & E1 & T1).
  destruct (@region_unnamed (parameters_of q2) (received q2 (after l1 w)) R2) as (E2 & E3).
  assert (S1 : config_region (after l1 w) = prop_opt (parameters_of q1) (js "region"))
    by (rewrite G1, A1, E1; reflexivity).
  assert (S2 : config_region (received q2 (after l1 w))
               = prop_opt (parameters_of q1) (js "region")) by exact S1.
  split; [exact S1|]. split.
  - rewrite G2, A2, E3. exact S2.
  - rewrite C2. rewrite E2, S2 in K2. unfold or_else in K2. rewrite T1 in K2.
    exact K2.
Qed.

(** At a listing of buckets in [eu-west-1] followed by a listing of
    functions that names no region. *)
Lemma region_persists_witness :
  config_region
    (after (wire "{`jsonrpc`:`2.0`,`id`:2,`method`:`tools/invoke`,`params`:{`name`:`aws.lambda.listFunctions`}}")
       (after (wire "{`jsonrpc`:`2.0`,`id`:1,`method`:`tools/invoke`,`params`:{`name`:`aws.s3.listBuckets`,`parameters`:{`region`:`eu-west-1`}}}")
          started))
  = str "eu-west-1".
Proof.
  pose proof (@region_persists
    (wire "{`jsonrpc`:`2.0`,`id`:1,`method`:`tools/invoke`,`params`:{`name`:`aws.s3.listBuckets`,`parameters`:{`region`:`eu-west-1`}}}")
    (wire "{`jsonrpc`:`2.0`,`id`:2,`method`:`tools/invoke`,`params`:{`name`:`aws.lambda.listFunctions`}}")
    (VObj [field "jsonrpc" (str "2.0"); field "id" (VNum (Dec 1 0));
           field "method" (str "tools/invoke");
           field "params" (VObj [field "name" (str "aws.s3.listBuckets");
                                 field "parameters" (VObj [field "region" (str "eu-west-1")])])])
    (VObj [field "jsonrpc" (str "2.0"); field "id" (VNum (Dec 2 0));
           field "method" (str "tools/invoke");
           field "params" (VObj [field "name" (str "aws.lambda.listFunctions")])])
    S3ListBuckets LambdaListFunctions started) as H.
  destruct H as (_ & H & _).
  - vm_compute; reflexivity.
  - vm_compute; reflexivity.
  - vm_compute; constructor.
  - split; [split|]; vm_compute; reflexivity.
  - split; [split|]; vm_compute; reflexivity.
  - discriminate.
  - discriminate.
  - vm_compute; reflexivity.
  - vm_compute; reflexivity.
  - rewrite H. vm_compute; reflexivity.
Defined.

Lemma prop_truthy (v : value) (k : jstring) :
  truthy v = true -> prop v k = Normal (prop_opt v k).
Proof. destruct v; simpl; intros H; try discriminate; reflexivity. Qed.

Lemma instance_count_from (items : list value) (count : Z) :
  Forall (fun r => has_instances r = true) items ->
  fold_left
    (fun acc reservation =>
       bind_c acc (fun count =>
       bind_c (prop reservation (js "Instances")) (fun instances =>
       bind_c (length_of instances) (fun n => plus count n))))
    items (Normal (VNum (of_Z count)))
  = Normal (VNum (of_Z (count + Z.of_nat (List.length (flat_map instances_of items))))).
Proof.
  intros H. revert count. induction H as [|r items Hr _ IH]; intros count.
  - simpl. rewrite Z.add_0_r. reflexivity.
  - cbn [fold_left flat_map]. unfold has_instances in Hr. unfold instances_of at 1.
    destruct r as [| | | | | | fields |]; try discriminate Hr.
    cbn [prop prop_opt bind_c] in *.
    destruct (assoc (js "Instances") fields) as [[| | | | |xs| |]|]; try discriminate Hr.
    cbn [length_of bind_c plus to_primitive to_number add of_Z elements].
    change (Dec (count + Z.of_nat (List.length xs)) 0)
      with (of_Z (count + Z.of_nat (List.length xs))).
    rewrite IH, length_app, Nat2Z.inj_add, Z.add_assoc. reflexivity.
Qed.

(** The [reduce] over well-shaped reservations counts their instances. *)
Lemma instance_count_total (items : list value) :
  Forall (fun r => has_instances r = true) items ->
  instance_count (VArr items)
  = Normal (VNum (of_Z (Z.of_nat (List.length (flat_map instances_of items))))).
Proof.
  intros H. unfold instance_count. rewrite (@instance_count_from items 0 H). reflexivity.
Qed.

(** When the parameters are an object or a primitive other than [null]
    and [undefined], the region the handler works in is a string and
    the SDK resolves [describeInstances] with reservations that each
    hold an array of instances, [aws.ec2.describeInstances] returns the
    region, the reservations as delivered and, as [instanceCount], the
    number of instances over all of them. *)
Theorem ec2_instance_count (params data : value) (region : jstring)
    (items : list value) (w : world) :
  params <> VNull -> params <> VUndefined ->
  effective_region params w = VStr region ->
  aws w (calls w) (the_call (VStr region) (describe_request params)) = Resolved data ->
  prop_opt data (js "Reservations") = VArr items ->
  Forall (fun r => has_instances r = true) items ->
  fst (run_handler Ec2DescribeInstances params w)
  = Normal (VObj [field "result" (VObj
      [field "region" (VStr region);
       field "reservations" (VArr items);
       field "instanceCount"
         (VNum (of_Z (Z.of_nat (List.length (flat_map instances_of items)))))])]).
Proof.
  intros N U G A R H. cbn [run_handler]. rewrite bind_handleRegion, G.
  destruct (region_world_facts params w) as (_ & C & S).
  unfold bind at 1. rewrite new_client_string.
  unfold rethrow_as, try_catch, get. unfold bind at 1. cbn [lift].
  rewrite (@readable_unless_null params N U "filters"%string).
  unfold bind at 1, sdk_invoke.
  unfold the_call, describe_request, member_of in *. rewrite C, S, A.
  assert (D : truthy data = true) by (destruct data; try discriminate R; reflexivity).
  unfold bind at 1. cbn [lift]. rewrite (@prop_truthy _ _ D), R.
  unfold bind at 1. cbn [lift]. rewrite (instance_count_total H). reflexivity.
Qed.

(** At two reservations of two and one instances. *)
Lemma ec2_instance_count_witness :
  fst (run_handler Ec2DescribeInstances (VObj [])
         (fresh [] (fun _ _ => Resolved (VObj [field "Reservations" (VArr
            [VObj [field "Instances" (VArr [str "i-1"; str "i-2"])];
             VObj [field "Instances" (VArr [str "i-3"])]])]))))
  = Normal (VObj [field "result" (VObj
      [field "region" (str "us-west-2");
       field "reservations" (VArr
            [VObj [field "Instances" (VArr [str "i-1"; str "i-2"])];
             VObj [field "Instances" (VArr [str "i-3"])]]);
       field "instanceCount" (VNum (of_Z 3))])]).
Proof.
  pose proof (@ec2_instance_count (VObj [])
    (VObj [field "Reservations" (VArr
            [VObj [field "Instances" (VArr [str "i-1"; str "i-2"])];
             VObj [field "Instances" (VArr [str "i-3"])]])])
    (js "us-west-2")
    [VObj [field "Instances" (VArr [str "i-1"; str "i-2"])];
     VObj [field "Instances" (VArr [str "i-3"])]]
    (fresh [] (fun _ _ => Resolved (VObj [field "Reservations" (VArr
            [VObj [field "Instances" (VArr [str "i-1"; str "i-2"])];
             VObj [field "Instances" (VArr [str "i-3"])]])])))) as H.
  rewrite H.
  - reflexivity.
  - discriminate.
  - discriminate.
  - reflexivity.
  - reflexivity.
  - reflexivity.
  - repeat constructor.
Defined.

Lemma required_for_complete (t : tool) (key : jstring) (r : value) :
  In t tools -> name t = key -> In r (required_names t) -> In r (required_for key).
Proof.
  intros T N R. unfold required_for. apply in_flat_map. exists t. split; [exact T|].
  rewrite N, eqb_refl. exact R.
Qed.

(** Past [handleRegion], the client is built; then a step reads a
    parameter and throws unless it is truthy. *)
Lemma guard_throws (params region : value) (k : string) (m : jstring)
    (rest : value -> M value) (w : world) :
  truthy (prop_opt params (js k)) = false ->
  let c := (new_client region ;;
            x <- get params k ;;
            if negb (truthy x) then throw (JsError m) else rest x) in
  calls (snd (c (region_world params w))) = calls w
  /\ exists e, fst (c (region_world params w)) = Throw e.
Proof.
  intros F. cbv zeta.
  destruct (region_world_facts params w) as (_ & C & _).
  match goal with
  | |- calls (snd ?r) = _ /\ _ =>
      assert (X : exists e, r = (Throw e, region_world params w))
  end.
  { unfold bind at 1.
    destruct (new_client_cases region (region_world params w)) as [E | [e E]]; rewrite E;
      [|eexists; reflexivity].
    unfold get, bind, lift.
    destruct params; cbn [prop prop_opt] in *;
      try (rewrite F); cbn [negb throw]; eexists; reflexivity. }
  destruct X as [e ->]. split; [exact C | exists e; reflexivity].
Qed.

(** A required parameter is enforced before AWS is reached. For
    every registered handler and every parameter that the catalog entry
    of its name declares required, an invocation whose parameters hold
    no truthy value for it throws, and no call is made. *)
Theorem required_enforced (h : handler_name) (t : tool) (k : jstring)
    (params : value) (w : world) :
  In t tools -> name t = handler_key h -> In (VStr k) (required_names t) ->
  truthy (prop_opt params k) = false ->
  calls (snd (run_handler h params w)) = calls w
  /\ exists e, fst (run_handler h params w) = Throw e.
Proof.
  intros T N R F. pose proof (@required_for_complete t _ _ T N R) as H. clear T N R.
  destruct h; vm_compute in H; try contradiction.
  - destruct H as [H|[]]. injection H as <-.
    cbn [run_handler]. rewrite bind_handleRegion.
    apply (@guard_throws params _ "bucket"). exact F.
  - destruct H as [H|[H|[]]]; injection H as <-.
    + cbn [run_handler]. rewrite bind_handleRegion.
      apply (@guard_throws params _ "namespace"). exact F.
    + cbn [run_handler]. rewrite bind_handleRegion.
      destruct (region_world_facts params w) as (_ & C & _).
      assert (F' : truthy (prop_opt params (js "metricName")) = false) by exact F.
      match goal with
      | |- calls (snd ?r) = _ /\ _ =>
          assert (X : exists e, r = (Throw e, region_world params w))
      end.
      { unfold bind at 1.
        destruct (new_client_cases (effective_region params w) (region_world params w))
          as [E | [e E]]; rewrite E; [|eexists; reflexivity].
        unfold get. unfold bind at 1. unfold lift at 1.
        destruct (prop params (js "namespace")) as [namespace|e] eqn:En;
          [|eexists; reflexivity].
        destruct (negb (truthy namespace)); [eexists; reflexivity|].
        unfold bind at 1. unfold lift at 1.
        assert (P : prop params (js "metricName")
                    = Normal (prop_opt params (js "metricName"))).
        { destruct params; try discriminate En; reflexivity. }
        rewrite P, F'. cbn [negb]. eexists; reflexivity. }
      destruct X as [e ->]. split; [exact C | exists e; reflexivity].
Qed.

(** At [aws.s3.listObjects], whose catalog entry requires [bucket],
    invoked with a prefix only. *)
Lemma required_enforced_witness :
  calls (snd (run_handler S3ListObjects (VObj [field "prefix" (str "logs/")]) started)) = []
  /\ exists e, fst (run_handler S3ListObjects (VObj [field "prefix" (str "logs/")]) started)
               = Throw e.
Proof.
  apply (@required_enforced S3ListObjects
           (nth 4 tools {| name := []; description := []; parameters := VNull |})
           (js "bucket") (VObj [field "prefix" (str "logs/")]) started).
  - vm_compute. tauto.
  - reflexivity.
  - vm_compute. tauto.
  - reflexivity.
Defined.

(* ------------------------------------------------------------------ *)
(** * Relative times *)

Lemma take_digits_app (ds rest : jstring) :
  forallb JSON.is_digit ds = true ->
  match rest with [] => true | c :: _ => negb (JSON.is_digit c) end = true ->
  JSON.take_digits (ds ++ rest) = (ds, rest).
Proof.
  intros D R. induction ds as [|d ds IH].
  - destruct rest as [|c r]; [reflexivity|]. simpl.
    apply negb_true_iff in R. rewrite R. reflexivity.
  - simpl in D. apply andb_prop in D. destruct D as [D1 D2].
    simpl. rewrite D1, (IH D2). reflexivity.
Qed.

Lemma ends_amount_no_digit (s : jstring) :
  ends_amount s = true ->
  match s with [] => true | c :: _ => negb (JSON.is_digit c) end = true.
Proof.
  destruct s as [|c r]; [reflexivity|]. simpl. intros H.
  apply andb_prop in H. tauto.
Qed.

Lemma digit_cases (c : N) :
  JSON.is_digit c = true ->
  (c = 48 \/ c = 49 \/ c = 50 \/ c = 51 \/ c = 52 \/ c = 53 \/ c = 54 \/ c = 55
   \/ c = 56 \/ c = 57)%N.
Proof.
  unfold JSON.is_digit. intros H. apply andb_prop in H. destruct H as [A B].
  apply N.leb_le in A, B. lia.
Qed.

Lemma trim_start_keeps (c : N) (r : jstring) :
  is_str_white_space c = false -> trim_start (c :: r) = c :: r.
Proof. intros H. simpl. rewrite H. reflexivity. Qed.

(** [parseInt] reads the digits a string starts with. *)
Lemma parseInt_digits (ds rest : jstring) :
  ds <> [] -> forallb JSON.is_digit ds = true -> ends_amount rest = true ->
  parseInt (ds ++ rest) = Some (JSON.digits_value ds).
Proof.
  intros NE D R. destruct ds as [|d ds]; [contradiction|].
  pose proof (@take_digits_app (d :: ds) rest D (ends_amount_no_digit _ R)) as T.
  simpl in D. apply andb_prop in D. destruct D as [D1 D2].
  unfold parseInt. cbn [app] in *.
  destruct (digit_cases _ D1) as [E|[E|[E|[E|[E|[E|[E|[E|[E|E]]]]]]]]]; subst d;
    rewrite trim_start_keeps by reflexivity; cbv beta iota;
    try (rewrite T; reflexivity).
  destruct ds as [|x ds].
  - destruct rest as [|x r].
    + reflexivity.
    + cbn [app] in *. simpl in R. apply andb_prop in R. destruct R as [_ R].
      apply negb_true_iff in R. rewrite R, T. reflexivity.
  - cbn [app] in *. simpl in D2. apply andb_prop in D2. destruct D2 as [Dx _].
    assert (X : (N.eqb x 120 || N.eqb x 88)%bool = false).
    { destruct (digit_cases _ Dx) as [E|[E|[E|[E|[E|[E|[E|[E|[E|E]]]]]]]]]; subst x;
        reflexivity. }
    rewrite X, T. reflexivity.
Qed.

Lemma binary64_exact (z : Z) : (Z.abs z <= 2 ^ 53)%Z -> binary64 z = Some z.
Proof.
  intros H. unfold binary64. apply Z.leb_le in H. rewrite H. reflexivity.
Qed.

Lemma binary64_beyond (z : Z) : (2 ^ 53 <= Z.abs z)%Z -> beyond (binary64 z).
Proof.
  intros H. unfold binary64.
  destruct (Z.abs z <=? 2 ^ 53)%Z eqn:L; [exact H|].
  apply Z.leb_gt in L. cbv zeta.
  set (a := Z.abs z) in *. set (ulp := (2 ^ (Z.log2 a - 52))%Z).
  assert (A0 : (0 < a)%Z) by (assert (0 < 2 ^ 53)%Z by reflexivity; lia).
  assert (L53 : (53 <= Z.log2 a)%Z).
  { change 53%Z with (Z.log2 (2 ^ 53)). apply Z.log2_le_mono. lia. }
  assert (U2 : (2 <= ulp)%Z).
  { unfold ulp. change 2%Z with (2 ^ 1)%Z at 1. apply Z.pow_le_mono_r; lia. }
  assert (Q : (2 ^ 52 <= a / ulp)%Z).
  { apply Z.div_le_lower_bound; [lia|].
    unfold ulp. rewrite <- Z.pow_add_r by lia.
    replace (Z.log2 a - 52 + 52)%Z with (Z.log2 a) by lia.
    apply Z.log2_spec. exact A0. }
  set (q := (a / ulp)%Z) in *.
  match goal with
  | |- beyond (if (_ <=? ?r * _)%Z then _ else _) =>
      assert (Q' : (q <= r)%Z) by
        (destruct (2 * (a mod ulp) <? ulp)%Z; [lia|];
         destruct (ulp <? 2 * (a mod ulp))%Z; [lia|];
         destruct (Z.even q); lia);
      set (q' := r) in *
  end.
  destruct (2 ^ 1024 <=? q' * ulp)%Z; [exact I|].
  cbn [beyond]. rewrite Z.abs_mul.
  assert (S : Z.abs (Z.sgn z) = 1%Z) by (fold a in A0; lia).
  rewrite S, Z.mul_1_l, Z.abs_eq by nia.
  assert (2 ^ 53 = 2 ^ 52 * 2)%Z by reflexivity. nia.
Qed.

Lemma times_beyond (x : option Z) (k : Z) : (1 <= k)%Z -> beyond x -> beyond (times x k).
Proof.
  intros K B. destruct x as [y|]; [|exact I]. cbn [times beyond] in *.
  apply binary64_beyond. rewrite Z.abs_mul. assert (0 < 2 ^ 53)%Z by reflexivity. nia.
Qed.

Lemma tracks_binary64 (v : Z) : (0 <= v)%Z -> tracks v (binary64 v).
Proof.
  intros V. destruct (Z.le_gt_cases v (2 ^ 53)) as [L|G].
  - left. split; [exact L|]. apply binary64_exact. lia.
  - right. split; [exact G|]. apply binary64_beyond. lia.
Qed.

Lemma tracks_times (p : Z) (x : option Z) (k : Z) :
  (0 <= p)%Z -> (1 <= k)%Z -> tracks p x -> tracks (p * k) (times x k).
Proof.
  intros P K [[L ->] | [G B]].
  - cbn [times]. apply tracks_binary64. nia.
  - right. split; [nia|]. apply times_beyond; assumption.
Qed.

Lemma tracks_fold (ks : list Z) (p : Z) (x : option Z) :
  Forall (fun k => (1 <= k)%Z) ks -> (0 <= p)%Z -> tracks p x ->
  tracks (fold_left Z.mul ks p) (fold_left times ks x).
Proof.
  intros K. revert p x. induction K as [|k ks Hk _ IH]; intros p x P T; [exact T|].
  cbn [fold_left]. apply IH; [nia|]. apply tracks_times; assumption.
Qed.

Lemma digits_value_from (ds : list N) (acc : Z) :
  (0 <= acc)%Z -> (0 <= fold_left (fun a c => (a * 10 + Z.of_N (c - 48))%Z) ds acc)%Z.
Proof.
  revert acc. induction ds as [|d ds IH]; intros acc A; [exact A|].
  cbn [fold_left]. apply IH. lia.
Qed.

Lemma digits_value_nonneg (ds : list N) : (0 <= JSON.digits_value ds)%Z.
Proof. apply digits_value_from. lia. Qed.

Lemma unit_ms_factors (unit : N) :
  unit_ms unit = option_map (fun ks => fold_left Z.mul ks 1%Z) (unit_factors unit)
  /\ match unit_factors unit with
     | Some ks => Forall (fun k => (1 <= k)%Z) ks
     | None => True
     end.
Proof.
  unfold unit_ms, unit_factors.
  destruct (N.eqb unit 104); [split; [reflexivity | repeat constructor; lia]|].
  destruct (N.eqb unit 100); [split; [reflexivity | repeat constructor; lia]|].
  destruct (N.eqb unit 109); [split; [reflexivity | repeat constructor; lia]|].
  split; [reflexivity | exact I].
Qed.

(** [parseRelativeTime] of a minus sign, a body and a unit: the Number
    [parseInt] reads in the body, times the factors of the unit. *)
Lemma parseRelativeTime_unit (body : jstring) (unit : N) :
  parseRelativeTime (45%N :: body ++ [unit])
  = match unit_factors unit with
    | Some ks =>
        NowMinus (fold_left times ks
                    match parseInt body with Some v => binary64 v | None => None end)
    | None => NullDate
    end.
Proof.
  unfold parseRelativeTime.
  change (truthy (VStr (45%N :: body ++ [unit]))) with true.
  change (startsWith (45%N :: body ++ [unit]) (js "-")) with true.
  cbn [negb orb].
  assert (L : last (45%N :: body ++ [unit]) 0%N = unit).
  { rewrite app_comm_cons. apply last_last. }
  assert (S : slice_1_m1 (45%N :: body ++ [unit]) = body).
  { unfold slice_1_m1. cbn [tl]. apply removelast_last. }
  rewrite L, S. unfold unit_factors.
  destruct (N.eqb unit 104); [reflexivity|].
  destruct (N.eqb unit 100); [reflexivity|].
  destruct (N.eqb unit 109); reflexivity.
Qed.

Lemma fold_mul_from (ks : list Z) (p : Z) :
  fold_left Z.mul ks p = (p * fold_left Z.mul ks 1)%Z.
Proof.
  revert p. induction ks as [|k ks IH]; intros p; cbn [fold_left]; [lia|].
  rewrite IH, (IH (1 * k)%Z). lia.
Qed.

(** The time a relative start denotes, for an amount the products track. *)
Lemma time_before_tracked (amount now : Z) (x : option Z) :
  (0 <= amount)%Z -> tracks amount x ->
  (0 <= now < 2 ^ 53 - 8640000000000000)%Z ->
  time_before now x
  = if (amount <=? now + 8640000000000000)%Z then Some (now - amount)%Z else None.
Proof.
  intros A T [N0 N1]. assert (P : (2 ^ 53 = 9007199254740992)%Z) by reflexivity.
  destruct T as [[L ->] | [G B]].
  - cbn [time_before]. rewrite binary64_exact by lia.
    destruct (amount <=? now + 8640000000000000)%Z eqn:E.
    + apply Z.leb_le in E.
      assert (X : (Z.abs (now - amount) <=? 8640000000000000)%Z = true)
        by (apply Z.leb_le; lia).
      rewrite X. reflexivity.
    + apply Z.leb_gt in E.
      assert (X : (Z.abs (now - amount) <=? 8640000000000000)%Z = false)
        by (apply Z.leb_gt; lia).
      rewrite X. reflexivity.
  - assert (E : (amount <=? now + 8640000000000000)%Z = false) by (apply Z.leb_gt; lia).
    rewrite E. destruct x as [y|]; [|reflexivity]. cbn [time_before beyond] in *.
    assert (Y : (2 ^ 53 - 8640000000000000 <= Z.abs (now - y))%Z) by lia.
    destruct (Z.le_gt_cases (Z.abs (now - y)) (2 ^ 53)) as [S|S].
    + rewrite binary64_exact by exact S.
      assert (X : (Z.abs (now - y) <=? 8640000000000000)%Z = false).
      { apply Z.leb_gt.
        destruct (Z.le_gt_cases 0 y); lia. }
      rewrite X. reflexivity.
    + pose proof (@binary64_beyond (now - y) ltac:(lia)) as Bt.
      destruct (binary64 (now - y)) as [t|]; [|reflexivity]. cbn [beyond] in Bt.
      assert (X : (Z.abs t <=? 8640000000000000)%Z = false) by (apply Z.leb_gt; lia).
      rewrite X. reflexivity.
Qed.

Lemma fold_mul_nonneg (ks : list Z) (p : Z) :
  Forall (fun k => (1 <= k)%Z) ks -> (0 <= p)%Z -> (0 <= fold_left Z.mul ks p)%Z.
Proof.
  intros F. revert p. induction F as [|k ks Hk _ IH]; intros p P; [exact P|].
  cbn [fold_left]. apply IH. nia.
Qed.

(** The Number [parseRelativeTime] subtracts from the clock tracks the
    amount of milliseconds. *)
Lemma parseRelativeTime_tracked (ds rest : jstring) (unit : N) :
  ds <> [] -> forallb JSON.is_digit ds = true -> ends_amount rest = true ->
  match unit_ms unit with
  | None => parseRelativeTime (45%N :: ds ++ rest ++ [unit]) = NullDate
  | Some ms =>
      (0 <= JSON.digits_value ds * ms)%Z
      /\ exists subtracted,
           parseRelativeTime (45%N :: ds ++ rest ++ [unit]) = NowMinus subtracted
           /\ tracks (JSON.digits_value ds * ms) subtracted
  end.
Proof.
  intros NE D R. rewrite app_assoc, (parseRelativeTime_unit (ds ++ rest) unit).
  rewrite (@parseInt_digits ds rest NE D R).
  destruct (unit_ms_factors unit) as [E F]. rewrite E.
  destruct (unit_factors unit) as [ks|]; cbn [option_map]; [|reflexivity].
  pose proof (digits_value_nonneg ds) as V.
  pose proof (@tracks_fold ks _ _ F V (tracks_binary64 V)) as T.
  rewrite fold_mul_from in T.
  pose proof (@fold_mul_nonneg ks 1 F ltac:(lia)) as P.
  split; [nia|]. eexists. split; [reflexivity | exact T].
Qed.

(** [parseRelativeTime] of a minus sign, an amount in decimal digits and
    a unit. The amount is the run of digits after the sign; what follows
    it before the unit (a fraction, say) is ignored. For a unit other
    than [h], [d] and [m] the answer is [null]. For these the answer is
    [new Date(clock - ms)], where [ms] is the amount of hours, days or
    minutes in milliseconds as long as that is at most [2^53]; and for
    every clock between the epoch and the year 13606 the Date holds the
    time [ms] before the clock when that lies within 8.64e15 ms of the
    epoch, and is an Invalid Date when it does not, however large the
    amount. *)
Theorem relative_time_amount (ds rest : jstring) (unit : N) :
  ds <> [] -> forallb JSON.is_digit ds = true -> ends_amount rest = true ->
  match unit_ms unit with
  | None => parseRelativeTime (45%N :: ds ++ rest ++ [unit]) = NullDate
  | Some ms =>
      let amount := (JSON.digits_value ds * ms)%Z in
      exists subtracted,
        parseRelativeTime (45%N :: ds ++ rest ++ [unit]) = NowMinus subtracted
        /\ ((amount <= 2 ^ 53)%Z -> subtracted = Some amount)
        /\ forall now, (0 <= now < 2 ^ 53 - 8640000000000000)%Z ->
             time_before now subtracted
             = if (amount <=? now + 8640000000000000)%Z
               then Some (now - amount)%Z else None
  end.
Proof.
  intros NE D R. pose proof (@parseRelativeTime_tracked ds rest unit NE D R) as H.
  destruct (unit_ms unit) as [ms|]; [|exact H].
  destruct H as (A & x & E & T). cbv zeta. exists x. split; [exact E|]. split.
  - intros L. destruct T as [[_ T] | [G _]]; [exact T | lia].
  - intros now N. apply time_before_tracked; assumption.
Qed.

(** At [-90m], at [-1.5h], which is one hour, and at [-200000000d],
    an Invalid Date on 14 November 2023. *)
Lemma relative_time_witness :
  parseRelativeTime (js "-90m") = NowMinus (Some 5400000%Z)
  /\ parseRelativeTime (js "-1.5h") = NowMinus (Some 3600000%Z)
  /\ exists subtracted,
       parseRelativeTime (js "-200000000d") = NowMinus subtracted
       /\ time_before 1700000000000 subtracted = None.
Proof.
  split; [|split].
  - destruct (@relative_time_amount (js "90") [] 109%N) as (x & E & X & _);
      [discriminate | reflexivity | reflexivity |].
    change (parseRelativeTime (js "-90m") = NowMinus x) in E. rewrite E, X; [reflexivity|].
    vm_compute; discriminate.
  - destruct (@relative_time_amount (js "1") (js ".5") 104%N) as (x & E & X & _);
      [discriminate | reflexivity | reflexivity |].
    change (parseRelativeTime (js "-1.5h") = NowMinus x) in E. rewrite E, X; [reflexivity|].
    vm_compute; discriminate.
  - destruct (@relative_time_amount (js "200000000") [] 100%N) as (x & E & _ & T);
      [discriminate | reflexivity | reflexivity |].
    exists x. split; [exact E|]. rewrite T; [reflexivity|].
    split; [discriminate | reflexivity].
Defined.

(* ------------------------------------------------------------------ *)
(** * The lines written *)

Lemma value_nested_ind (P : value -> Prop) :
  P VUndefined -> P VNull -> (forall b, P (VBool b)) -> (forall n, P (VNum n)) ->
  (forall s, P (VStr s)) ->
  (forall items, Forall P items -> P (VArr items)) ->
  (forall fields, Forall (fun kv => P (snd kv)) fields -> P (VObj fields)) ->
  (forall h, P (VHost h)) ->
  forall v, P v.
Proof.
  intros HU HN HB HNum HS HA HO HH. fix IH 1.
  intros [ | | b | n | s | items | fields | h];
    [exact HU | exact HN | apply HB | apply HNum | apply HS | | | apply HH].
  - apply HA. induction items as [|x items IHitems]; constructor; [apply IH | exact IHitems].
  - apply HO. induction fields as [|[k x] fields IHfields]; constructor;
      [apply IH | exact IHfields].
Qed.

Lemma printable_app (a b : jstring) : printable a -> printable b -> printable (a ++ b).
Proof. intros A B. apply Forall_app. split; assumption. Qed.

Lemma printable_cons (c : N) (s : jstring) : (32 <= c)%N -> printable s -> printable (c :: s).
Proof. intros C S. constructor; assumption. Qed.

Lemma printable_js (s : string) :
  forallb (fun c => N.leb 32 c) (js s) = true -> printable (js s).
Proof.
  intros H. apply Forall_forall. intros c I.
  rewrite forallb_forall in H. apply N.leb_le, H, I.
Qed.

Lemma hex_digit_printable (d : N) : (32 <= JSON.hex_digit d)%N.
Proof. unfold JSON.hex_digit. destruct (N.ltb d 10); lia. Qed.

Lemma unicode_escape_printable (c : N) : printable (JSON.unicode_escape c).
Proof.
  unfold JSON.unicode_escape.
  repeat (apply printable_cons; [first [apply hex_digit_printable | lia]|]).
  constructor.
Qed.

Lemma quote_body_printable_upto (n : nat) (s : jstring) :
  List.length s <= n -> printable (JSON.quote_body s).
Proof.
  revert s. induction n as [|n IH]; intros [|c r] L; simpl in L; try lia;
    try (constructor; fail).
  assert (Hr : printable (JSON.quote_body r)) by (apply IH; lia).
  cbn [JSON.quote_body].
  repeat match goal with
  | |- printable (if N.eqb c ?k then _ else _) =>
      destruct (N.eqb c k);
        [apply printable_app; [repeat constructor; lia | exact Hr]|]
  end.
  destruct (N.ltb c 32) eqn:C32.
  { apply printable_app; [apply unicode_escape_printable | exact Hr]. }
  apply N.ltb_ge in C32.
  destruct (JSON.is_high_surrogate c).
  { destruct r as [|d r'].
    - apply unicode_escape_printable.
    - destruct (JSON.is_low_surrogate d) eqn:Ld.
      + unfold JSON.is_low_surrogate in Ld. apply andb_prop in Ld.
        destruct Ld as [Ld _]. apply N.leb_le in Ld.
        apply printable_cons; [exact C32|]. apply printable_cons; [lia|].
        apply IH. simpl in L. lia.
      + apply printable_app; [apply unicode_escape_printable | exact Hr]. }
  destruct (JSON.is_low_surrogate c).
  { apply printable_app; [apply unicode_escape_printable | exact Hr]. }
  apply printable_cons; assumption.
Qed.

Lemma quote_printable (s : jstring) : printable (JSON.quote s).
Proof.
  unfold JSON.quote. apply printable_cons; [lia|]. apply printable_app.
  - apply (@quote_body_printable_upto (List.length s)). lia.
  - repeat constructor; lia.
Qed.

Lemma digit_text_printable (ds : list Z) : printable (digit_text ds).
Proof.
  unfold digit_text. induction ds as [|d ds IH]; simpl; constructor;
    [unfold digit_unit; lia | exact IH].
Qed.

Lemma zeros_printable (n : Z) : printable (zeros n).
Proof.
  unfold zeros. induction (Z.to_nat n) as [|k IH]; simpl; constructor; [lia | exact IH].
Qed.

Lemma positive_text_printable (m e : Z) : printable (positive_text m e).
Proof.
  unfold positive_text. destruct (strip_zeros_rev (rev (digits m)) 0) as [rev_sig dropped].
  cbv zeta.
  repeat match goal with
  | |- printable (if ?b then _ else _) => destruct b
  end;
  try match goal with
  | |- printable (match ?l with _ => _ end) => destruct l as [|d [|d' rest]]
  end;
  repeat first
    [ apply digit_text_printable | apply zeros_printable
    | apply printable_app
    | apply printable_cons; [first [unfold digit_unit; lia | destruct (_ <? _)%Z; lia]|]
    | constructor ].
Qed.

Lemma to_text_printable (x : number) : printable (to_text x).
Proof.
  destruct x as [m e|]; [|apply printable_js; reflexivity].
  unfold to_text. destruct (m =? 0)%Z; [apply printable_js; reflexivity|].
  destruct (m <? 0)%Z; [apply printable_cons; [lia|]|]; apply positive_text_printable.
Qed.

Lemma join_printable (sep : jstring) (parts : list jstring) :
  printable sep -> Forall printable parts -> printable (join sep parts).
Proof.
  intros S H. induction H as [|p rest Hp Hrest IH]; [constructor|].
  cbn [join]. destruct rest as [|q rest']; [exact Hp|].
  apply printable_app; [exact Hp|]. apply printable_app; [exact S | exact IH].
Qed.

(** The text [JSON.stringify] gives holds no control character. *)
Lemma serialize_printable (v : value) :
  forall t, JSON.serialize v = Some t -> printable t.
Proof.
  induction v as [ | | b | n | s | items IH | fields IH | h] using value_nested_ind;
    intros t E.
  - discriminate.
  - injection E as <-. apply printable_js; reflexivity.
  - destruct b; injection E as <-; apply printable_js; reflexivity.
  - destruct n as [m e|]; injection E as <-;
      [apply (to_text_printable (Dec m e)) | apply printable_js; reflexivity].
  - injection E as <-. apply quote_printable.
  - cbn [JSON.serialize] in E. injection E as <-.
    apply printable_cons; [lia|]. apply printable_app; [|repeat constructor; lia].
    apply join_printable; [apply printable_js; reflexivity|].
    induction IH as [|x items Hx _ IHitems]; [constructor|].
    constructor; [|exact IHitems].
    destruct (JSON.serialize x) as [t|]; [apply Hx; reflexivity | apply printable_js; reflexivity].
  - cbn [JSON.serialize] in E. injection E as <-.
    apply printable_cons; [lia|]. apply printable_app; [|repeat constructor; lia].
    apply join_printable; [apply printable_js; reflexivity|].
    induction IH as [|[k x] fields Hx _ IHfields]; [constructor|].
    cbn [snd] in Hx. destruct (JSON.serialize x) as [t|]; [|exact IHfields].
    constructor; [|exact IHfields].
    apply (@printable_app (JSON.quote k) (58%N :: t)); [apply quote_printable|].
    apply printable_cons; [lia|]. apply Hx; reflexivity.
  - destruct h; [injection E as <-; apply printable_js; reflexivity | discriminate].
Qed.

Lemma encode_printable (r : response) : printable (encode r).
Proof.
  unfold encode, JSON.stringify.
  destruct (JSON.serialize (envelope r)) as [t|] eqn:E.
  - apply (@serialize_printable _ _ E).
  - apply printable_js; reflexivity.
Qed.

Lemma accounted_silent {A : Type} (c : M A) : silent c -> accounted c.
Proof.
  intros H w. exists [], []. destruct (H w) as (S & L & _).
  rewrite S, L, !app_nil_r. repeat split. constructor.
Qed.

Lemma accounted_join (entries1 entries2 : list jstring) (rs1 rs2 : list response) :
  Forall (fun r => In (sending r) entries1) rs1 ->
  Forall (fun r => In (sending r) entries2) rs2 ->
  Forall (fun r => In (sending r) (entries1 ++ entries2)) (rs1 ++ rs2).
Proof.
  intros F1 F2. apply Forall_app. split.
  - eapply Forall_impl; [|exact F1]. intros r I. apply in_or_app. left. exact I.
  - eapply Forall_impl; [|exact F2]. intros r I. apply in_or_app. right. exact I.
Qed.

Lemma accounted_bind {A B : Type} (c : M A) (k : A -> M B) :
  accounted c -> (forall a, accounted (k a)) -> accounted (bind c k).
Proof.
  intros Hc Hk w. unfold bind. destruct (Hc w) as (rs1 & es1 & S1 & L1 & F1).
  destruct (c w) as [[a|e] w1]; cbn [snd] in *; [|exists rs1, es1; auto].
  destruct (Hk a w1) as (rs2 & es2 & S2 & L2 & F2). exists (rs1 ++ rs2), (es1 ++ es2).
  rewrite S2, S1, L2, L1, map_app, !app_assoc. repeat split.
  apply accounted_join; assumption.
Qed.

Lemma accounted_try_catch {A : Type} (body : M A) (handler : thrown -> M A) :
  accounted body -> (forall e, accounted (handler e)) -> accounted (try_catch body handler).
Proof.
  intros Hb Hh w. unfold try_catch. destruct (Hb w) as (rs1 & es1 & S1 & L1 & F1).
  destruct (body w) as [[a|e] w1]; cbn [snd] in *; [exists rs1, es1; auto|].
  destruct (Hh e w1) as (rs2 & es2 & S2 & L2 & F2). exists (rs1 ++ rs2), (es1 ++ es2).
  rewrite S2, S1, L2, L1, map_app, !app_assoc. repeat split.
  apply accounted_join; assumption.
Qed.

Lemma accounted_log (entry : jstring) : accounted (log entry).
Proof.
  intros w. unfold log. destruct (disk w) as [|[m|] later]; cbn [snd logged unlogged stdout logfile].
  - exists [], [entry]. rewrite app_nil_r. repeat split. constructor.
  - exists [], []. rewrite !app_nil_r. repeat split. constructor.
  - exists [], [entry]. rewrite app_nil_r. repeat split. constructor.
Qed.

(** A sender writes the line of a response once its log entry is made,
    and nothing when the entry cannot be made. *)
Lemma accounted_send (r : response) :
  accounted (log (sending r) ;; console_log (encode r)).
Proof.
  intros w. unfold bind, log, console_log.
  destruct (disk w) as [|[m|] later]; cbn [snd logged unlogged wrote stdout logfile].
  - exists [r], [sending r]. repeat split. constructor; [left; reflexivity | constructor].
  - exists [], []. rewrite !app_nil_r. repeat split. constructor.
  - exists [r], [sending r]. repeat split. constructor; [left; reflexivity | constructor].
Qed.

Lemma accounted_sendResponse (id result : value) : accounted (sendResponse id result).
Proof. apply (accounted_send (Success id result)). Qed.

Lemma accounted_sendErrorResponse (id : value) (code : Z) (msg : jstring) :
  accounted (sendErrorResponse id code msg).
Proof. apply (accounted_send (Failure id code msg)). Qed.

Lemma accounted_get (v : value) (k : string) (cont : value -> M unit) :
  (forall x, accounted (cont x)) -> accounted (bind (get v k) cont).
Proof.
  intros H. apply accounted_bind; [apply accounted_silent, silent_get | exact H].
Qed.

Lemma accounted_invoke (request : value) : accounted (invoke request).
Proof.
  unfold invoke. apply accounted_get; intros params. apply accounted_bind.
  - destruct (truthy (prop_opt params (js "name"))); apply accounted_silent.
    + apply silent_bind; [apply silent_lift | intros; apply silent_ret].
    + apply silent_ret.
  - intros [|].
    + apply accounted_get; intros id.
      apply accounted_bind; [apply accounted_silent, silent_lift|].
      intros shown. apply accounted_sendErrorResponse.
    + apply accounted_try_catch.
      * apply accounted_bind; [apply accounted_silent, silent_lift|]. intros key.
        apply accounted_bind; [apply accounted_silent, call_tool_silent|]. intros result.
        apply accounted_get; intros id. apply accounted_sendResponse.
      * intros e. apply accounted_bind; [apply accounted_log|]. intros _.
        apply accounted_get; intros id. apply accounted_sendErrorResponse.
Qed.

Lemma accounted_dispatch (request : value) : accounted (dispatch request).
Proof.
  unfold dispatch. apply accounted_bind; [apply accounted_log|]. intros _.
  apply accounted_get; intros jsonrpc.
  destruct (negb (strict_eq_str jsonrpc (js "2.0"))).
  { apply accounted_get; intros id. apply accounted_sendErrorResponse. }
  apply accounted_get; intros method.
  destruct (strict_eq_str method (js "initialize")).
  { apply accounted_get; intros id. apply accounted_get; intros params.
    apply accounted_get; intros version. apply accounted_sendResponse. }
  destruct (strict_eq_str method (js "tools/list")).
  { apply accounted_get; intros id. apply accounted_sendResponse. }
  destruct (strict_eq_str method (js "tools/invoke")).
  { apply accounted_invoke. }
  destruct (strict_eq_str method (js "notifications/initialized")).
  { apply accounted_silent, silent_ret. }
  apply accounted_get; intros id. apply accounted_sendErrorResponse.
Qed.

Lemma accounted_on_line (line : jstring) : accounted (on_line line).
Proof.
  unfold on_line. apply accounted_try_catch.
  - apply accounted_bind; [|intros request; apply accounted_dispatch].
    apply accounted_silent. unfold JSON_parse.
    destruct (JSON.parse line); [apply silent_ret | apply silent_throw].
  - intros e. apply accounted_bind; [apply accounted_log|]. intros _.
    apply accounted_sendErrorResponse.
Qed.

Lemma accounted_serve (lines : list jstring) : accounted (serve lines).
Proof.
  induction lines as [|line rest IH]; cbn [serve].
  - apply accounted_silent, silent_ret.
  - apply accounted_bind; [apply accounted_on_line | intros _; exact IH].
Qed.

Lemma accounted_output {A : Type} (c : M A) (w : world) :
  accounted c ->
  exists rs entries,
    output c w = map encode rs
    /\ logfile (snd (c w)) = logfile w ++ entries
    /\ Forall (fun r => In (sending r) entries) rs.
Proof.
  intros H. destruct (H w) as (rs & es & S & L & F). exists rs, es.
  unfold output. rewrite S, skipn_app, skipn_all, Nat.sub_diag. auto.
Qed.

(** Every line a session writes is free of control characters, so
    a response never spans two lines, whatever strings the requests
    carried and whether or not the log works. *)
Theorem responses_single_line (lines : list jstring) (w : world) :
  Forall printable (output (serve lines) w).
Proof.
  destruct (@accounted_output _ (serve lines) w (accounted_serve lines))
    as (rs & _ & -> & _).
  apply Forall_forall. intros line I. apply in_map_iff in I.
  destruct I as (r & <- & _). apply encode_printable.
Qed.

(** Whatever a session writes was entered in the log by its sender: for
    every line on standard output the log has gained an entry that
    holds the line after the words [Sending response: ] or
    [Sending error: ], whether or not other appends to the log
    failed. *)
Theorem responses_journalled (lines : list jstring) (w : world) :
  exists entries,
    logfile (snd (serve lines w)) = logfile w ++ entries
    /\ forall line, In line (output (serve lines) w) ->
         In (js "[aws] [info] Sending response: " ++ line) entries
         \/ In (js "[aws] [error] Sending error: " ++ line) entries.
Proof.
  destruct (@accounted_output _ (serve lines) w (accounted_serve lines))
    as (rs & entries & -> & L & F).
  exists entries. split; [exact L|]. intros line I. apply in_map_iff in I.
  destruct I as (r & <- & I). rewrite Forall_forall in F. specialize (F r I).
  destruct r; [left | right]; exact F.
Qed.

(* ------------------------------------------------------------------ *)
(** * Start-up *)

(** When one of the appends to the log that start-up makes fails,
    the exception leaves the module and the readiness notification is
    not written. *)
Theorem startup_log_fault (credentials : option jstring) (w : world) :
  Exists (fun fate => fate <> None) (firstn (startup_appends credentials) (disk w)) ->
  (exists e, fst (startup credentials w) = Throw e)
  /\ stdout (snd (startup credentials w)) = stdout w.
Proof.
  intros E. unfold startup, bind, log, config_update, console_log.
  destruct credentials as [m|]; cbn [startup_appends] in E;
    destruct (disk w) as [|[m1|] [|[m2|] [|[m3|] d]]] eqn:D; cbn [firstn] in E;
    repeat (cbn [disk logged unlogged configured wrote tl fst snd stdout]; rewrite ?D);
    try (split; [eexists; reflexivity | reflexivity]);
    exfalso;
    repeat match goal with
    | H : Exists _ _ |- _ => inversion H; clear H; subst
    end; congruence.
Qed.

(** At a log that cannot be opened. *)
Lemma startup_log_fault_witness :
  stdout (snd (startup None (fresh [Some (js "EACCES: permission denied")] offline))) = [].
Proof.
  apply (@startup_log_fault None (fresh [Some (js "EACCES: permission denied")] offline)).
  left. discriminate.
Defined.

(* ------------------------------------------------------------------ *)
(** * A log that fails under a response *)

Lemma log_next (entry : jstring) (w : world) (later : list (option jstring)) :
  disk w = None :: later -> log entry w = (Normal tt, logged entry w).
Proof. intros D. unfold log. rewrite D. reflexivity. Qed.

(** When a tool has returned and the append of the
    [Sending response] entry fails with [m], the [catch] of the
    invocation takes the failure of the log for one of the tool: the
    client is answered [-32000], [Tool execution error: m], in place of
    the result. (The entry of the request before it and the entries
    after it are taken to succeed.) *)
Theorem response_log_fault (line : jstring) (request v : value) (h : handler_name)
    (w : world) (m : jstring) (later : list (option jstring)) :
  JSON.parse line = Some request -> invokes request h ->
  disk w = None :: Some m :: later -> Forall (fun fate => fate = None) later ->
  fst (run_handler h (parameters_of request) (received request w)) = Normal v ->
  settles line w = Normal tt
  /\ output (on_line line) w
     = [encode (Failure (member_of request "id") (-32000)
                  (js "Tool execution error: " ++ m))].
Proof.
  intros P [[V Mt] Hname] D Q R.
  destruct (versioned_is_object _ V) as [fields ->].
  pose proof (run_handler_silent h (parameters_of (VObj fields)) (received (VObj fields) w))
    as (S1 & _ & D1).
  set (F := Failure (member_of (VObj fields) "id") (-32000)
              (js "Tool execution error: " ++ m)).
  assert (E : exists w', dispatch (VObj fields) w = (Normal tt, wrote (encode F) w')
                         /\ stdout w' = stdout w).
  { unfold dispatch. unfold bind at 1. rewrite (@log_next _ w _ D).
    fold (received (VObj fields) w).
    rewrite get_member, V. unfold str. cbn [strict_eq_str]. rewrite eqb_refl. cbn [negb].
    rewrite get_member, Mt.
    change (strict_eq_str (str "tools/invoke") (js "initialize")) with false.
    change (strict_eq_str (str "tools/invoke") (js "tools/list")) with false.
    change (strict_eq_str (str "tools/invoke") (js "tools/invoke")) with true.
    cbv iota. unfold invoke. rewrite get_member.
    fold (tool_name_of (VObj fields)). fold (parameters_of (VObj fields)).
    rewrite Hname, handler_key_truthy.
    unfold bind at 1. unfold bind at 1. cbn [lift to_string ret].
    rewrite registered_key.
    unfold try_catch, bind at 1. cbn [lift].
    unfold bind at 1. unfold call_tool. rewrite registered_key.
    destruct (run_handler h (parameters_of (VObj fields)) (received (VObj fields) w))
      as [[v'|e] w1]; cbn [fst snd] in *; [|discriminate R].
    assert (D2 : disk w1 = Some m :: later) by (rewrite D1; cbn [received logged disk]; rewrite D; reflexivity).
    rewrite get_member. unfold sendResponse. unfold bind at 1.
    rewrite (@log_fault _ w1 m later D2). cbn [message].
    assert (Q2 : quiet (unlogged w1)) by (unfold quiet; cbn [unlogged disk]; rewrite D2; exact Q).
    unfold bind at 1. rewrite (log_quiet _ Q2). rewrite get_member.
    rewrite sendErrorResponse_quiet by (apply quiet_logged; exact Q2).
    eexists. split; [reflexivity|]. cbn [stdout logged unlogged]. exact S1. }
  destruct E as (w' & E & S). unfold settles.
  rewrite (@on_line_completes line _ w _ P E). split; [reflexivity|].
  eapply output_wrote; [apply (@on_line_completes line _ w _ P E)|].
  cbn [stdout wrote]. rewrite S. reflexivity.
Qed.

(** At a [ping] whose response cannot be logged: the disk is full. *)
Lemma response_log_fault_witness :
  output (on_line (wire "{`jsonrpc`:`2.0`,`id`:3,`method`:`tools/invoke`,`params`:{`name`:`ping`}}"))
    (fresh [None; Some (js "ENOSPC: no space left on device, write")] offline)
  = [wire "{`jsonrpc`:`2.0`,`id`:3,`error`:{`code`:-32000,`message`:`Tool execution error: ENOSPC: no space left on device, write`}}"].
Proof.
  pose proof (@response_log_fault
    (wire "{`jsonrpc`:`2.0`,`id`:3,`method`:`tools/invoke`,`params`:{`name`:`ping`}}")
    (VObj [field "jsonrpc" (str "2.0"); field "id" (VNum (Dec 3 0));
           field "method" (str "tools/invoke");
           field "params" (VObj [field "name" (str "ping")])])
    pong Ping
    (fresh [None; Some (js "ENOSPC: no space left on device, write")] offline)
    (js "ENOSPC: no space left on device, write") []) as H.
  destruct H as [_ H].
  - vm_compute; reflexivity.
  - split; [split|]; vm_compute; reflexivity.
  - reflexivity.
  - constructor.
  - reflexivity.
  - rewrite H. vm_compute; reflexivity.
Defined.

(* ------------------------------------------------------------------ *)
(** * Names that find a member of [toolHandlers] *)

Lemma call_tool_quiet (key : jstring) (params : value) (w : world) :
  quiet w ->
  quiet (snd (call_tool key params w))
  /\ stdout (snd (call_tool key params w)) = stdout w.
Proof.
  intros Q. pose proof (call_tool_silent key params w) as S.
  split; [eapply quiet_same_channels; eauto | apply S].
Qed.

(** The [tools/invoke] branch for a truthy name whose string finds a
    member: the member is called and its outcome sent. *)
Lemma invoke_found (fields : list (jstring * value)) (key : jstring) (w : world) :
  quiet w ->
  truthy (tool_name_of (VObj fields)) = true ->
  to_string (tool_name_of (VObj fields)) = Normal key ->
  toolHandlers_get key <> None ->
  let id := member_of (VObj fields) "id" in
  let r := call_tool key (parameters_of (VObj fields)) w in
  exists w', invoke (VObj fields) w = (Normal tt, wrote (encode (adapted id (fst r))) w')
             /\ stdout w' = stdout w
             /\ calls w' = calls (snd r)
             /\ config_region w' = config_region (snd r).
Proof.
  intros Q T K F id r. unfold invoke. rewrite get_member.
  fold (tool_name_of (VObj fields)). fold (parameters_of (VObj fields)).
  rewrite T, K.
  unfold bind at 1. unfold bind at 1. cbn [lift ret].
  destruct (toolHandlers_get key) as [mb|] eqn:G; [clear F | contradiction].
  unfold try_catch, bind at 1. cbn [lift].
  unfold bind at 1.
  destruct (@call_tool_quiet key (parameters_of (VObj fields)) w Q) as [Q1 S1].
  subst r. destruct (call_tool key (parameters_of (VObj fields)) w) as [[v|e] w1];
    cbn [fst snd adapted] in *.
  - rewrite get_member. rewrite (sendResponse_quiet _ _ Q1).
    eexists. split; [reflexivity|]. cbn [stdout calls config_region logged]. auto.
  - unfold bind at 1. rewrite (log_quiet _ Q1). rewrite get_member.
    rewrite sendErrorResponse_quiet by (apply quiet_logged; exact Q1).
    eexists. split; [reflexivity|]. cbn [stdout calls config_region logged]. auto.
Qed.

Lemma inherited_key (p : proto_member) : toolHandlers_get (proto_key p) = Some (Inherited p).
Proof. destruct p; reflexivity. Qed.

Lemma proto_key_truthy (p : proto_member) : truthy (VStr (proto_key p)) = true.
Proof. destruct p; reflexivity. Qed.

(** For each of the twelve names that [Object.prototype] defines,
    a [tools/invoke] request is never answered "not found": the
    inherited member is called with the parameters and its outcome is
    sent, as a result or as error [-32000]. No call reaches the SDK and
    the ambient region stays. (The log is taken to work.) *)
Theorem inherited_member_called (line : jstring) (request : value) (p : proto_member)
    (w : world) :
  JSON.parse line = Some request ->
  quiet w ->
  asks request "tools/invoke" ->
  tool_name_of request = VStr (proto_key p) ->
  output (on_line line) w
  = [encode (adapted (member_of request "id")
               (call_inherited p (parameters_of request)))]
  /\ calls (after line w) = calls w
  /\ config_region (after line w) = config_region w.
Proof.
  intros P Q [V Mt] Hname.
  destruct (versioned_is_object _ V) as [fields ->].
  assert (Q1 : quiet (received (VObj fields) w)) by (apply quiet_logged; exact Q).
  pose proof (@dispatch_versioned _ w Q V) as D. cbv zeta in D. rewrite Mt in D.
  change (strict_eq_str (str "tools/invoke") (js "initialize")) with false in D.
  change (strict_eq_str (str "tools/invoke") (js "tools/list")) with false in D.
  change (strict_eq_str (str "tools/invoke") (js "tools/invoke")) with true in D.
  cbv iota in D. fold (received (VObj fields) w) in D.
  destruct (@invoke_found fields (proto_key p) _ Q1) as (w' & I & S & C & G).
  - rewrite Hname. apply proto_key_truthy.
  - rewrite Hname. reflexivity.
  - rewrite inherited_key. discriminate.
  - rewrite I in D. unfold call_tool in *. rewrite inherited_key in *.
    cbn [lift fst snd] in *. unfold after.
    rewrite (@on_line_completes line _ w _ P D). cbn [snd wrote calls config_region].
    split; [|split; assumption].
    eapply output_wrote; [apply (@on_line_completes line _ w _ P D)|].
    cbn [stdout wrote]. rewrite S. reflexivity.
Qed.

(** At [hasOwnProperty] with no parameters: the answer is the
    result [false]. *)
Lemma inherited_member_witness :
  output (on_line (wire "{`jsonrpc`:`2.0`,`id`:9,`method`:`tools/invoke`,`params`:{`name`:`hasOwnProperty`}}"))
    started
  = [wire "{`jsonrpc`:`2.0`,`id`:9,`result`:false}"].
Proof.
  pose proof (@inherited_member_called
    (wire "{`jsonrpc`:`2.0`,`id`:9,`method`:`tools/invoke`,`params`:{`name`:`hasOwnProperty`}}")
    (VObj [field "jsonrpc" (str "2.0"); field "id" (VNum (Dec 9 0));
           field "method" (str "tools/invoke");
           field "params" (VObj [field "name" (str "hasOwnProperty")])])
    P_hasOwnProperty started) as H.
  destruct H as [H _].
  - vm_compute; reflexivity.
  - vm_compute; constructor.
  - split; vm_compute; reflexivity.
  - reflexivity.
  - rewrite H. vm_compute; reflexivity.
Defined.

(* ------------------------------------------------------------------ *)
(** * The basic server and the full one *)

Lemma agree_bind {A B : Type} (c1 c2 : M A) (k1 k2 : A -> M B) :
  agree c1 c2 -> (forall a, agree (k1 a) (k2 a)) -> agree (bind c1 k1) (bind c2 k2).
Proof.
  intros Hc Hk w1 w2 R. unfold bind. specialize (Hc w1 w2 R).
  destruct (c1 w1) as [[a1|e1] w1'], (c2 w2) as [[a2|e2] w2']; try contradiction.
  - destruct Hc as [<- R']. apply Hk. exact R'.
  - exact Hc.
Qed.

Lemma agree_try_catch {A : Type} (b1 b2 : M A) (h1 h2 : thrown -> M A) :
  agree b1 b2 -> (forall e1 e2, agree (h1 e1) (h2 e2)) ->
  agree (try_catch b1 h1) (try_catch b2 h2).
Proof.
  intros Hb Hh w1 w2 R. unfold try_catch. specialize (Hb w1 w2 R).
  destruct (b1 w1) as [[a1|e1] w1'], (b2 w2) as [[a2|e2] w2']; try contradiction.
  - exact Hb.
  - apply Hh. exact Hb.
Qed.

Lemma agree_log (entry1 entry2 : jstring) : agree (log entry1) (log entry2).
Proof.
  intros w1 w2 (Q1 & Q2 & S). rewrite (log_quiet _ Q1), (log_quiet _ Q2).
  split; [reflexivity|]. repeat split; try (apply quiet_logged; assumption). exact S.
Qed.

Lemma agree_console_log (line : jstring) : agree (console_log line) (console_log line).
Proof.
  intros w1 w2 (Q1 & Q2 & S). unfold console_log. split; [reflexivity|].
  repeat split; try assumption. cbn [stdout wrote]. rewrite S. reflexivity.
Qed.

Lemma agree_ret {A : Type} (a : A) : agree (ret a) (ret a).
Proof. intros w1 w2 R. split; [reflexivity | exact R]. Qed.

Lemma agree_throw {A : Type} (e1 e2 : thrown) : agree (@throw A e1) (@throw A e2).
Proof. intros w1 w2 R. exact R. Qed.

Lemma prop_member (v x : value) (k : jstring) : prop v k = Normal x -> x = prop_opt v k.
Proof. destruct v; simpl; intros E; inversion E; reflexivity. Qed.

Lemma agree_get (v : value) (k : string) (k1 k2 : value -> M unit) :
  (prop v (js k) = Normal (member_of v k) -> agree (k1 (member_of v k)) (k2 (member_of v k))) ->
  agree (bind (get v k) k1) (bind (get v k) k2).
Proof.
  intros H w1 w2 R. unfold bind, get, lift.
  destruct (prop v (js k)) as [x|e] eqn:E; [|exact R].
  pose proof (prop_member _ _ E) as X. subst x. apply H; [reflexivity | exact R].
Qed.

Lemma agree_sendResponse (id result : value) :
  agree (sendResponse id result) (Basic.sendResponse id result).
Proof.
  apply agree_bind; [apply agree_log | intros _; apply agree_console_log].
Qed.

Lemma agree_sendErrorResponse (id : value) (code : Z) (msg : jstring) :
  agree (sendErrorResponse id code msg) (Basic.sendErrorResponse id code msg).
Proof.
  apply agree_bind; [apply agree_log | intros _; apply agree_console_log].
Qed.

(** The invocation of [ping]: the full server finds the handler in
    [toolHandlers] and sends what it returns, the basic one sends the
    same payload itself. *)
Lemma agree_ping (fields : list (jstring * value)) :
  tool_name_of (VObj fields) = str "ping" ->
  agree (invoke (VObj fields))
        (Basic.sendResponse (member_of (VObj fields) "id") (VObj [field "result" (str "pong")])).
Proof.
  intros N w1 w2 (Q1 & Q2 & S).
  rewrite (@invoke_registered fields Ping w1 Q1 N). cbn [run_handler ret].
  unfold Basic.sendResponse, bind. rewrite (log_quiet _ Q2). unfold console_log.
  split; [reflexivity|]. repeat split.
  - apply quiet_wrote, quiet_logged, Q1.
  - apply quiet_wrote, quiet_logged, Q2.
  - cbn [stdout wrote logged]. rewrite S. reflexivity.
Qed.

Lemma agree_dispatch (request : value) :
  extended request = false -> agree (dispatch request) (Basic.dispatch request).
Proof.
  intros X. unfold dispatch, Basic.dispatch.
  apply agree_bind; [apply agree_log|]. intros _.
  apply agree_get. intros Pj. unfold extended in X.
  destruct (strict_eq_str (member_of request "jsonrpc") (js "2.0")) eqn:V; cbn [negb andb] in *.
  2: { apply agree_get; intros _. apply agree_sendErrorResponse. }
  apply strict_eq_str_true in V. destruct (versioned_is_object _ V) as [fields ->].
  apply agree_get. intros _.
  destruct (strict_eq_str (member_of (VObj fields) "method") (js "initialize")) eqn:Mi.
  { apply agree_get; intros _. apply agree_get; intros _. apply agree_get; intros _.
    apply agree_sendResponse. }
  destruct (strict_eq_str (member_of (VObj fields) "method") (js "tools/list")) eqn:Ml;
    [discriminate X|].
  destruct (strict_eq_str (member_of (VObj fields) "method") (js "tools/invoke")) eqn:Mv.
  { destruct (strict_eq_str (member_of (VObj fields) "method")
                (js "notifications/initialized")); [discriminate X|].
    cbn [orb andb] in X. apply negb_false_iff in X.
    match goal with
    | |- agree _ ?b =>
        assert (B : forall w, b w
                  = (if strict_eq_str (tool_name_of (VObj fields)) (js "ping")
                     then Basic.sendResponse (member_of (VObj fields) "id")
                            (VObj [field "result" (str "pong")])
                     else Basic.sendErrorResponse (member_of (VObj fields) "id")
                            (-32601) (js "Method not found")) w)
          by (intros w; reflexivity)
    end.
    intros w1 w2 R. rewrite B, X.
    apply agree_ping; [|exact R].
    apply strict_eq_str_true. exact X. }
  destruct (strict_eq_str (member_of (VObj fields) "method")
              (js "notifications/initialized")); [discriminate X|].
  match goal with
  | |- agree ?a ?b =>
      assert (A : forall w, a w
                = sendErrorResponse (member_of (VObj fields) "id")
                    (-32601) (js "Method not found") w)
        by (intros w; reflexivity);
      assert (B : forall w, b w
                = Basic.sendErrorResponse (member_of (VObj fields) "id")
                    (-32601) (js "Method not found") w)
        by (intros w; reflexivity)
  end.
  intros w1 w2 R. rewrite A, B. apply agree_sendErrorResponse. exact R.
Qed.

Lemma agree_on_line (line : jstring) :
  plain line = true -> agree (on_line line) (Basic.on_line line).
Proof.
  intros X. unfold on_line, Basic.on_line. apply agree_try_catch.
  - unfold JSON_parse, plain in *. destruct (JSON.parse line) as [request|].
    + change (agree (dispatch request) (Basic.dispatch request)).
      apply agree_dispatch. apply negb_true_iff. exact X.
    + change (agree (@throw unit syntax_error) (@throw unit syntax_error)).
      apply agree_throw.
  - intros e1 e2. apply agree_bind; [apply agree_log|]. intros _.
    apply agree_sendErrorResponse.
Qed.

Lemma agree_serve (lines : list jstring) :
  forallb plain lines = true -> agree (serve lines) (Basic.serve lines).
Proof.
  induction lines as [|line rest IH]; cbn [serve Basic.serve forallb]; intros X.
  - apply agree_ret.
  - apply andb_prop in X. destruct X as [X1 X2].
    apply agree_bind; [apply agree_on_line; exact X1 | intros _; apply IH; exact X2].
Qed.

(** The basic server knows two methods and one invocation. Under
    the version tag [2.0], every request whose method is neither
    [initialize] nor [tools/list], and which is not the invocation of
    the name [ping], is answered [-32601], [Method not found], with its
    [id]: so are the invocation of any other tool and the
    [notifications/initialized] notification, which the full server
    leaves unanswered. (The log is taken to work.) *)
Theorem basic_method_not_found (line : jstring) (request : value) (w : world) :
  JSON.parse line = Some request ->
  quiet w ->
  member_of request "jsonrpc" = str "2.0" ->
  strict_eq_str (member_of request "method") (js "initialize") = false ->
  strict_eq_str (member_of request "method") (js "tools/list") = false ->
  (strict_eq_str (member_of request "method") (js "tools/invoke")
   && strict_eq_str (tool_name_of request) (js "ping"))%bool = false ->
  output (Basic.on_line line) w
  = [encode (Failure (member_of request "id") (-32601) (js "Method not found"))].
Proof.
  intros P Q V Mi Ml Mp. destruct (versioned_is_object _ V) as [fields ->].
  set (F := Failure (member_of (VObj fields) "id") (-32601) (js "Method not found")).
  assert (E : Basic.on_line line w
              = (Normal tt,
                 wrote (encode F)
                   (logged (js "Sending error: " ++ encode F)
                      (logged (js "Received request: " ++ JSON.stringify (VObj fields)) w)))).
  { unfold Basic.on_line, try_catch, bind at 1, JSON_parse. rewrite P. cbn [ret].
    unfold Basic.dispatch. unfold bind at 1. rewrite (log_quiet _ Q).
    rewrite get_member, V. unfold str. cbn [strict_eq_str]. rewrite eqb_refl. cbn [negb].
    rewrite get_member, Mi, Ml.
    match goal with
    | |- (let (_, _) := ?b ?w0 in _) = _ =>
        assert (B : b w0
                  = (if (strict_eq_str (member_of (VObj fields) "method") (js "tools/invoke")
                         && strict_eq_str (tool_name_of (VObj fields)) (js "ping"))%bool
                     then Basic.sendResponse (member_of (VObj fields) "id")
                            (VObj [field "result" (str "pong")])
                     else Basic.sendErrorResponse (member_of (VObj fields) "id")
                            (-32601) (js "Method not found")) w0)
          by (destruct (strict_eq_str (member_of (VObj fields) "method") (js "tools/invoke"));
              reflexivity);
        rewrite B
    end.
    rewrite Mp. unfold Basic.sendErrorResponse, bind.
    rewrite log_quiet by (apply quiet_logged; exact Q). reflexivity. }
  eapply output_wrote; [exact E|]. reflexivity.
Qed.

(** At the [notifications/initialized] notification. *)
Lemma basic_method_not_found_witness :
  output (Basic.on_line (wire "{`jsonrpc`:`2.0`,`method`:`notifications/initialized`}")) started
  = [wire "{`jsonrpc`:`2.0`,`error`:{`code`:-32601,`message`:`Method not found`}}"].
Proof.
  pose proof (@basic_method_not_found
    (wire "{`jsonrpc`:`2.0`,`method`:`notifications/initialized`}")
    (VObj [field "jsonrpc" (str "2.0"); field "method" (str "notifications/initialized")])
    started) as H.
  rewrite H.
  - vm_compute; reflexivity.
  - vm_compute; reflexivity.
  - vm_compute; constructor.
  - reflexivity.
  - reflexivity.
  - reflexivity.
  - reflexivity.
Defined.

(* ------------------------------------------------------------------ *)
(** * The window of a metric query *)

Lemma rethrow_as_world (service : string) (body : M value) (w : world) :
  snd (rethrow_as service body w) = snd (body w).
Proof.
  unfold rethrow_as, try_catch. destruct (body w) as [[v|e] w1]; reflexivity.
Qed.

Lemma sdk_invoke_world (region : value) (req : sdk_request) (post : value -> M value)
    (w : world) :
  (forall data, unchanged (post data)) ->
  snd (bind (sdk_invoke region req) post w) = called (the_call region req) w.
Proof.
  intros U. unfold bind, sdk_invoke. fold (the_call region req).
  destruct (aws w (calls w) (the_call region req)) as [data|m]; [apply U | reflexivity].
Qed.

(** The window of [aws.cloudwatch.getMetricStatistics] for a relative
    start. With a region that is a string, a namespace, a metric name,
    an [endTime] from which a Date can be built and a [startTime] made
    of a minus sign, an amount in decimal digits and a unit, the amount
    in milliseconds being at most [2^53], the handler makes one call, in
    the region it works in, whose [StartTime] is the clock minus the
    amount of hours ([h]), days ([d]) or minutes ([m]), and [null] for
    any other unit; [EndTime] is the clock unless [endTime] is given,
    [Period] defaults to 300 and [Statistics] to [Average]. *)
Theorem cloudwatch_relative_start (params : value) (region ds rest : jstring)
    (unit : N) (finish : date) (w : world) :
  effective_region params w = VStr region ->
  truthy (prop_opt params (js "namespace")) = true ->
  truthy (prop_opt params (js "metricName")) = true ->
  prop_opt params (js "startTime") = VStr (45%N :: ds ++ rest ++ [unit]) ->
  ds <> [] -> forallb JSON.is_digit ds = true -> ends_amount rest = true ->
  (forall ms, unit_ms unit = Some ms -> (JSON.digits_value ds * ms <= 2 ^ 53)%Z) ->
  end_time params = Normal finish ->
  calls (snd (run_handler CloudwatchGetMetricStatistics params w))
  = calls w
    ++ [the_call (VStr region)
          (metric_request params
             match unit_ms unit with
             | Some ms => NowMinus (Some (JSON.digits_value ds * ms)%Z)
             | None => NullDate
             end
             finish)].
Proof.
  intros G Hn Hm Hs NE D R B Fin.
  destruct params as [ | | | | | | fields | ]; try discriminate Hn.
  destruct (region_world_facts (VObj fields) w) as (_ & C & _).
  assert (P : parseRelativeTime (45%N :: ds ++ rest ++ [unit])
              = match unit_ms unit with
                | Some ms => NowMinus (Some (JSON.digits_value ds * ms)%Z)
                | None => NullDate
                end).
  { pose proof (@parseRelativeTime_tracked ds rest unit NE D R) as H.
    destruct (unit_ms unit) as [ms|]; [|exact H].
    destruct H as (_ & x & E & [[_ ->] | [Gt _]]); [exact E|].
    specialize (B ms eq_refl). lia. }
  cbn [run_handler]. rewrite bind_handleRegion, G.
  unfold bind at 1. rewrite new_client_string.
  rewrite get_object, Hn. cbn [negb]. rewrite get_object, Hm. cbn [negb].
  rewrite rethrow_as_world. rewrite get_object, Hs.
  change (truthy (VStr (45%N :: ds ++ rest ++ [unit]))) with true. cbv iota.
  change (startsWith (45%N :: ds ++ rest ++ [unit]) (js "-")) with true. cbv iota.
  rewrite P. unfold bind at 1. cbn [ret].
  rewrite get_object. unfold end_time in Fin.
  assert (E : forall (k : date -> M value) w0,
            bind (if truthy (prop_opt (VObj fields) (js "endTime"))
                  then lift (new_Date (prop_opt (VObj fields) (js "endTime")))
                  else ret (NowMinus (Some 0%Z))) k w0 = k finish w0).
  { intros k w0. unfold bind.
    destruct (truthy (prop_opt (VObj fields) (js "endTime")));
      [unfold lift; rewrite Fin | unfold ret; injection Fin as <-]; reflexivity. }
  rewrite E. rewrite !get_object.
  rewrite sdk_invoke_world.
  - cbn [called calls]. rewrite C. reflexivity.
  - intros data. unfold get. settle_unchanged.
Qed.

(** At the last three hours of the CPU of EC2. *)
Lemma cloudwatch_relative_start_witness :
  calls (snd (run_handler CloudwatchGetMetricStatistics
                (VObj [field "namespace" (str "AWS/EC2");
                       field "metricName" (str "CPUUtilization");
                       field "startTime" (str "-3h")]) started))
  = [the_call (str "us-west-2")
       (GetMetricStatistics (str "AWS/EC2") (str "CPUUtilization") (VArr [])
          (NowMinus (Some 10800000%Z)) (NowMinus (Some 0%Z))
          (VNum (of_Z 300)) (VArr [str "Average"]))].
Proof.
  apply (@cloudwatch_relative_start
           (VObj [field "namespace" (str "AWS/EC2");
                  field "metricName" (str "CPUUtilization");
                  field "startTime" (str "-3h")])
           (js "us-west-2") (js "3") [] 104%N (NowMinus (Some 0%Z)) started).
  - reflexivity.
  - reflexivity.
  - reflexivity.
  - reflexivity.
  - discriminate.
  - reflexivity.
  - reflexivity.
  - intros ms E. injection E as <-. vm_compute; discriminate.
  - reflexivity.
Defined.

(* ------------------------------------------------------------------ *)
(** * What reaches AWS *)

Lemma aside_bind {A B : Type} (c : M A) (k : A -> M B) :
  aside c -> (forall a, aside (k a)) -> aside (bind c k).
Proof.
  intros Hc Hk w. unfold bind. destruct (Hc w) as [C R].
  destruct (c w) as [[a|e] w1]; cbn [snd] in *; [|split; assumption].
  destruct (Hk a w1) as [C' R']. rewrite C', R'. split; assumption.
Qed.

Lemma aside_try_catch {A : Type} (body : M A) (handler : thrown -> M A) :
  aside body -> (forall e, aside (handler e)) -> aside (try_catch body handler).
Proof.
  intros Hb Hh w. unfold try_catch. destruct (Hb w) as [C R].
  destruct (body w) as [[a|e] w1]; cbn [snd] in *; [split; assumption|].
  destruct (Hh e w1) as [C' R']. rewrite C', R'. split; assumption.
Qed.

Lemma aside_log (entry : jstring) : aside (log entry).
Proof. intros w. unfold log. destruct (disk w) as [|[m|] later]; split; reflexivity. Qed.

Lemma aside_console_log (line : jstring) : aside (console_log line).
Proof. intros w. split; reflexivity. Qed.

Lemma aside_ret {A : Type} (a : A) : aside (ret a).
Proof. intros w. split; reflexivity. Qed.

Lemma aside_throw {A : Type} (e : thrown) : aside (@throw A e).
Proof. intros w. split; reflexivity. Qed.

Lemma aside_sendResponse (id result : value) : aside (sendResponse id result).
Proof. apply aside_bind; [apply aside_log | intros _; apply aside_console_log]. Qed.

Lemma aside_sendErrorResponse (id : value) (code : Z) (msg : jstring) :
  aside (sendErrorResponse id code msg).
Proof. apply aside_bind; [apply aside_log | intros _; apply aside_console_log]. Qed.

Lemma aside_get {A : Type} (v : value) (k : string) (cont : value -> M A) :
  (prop v (js k) = Normal (member_of v k) -> aside (cont (member_of v k))) ->
  aside (bind (get v k) cont).
Proof.
  intros H w. unfold bind, get, lift.
  destruct (prop v (js k)) as [x|e] eqn:E; [|split; reflexivity].
  pose proof (prop_member _ _ E) as X. subst x. apply H. reflexivity.
Qed.

Lemma aside_dispatch (request : value) :
  (strict_eq_str (member_of request "jsonrpc") (js "2.0")
   && strict_eq_str (member_of request "method") (js "tools/invoke"))%bool = false ->
  aside (dispatch request).
Proof.
  intros X. unfold dispatch. apply aside_bind; [apply aside_log|]. intros _.
  apply aside_get. intros _.
  destruct (strict_eq_str (member_of request "jsonrpc") (js "2.0")); cbn [negb andb] in *.
  2: { apply aside_get; intros _. apply aside_sendErrorResponse. }
  apply aside_get. intros _. rewrite X.
  destruct (strict_eq_str (member_of request "method") (js "initialize")).
  { apply aside_get; intros _. apply aside_get; intros _. apply aside_get; intros _.
    apply aside_sendResponse. }
  destruct (strict_eq_str (member_of request "method") (js "tools/list")).
  { apply aside_get; intros _. apply aside_sendResponse. }
  destruct (strict_eq_str (member_of request "method") (js "notifications/initialized")).
  { apply aside_ret. }
  apply aside_get; intros _. apply aside_sendErrorResponse.
Qed.

Lemma aside_on_line (line : jstring) : invocation line = false -> aside (on_line line).
Proof.
  intros X. unfold on_line. apply aside_try_catch.
  - unfold JSON_parse, invocation in *. destruct (JSON.parse line) as [request|].
    + change (aside (dispatch request)). apply aside_dispatch. exact X.
    + change (aside (@throw unit syntax_error)). apply aside_throw.
  - intros e. apply aside_bind; [apply aside_log|]. intros _.
    apply aside_sendErrorResponse.
Qed.

(** Only invocations reach AWS. Over a session that holds no
    [tools/invoke] request under the version tag [2.0], no call is made
    to the SDK and the ambient region stays, whatever the lines hold
    and whether or not the log works. *)
Theorem only_invocations_reach_aws (lines : list jstring) (w : world) :
  forallb (fun line => negb (invocation line)) lines = true ->
  calls (snd (serve lines w)) = calls w
  /\ config_region (snd (serve lines w)) = config_region w.
Proof.
  intros X. revert w. change (aside (serve lines)).
  induction lines as [|line rest IH]; cbn [serve forallb] in *.
  - apply aside_ret.
  - apply andb_prop in X. destruct X as [X1 X2]. apply negb_true_iff in X1.
    apply aside_bind; [apply aside_on_line; exact X1 | intros _; apply IH; exact X2].
Qed.

(** At a handshake, a listing and a line that is not JSON. *)
Lemma only_invocations_witness :
  calls (snd (serve [wire "{`jsonrpc`:`2.0`,`id`:1,`method`:`initialize`,`params`:{}}";
                     wire "{`jsonrpc`:`2.0`,`id`:2,`method`:`tools/list`}";
                     wire "not json"] started)) = [].
Proof.
  apply (@only_invocations_reach_aws
           [wire "{`jsonrpc`:`2.0`,`id`:1,`method`:`initialize`,`params`:{}}";
            wire "{`jsonrpc`:`2.0`,`id`:2,`method`:`tools/list`}";
            wire "not json"] started).
  vm_compute; reflexivity.
Defined.

(* ------------------------------------------------------------------ *)
(** * The calls a session costs *)

Lemma spends_aside {A : Type} (c : M A) : aside c -> spends 0 c.
Proof.
  intros H w. exists []. destruct (H w) as [C _]. rewrite C, app_nil_r.
  split; [reflexivity | apply Nat.le_refl].
Qed.

Lemma spends_more {A : Type} (n m : nat) (c : M A) : n <= m -> spends n c -> spends m c.
Proof.
  intros L H w. destruct (H w) as (made & C & B). exists made.
  split; [exact C | eapply Nat.le_trans; eassumption].
Qed.

Lemma spends_bind {A B : Type} (n m : nat) (c : M A) (k : A -> M B) :
  spends n c -> (forall a, spends m (k a)) -> spends (n + m) (bind c k).
Proof.
  intros Hc Hk w. unfold bind. destruct (Hc w) as (made1 & C1 & B1).
  destruct (c w) as [[a|e] w1]; cbn [snd] in *.
  - destruct (Hk a w1) as (made2 & C2 & B2). exists (made1 ++ made2).
    rewrite C2, C1, app_assoc, length_app. split; [reflexivity | lia].
  - exists made1. split; [exact C1 | lia].
Qed.

Lemma spends_try_catch {A : Type} (n m : nat) (body : M A) (handler : thrown -> M A) :
  spends n body -> (forall e, spends m (handler e)) ->
  spends (n + m) (try_catch body handler).
Proof.
  intros Hb Hh w. unfold try_catch. destruct (Hb w) as (made1 & C1 & B1).
  destruct (body w) as [[a|e] w1]; cbn [snd] in *.
  - exists made1. split; [exact C1 | lia].
  - destruct (Hh e w1) as (made2 & C2 & B2). exists (made1 ++ made2).
    rewrite C2, C1, app_assoc, length_app. split; [reflexivity | lia].
Qed.

Lemma spends_run_handler (h : handler_name) (params : value) :
  spends 1 (run_handler h params).
Proof.
  intros w. destruct h;
    try (destruct (region_world_facts params w) as (_ & C & _);
         match goal with
         | |- context [run_handler ?h _ _] =>
             destruct (@handler_reported h params w ltac:(discriminate))
               as [[S _] | (req & S & _)]
         end; rewrite S;
         [exists []; rewrite app_nil_r; split; [exact C | auto]
         |eexists [_]; cbn [called calls]; rewrite C; split; [reflexivity | auto]]).
  exists []. rewrite app_nil_r. split; [reflexivity | auto].
Qed.

Lemma spends_call_tool (key : jstring) (params : value) : spends 1 (call_tool key params).
Proof.
  unfold call_tool. destruct (toolHandlers_get key) as [[h|p]|].
  - apply spends_run_handler.
  - apply (@spends_more _ 0 1); [auto|]. apply spends_aside. intros w. split; reflexivity.
  - apply (@spends_more _ 0 1); [auto|]. apply spends_aside, aside_throw.
Qed.

Lemma aside_lift {A : Type} (c : completion A) : aside (lift c).
Proof. intros w. split; reflexivity. Qed.

Lemma aside_get_any {A : Type} (v : value) (k : string) (cont : value -> M A) :
  (forall x, aside (cont x)) -> aside (bind (get v k) cont).
Proof. intros H. apply aside_bind; [apply aside_lift | exact H]. Qed.

Lemma spends_invoke (request : value) : spends 1 (invoke request).
Proof.
  unfold invoke.
  apply (@spends_bind _ _ 0 1); [apply spends_aside, aside_lift|]. intros params.
  apply (@spends_bind _ _ 0 1).
  { apply spends_aside. destruct (truthy (prop_opt params (js "name"))).
    - apply aside_bind; [apply aside_lift | intros; apply aside_ret].
    - apply aside_ret. }
  intros [|].
  - apply (@spends_more _ 0 1); [auto|]. apply spends_aside.
    apply aside_get_any; intros id.
    apply aside_bind; [apply aside_lift|]. intros shown. apply aside_sendErrorResponse.
  - apply (@spends_try_catch _ 1 0).
    + apply (@spends_bind _ _ 0 1); [apply spends_aside, aside_lift|]. intros key.
      apply (@spends_bind _ _ 1 0); [apply spends_call_tool|]. intros result.
      apply spends_aside. apply aside_get_any; intros id. apply aside_sendResponse.
    + intros e. apply spends_aside. apply aside_bind; [apply aside_log|]. intros _.
      apply aside_get_any; intros id. apply aside_sendErrorResponse.
Qed.

Lemma spends_dispatch (request : value) : spends 1 (dispatch request).
Proof.
  destruct (strict_eq_str (member_of request "jsonrpc") (js "2.0")
            && strict_eq_str (member_of request "method") (js "tools/invoke"))%bool eqn:X.
  2: { apply (@spends_more _ 0 1); [auto|]. apply spends_aside, aside_dispatch, X. }
  apply andb_prop in X. destruct X as [V Mt].
  apply strict_eq_str_true in V. destruct (versioned_is_object _ V) as [fields ->].
  unfold dispatch.
  apply (@spends_bind _ _ 0 1); [apply spends_aside, aside_log|]. intros _.
  intros w. rewrite get_member, V. unfold str. cbn [strict_eq_str]. rewrite eqb_refl.
  cbn [negb]. rewrite get_member.
  apply strict_eq_str_true in Mt. rewrite Mt.
  change (strict_eq_str (VStr (js "tools/invoke")) (js "initialize")) with false.
  change (strict_eq_str (VStr (js "tools/invoke")) (js "tools/list")) with false.
  change (strict_eq_str (VStr (js "tools/invoke")) (js "tools/invoke")) with true.
  cbv iota. apply spends_invoke.
Qed.

Lemma spends_on_line (line : jstring) :
  spends (if invocation line then 1 else 0) (on_line line).
Proof.
  destruct (invocation line) eqn:X; [|apply spends_aside, aside_on_line, X].
  unfold on_line. apply (@spends_try_catch _ 1 0).
  - unfold JSON_parse. destruct (JSON.parse line) as [request|].
    + change (spends 1 (dispatch request)). apply spends_dispatch.
    + apply (@spends_more _ 0 1); [auto|].
      change (spends 0 (@throw unit syntax_error)). apply spends_aside, aside_throw.
  - intros e. apply spends_aside. apply aside_bind; [apply aside_log|]. intros _.
    apply aside_sendErrorResponse.
Qed.

(** A session costs at most one call to the SDK for each [tools/invoke]
    request it holds: the record of calls only grows, by no more calls
    than the session has invocations, whatever the lines hold and
    whether or not the log works. *)
Theorem one_call_per_invocation (lines : list jstring) (w : world) :
  exists made,
    calls (snd (serve lines w)) = calls w ++ made
    /\ List.length made <= List.length (filter invocation lines).
Proof.
  revert w. change (spends (List.length (filter invocation lines)) (serve lines)).
  induction lines as [|line rest IH]; cbn [serve filter].
  - apply spends_aside, aside_ret.
  - pose proof (spends_on_line line) as H. destruct (invocation line); cbn [List.length].
    + apply (@spends_bind _ _ 1 _); [exact H | intros _; exact IH].
    + apply (@spends_bind _ _ 0 _); [exact H | intros _; exact IH].
Qed.

(* ------------------------------------------------------------------ *)
(** * The envelope *)

Lemma encode_versioned (r : response) :
  startsWith (encode r) (wire "{`jsonrpc`:`2.0`") = true.
Proof.
  destruct r as [id result | id code msg]; unfold encode, JSON.stringify, envelope;
    cbn [JSON.serialize field str];
    destruct (JSON.serialize id) as [t1|];
    try destruct (JSON.serialize result) as [t2|]; reflexivity.
Qed.

(** Every line a session writes opens as a JSON-RPC 2.0 envelope: an
    object whose first member is [jsonrpc], with the value [2.0], also
    when the [id] or the result has no JSON text and is left out. *)
Theorem responses_versioned (lines : list jstring) (w : world) :
  Forall (fun line => startsWith line (wire "{`jsonrpc`:`2.0`") = true)
    (output (serve lines) w).
Proof.
  destruct (@accounted_output _ (serve lines) w (accounted_serve lines))
    as (rs & _ & -> & _).
  apply Forall_forall. intros line I. apply in_map_iff in I.
  destruct I as (r & <- & _). apply encode_versioned.
Qed.

(* ------------------------------------------------------------------ *)
(** * No request is answered twice *)

Lemma mute_silent {A : Type} (c : M A) : silent c -> mute c.
Proof. intros H w. apply H. Qed.

Lemma mute_log (entry : jstring) : mute (log entry).
Proof. intros w. unfold log. destruct (disk w) as [|[m|] later]; reflexivity. Qed.

Lemma mute_bind {A B : Type} (c : M A) (k : A -> M B) :
  mute c -> (forall a, mute (k a)) -> mute (bind c k).
Proof.
  intros Hc Hk w. unfold bind. specialize (Hc w).
  destruct (c w) as [[a|e] w1]; cbn [snd] in *; [|exact Hc].
  rewrite (Hk a w1). exact Hc.
Qed.

Lemma once_mute {A : Type} (c : M A) : mute c -> once c.
Proof. intros H w. left. apply H. Qed.

Lemma once_bind {A B : Type} (c : M A) (k : A -> M B) :
  mute c -> (forall a, once (k a)) -> once (bind c k).
Proof.
  intros Hc Hk w. unfold bind. specialize (Hc w).
  destruct (c w) as [[a|e] w1]; cbn [snd] in *; [|left; exact Hc].
  destruct (Hk a w1) as [S | (line & S & N)]; rewrite S, Hc.
  - left. reflexivity.
  - right. exists line. split; [reflexivity | exact N].
Qed.

Lemma once_try_catch {A : Type} (body : M A) (handler : thrown -> M A) :
  once body -> (forall e, once (handler e)) -> once (try_catch body handler).
Proof.
  intros Hb Hh w. unfold try_catch. specialize (Hb w).
  destruct (body w) as [[a|e] w1]; cbn [fst snd] in *.
  - destruct Hb as [S | (line & S & N)]; [left; exact S|].
    right. exists line. split; [exact S | exists a; reflexivity].
  - destruct Hb as [S | (line & _ & a & N)]; [|discriminate N].
    destruct (Hh e w1) as [S' | (line & S' & N)]; rewrite S', S.
    + left. reflexivity.
    + right. exists line. split; [reflexivity | exact N].
Qed.

Lemma once_send (entry line : jstring) : once (log entry ;; console_log line).
Proof.
  intros w. unfold bind, log, console_log.
  destruct (disk w) as [|[m|] later]; cbn [fst snd stdout wrote logged unlogged].
  - right. exists line. split; [reflexivity | exists tt; reflexivity].
  - left. reflexivity.
  - right. exists line. split; [reflexivity | exists tt; reflexivity].
Qed.

Lemma once_get (v : value) (k : string) (cont : value -> M unit) :
  (forall x, once (cont x)) -> once (bind (get v k) cont).
Proof. intros H. apply once_bind; [apply mute_silent, silent_get | exact H]. Qed.

Lemma once_invoke (request : value) : once (invoke request).
Proof.
  unfold invoke. apply once_get; intros params. apply once_bind.
  - apply mute_silent. destruct (truthy (prop_opt params (js "name"))).
    + apply silent_bind; [apply silent_lift | intros; apply silent_ret].
    + apply silent_ret.
  - intros [|].
    + apply once_get; intros id.
      apply once_bind; [apply mute_silent, silent_lift|].
      intros shown. apply once_send.
    + apply once_try_catch.
      * apply once_bind; [apply mute_silent, silent_lift|]. intros key.
        apply once_bind; [apply mute_silent, call_tool_silent|]. intros result.
        apply once_get; intros id. apply once_send.
      * intros e. apply once_bind; [apply mute_log|]. intros _.
        apply once_get; intros id. apply once_send.
Qed.

Lemma once_dispatch (request : value) : once (dispatch request).
Proof.
  unfold dispatch. apply once_bind; [apply mute_log|]. intros _.
  apply once_get; intros jsonrpc.
  destruct (negb (strict_eq_str jsonrpc (js "2.0"))).
  { apply once_get; intros id. apply once_send. }
  apply once_get; intros method.
  destruct (strict_eq_str method (js "initialize")).
  { apply once_get; intros id. apply once_get; intros params.
    apply once_get; intros version. apply once_send. }
  destruct (strict_eq_str method (js "tools/list")).
  { apply once_get; intros id. apply once_send. }
  destruct (strict_eq_str method (js "tools/invoke")).
  { apply once_invoke. }
  destruct (strict_eq_str method (js "notifications/initialized")).
  { apply once_mute, mute_silent, silent_ret. }
  apply once_get; intros id. apply once_send.
Qed.

Lemma once_on_line (line : jstring) : once (on_line line).
Proof.
  unfold on_line. apply once_try_catch.
  - apply once_bind; [|intros request; apply once_dispatch].
    apply mute_silent. unfold JSON_parse.
    destruct (JSON.parse line); [apply silent_ret | apply silent_throw].
  - intros e. apply once_bind; [apply mute_log|]. intros _. apply once_send.
Qed.

Lemma serve_bounded (lines : list jstring) (w : world) :
  exists written,
    stdout (snd (serve lines w)) = stdout w ++ written
    /\ List.length written <= List.length lines.
Proof.
  revert w. induction lines as [|line rest IH]; intros w; cbn [serve].
  - exists []. rewrite app_nil_r. split; [reflexivity | auto].
  - unfold bind. pose proof (once_on_line line w) as H.
    destruct (on_line line w) as [[[]|e] w1]; cbn [fst snd] in *.
    + destruct (IH w1) as (written & S & L).
      destruct H as [S1 | (l & S1 & _)]; rewrite S, S1.
      * exists written. split; [reflexivity | cbn [List.length]; lia].
      * exists (l :: written). rewrite <- app_assoc. split; [reflexivity|].
        cbn [List.length]. lia.
    + destruct H as [S1 | (l & _ & a & N)]; [|discriminate N].
      exists []. rewrite app_nil_r. split; [exact S1 | cbn [List.length]; lia].
Qed.

(** No request is answered twice, in any state: a session writes at most
    as many lines as it has read, also when appends to the log fail in
    the middle of a request and its [catch] blocks take over. *)
Theorem no_more_responses_than_lines (lines : list jstring) (w : world) :
  List.length (output (serve lines) w) <= List.length lines.
Proof.
  destruct (serve_bounded lines w) as (written & S & L). unfold output.
  rewrite S, skipn_app, skipn_all, Nat.sub_diag. exact L.
Qed.

(* ------------------------------------------------------------------ *)
(** * The process and its schedule *)

Lemma run_crashed (schedule : list event) (p : process) :
  crashed p = true -> run schedule p = p.
Proof.
  intros C. induction schedule as [|e rest IH]; [reflexivity|].
  unfold run in *. cbn [fold_left]. unfold step at 2. rewrite C. exact IH.
Qed.

(** A line in a chunk of its own, the call it sent completing before
    anything else comes: the line handled with nothing in between. *)
Lemma one_line_run (line : jstring) (w : world) :
  step (Settled 0) (step (Chunk [line]) (start w))
  = {| state := snd (on_line line w);
       pending := [];
       crashed := match fst (on_line line w) with Normal _ => false | Throw _ => true end |}.
Proof.
  rewrite on_line_arrive. unfold step at 2. cbn [crashed start]. unfold deliver.
  cbn [arrivals state start]. unfold bind.
  destruct (arrive line w) as [[[t|]|e] w1]; cbn [finish filter].
  - destruct (task_waits t) eqn:W; cbn [negb filter resumptions pending start app].
    + unfold step. cbn [crashed orb]. unfold settle. cbn [pending nth_error state].
      destruct (resume t w1) as [[[]|e] w2]; reflexivity.
    + destruct (resume t w1) as [[[]|e] w2]; reflexivity.
  - reflexivity.
  - reflexivity.
Qed.

(** [serve] is the run of the process under the schedule [one_by_one]. *)
Lemma serve_run (lines : list jstring) (w : world) :
  run (one_by_one lines) (start w)
  = {| state := snd (serve lines w);
       pending := [];
       crashed := match fst (serve lines w) with Normal _ => false | Throw _ => true end |}.
Proof.
  revert w. induction lines as [|line rest IH]; intros w; [reflexivity|].
  cbn [one_by_one flat_map app]. fold (one_by_one rest).
  unfold run. cbn [fold_left]. fold (run (one_by_one rest)).
  rewrite one_line_run. cbn [serve]. unfold bind.
  destruct (on_line line w) as [[[]|e] w1]; cbn [fst snd].
  - apply IH.
  - apply run_crashed. reflexivity.
Qed.

(* ------------------------------------------------------------------ *)
(** * The basic server and the full one, chunk by chunk *)

Lemma through_bind {A : Type} (x : M A) (k : A -> M (option task)) :
  (forall a, through (k a)) -> through (bind x k).
Proof.
  intros H w t. unfold bind. destruct (x w) as [[a|e] w1]; [apply H | discriminate].
Qed.

Lemma through_done (c : M unit) : through (c ;; ret None).
Proof.
  intros w t. unfold bind, ret. destruct (c w) as [[[]|e] w1]; discriminate.
Qed.

Lemma through_ret : through (ret None).
Proof. intros w t. discriminate. Qed.

Lemma through_throw (e : thrown) : through (throw e).
Proof. intros w t. discriminate. Qed.

Lemma through_try_catch (body : M (option task)) (handler : thrown -> M (option task)) :
  through body -> (forall e, through (handler e)) -> through (try_catch body handler).
Proof.
  intros Hb Hh w t. unfold try_catch. specialize (Hb w t).
  destruct (body w) as [[a|e] w1]; [exact Hb | apply Hh].
Qed.

Lemma through_get (v : value) (k : string) (cont : value -> M (option task)) :
  (through (cont (member_of v k))) -> through (bind (get v k) cont).
Proof.
  intros H w t. unfold bind, get, lift.
  destruct (prop v (js k)) as [x|e] eqn:E; [|discriminate].
  pose proof (prop_member _ _ E) as X. subst x. apply H.
Qed.

Lemma through_begin_dispatch (request : value) :
  (strict_eq_str (member_of request "jsonrpc") (js "2.0")
   && strict_eq_str (member_of request "method") (js "tools/invoke"))%bool = false ->
  through (begin_dispatch request).
Proof.
  intros X. unfold begin_dispatch. apply through_bind. intros _.
  apply through_get.
  destruct (strict_eq_str (member_of request "jsonrpc") (js "2.0")); cbn [negb andb] in *.
  2: { apply through_bind; intros id. apply through_done. }
  apply through_get. rewrite X.
  destruct (strict_eq_str (member_of request "method") (js "initialize")).
  { apply through_bind; intros id. apply through_bind; intros params.
    apply through_bind; intros version. apply through_done. }
  destruct (strict_eq_str (member_of request "method") (js "tools/list")).
  { apply through_bind; intros id. apply through_done. }
  destruct (strict_eq_str (member_of request "method") (js "notifications/initialized")).
  { apply through_ret. }
  apply through_bind; intros id. apply through_done.
Qed.

Lemma through_arrive (line : jstring) : invocation line = false -> through (arrive line).
Proof.
  intros X. unfold arrive. apply through_try_catch.
  - unfold JSON_parse, invocation in *. destruct (JSON.parse line) as [request|].
    + change (through (begin_dispatch request)). apply through_begin_dispatch. exact X.
    + change (through (throw syntax_error)). apply through_throw.
  - intros e. apply through_bind; intros _. apply through_done.
Qed.

(** The listener of a line that is no invocation runs to its end. *)
Lemma arrive_through (line : jstring) (w : world) :
  invocation line = false ->
  fst (on_line line w) = Normal tt ->
  arrive line w = (Normal None, snd (on_line line w)).
Proof.
  intros X N. rewrite on_line_arrive in *. pose proof (@through_arrive line X w) as T.
  unfold bind in *. destruct (arrive line w) as [[[t|]|e] w1]; cbn [fst snd finish] in *.
  - exfalso. apply (T t). reflexivity.
  - reflexivity.
  - discriminate N.
Qed.

Lemma plain_invocation (line : jstring) :
  plain line = true -> invocation line = true ->
  exists request,
    JSON.parse line = Some request
    /\ asks request "tools/invoke"
    /\ tool_name_of request = str "ping".
Proof.
  unfold plain, invocation, extended. destruct (JSON.parse line) as [request|]; [|discriminate].
  intros P I. exists request. split; [reflexivity|].
  apply andb_prop in I. destruct I as [V Mt]. rewrite V, Mt in P. cbn [andb] in P.
  apply negb_true_iff in P. apply orb_false_iff in P. destruct P as [_ P].
  cbn [andb] in P. apply negb_false_iff in P.
  apply strict_eq_str_true in V, Mt, P. repeat split; assumption.
Qed.

Lemma basic_serve_app (a b : list jstring) (w : world) :
  Basic.serve (a ++ b) w = (Basic.serve a ;; Basic.serve b) w.
Proof.
  revert w. induction a as [|l a IH]; intros w; cbn [app Basic.serve]; [reflexivity|].
  unfold bind at 1 2 3. destruct (Basic.on_line l w) as [[[]|e] w1]; [apply IH | reflexivity].
Qed.

(** The answer of the basic server to a [ping] line. *)
Lemma basic_ping (line : jstring) (request : value) (w : world) :
  quiet w -> JSON.parse line = Some request -> plain line = true ->
  asks request "tools/invoke" -> tool_name_of request = str "ping" ->
  exists w',
    Basic.on_line line w = (Normal tt, w') /\ quiet w'
    /\ stdout w' = stdout w ++ [encode (Success (member_of request "id") pong)].
Proof.
  intros Q P Pl A Hname.
  pose proof (@agree_on_line line Pl w w (conj Q (conj Q eq_refl))) as G.
  rewrite on_line_arrive in G. unfold bind in G.
  rewrite (@arrive_ping line request w Q P A Hname) in G. cbn [finish] in G.
  rewrite resume_ping in G by (try apply quiet_logged; try exact Q; apply A).
  destruct (Basic.on_line line w) as [[[]|e] w']; [|contradiction].
  destruct G as (_ & _ & Q' & S). exists w'.
  split; [reflexivity|]. split; [exact Q'|]. rewrite <- S. reflexivity.
Qed.

Lemma arrivals_plain (chunk : list jstring) (w1 w2 : world) :
  forallb plain chunk = true -> related w1 w2 ->
  exists stopped w1' w2',
    arrivals chunk w1 = (stopped, false, w1')
    /\ Basic.serve (filter (fun line => negb (invocation line)) chunk) w2 = (Normal tt, w2')
    /\ related w1' w2'
    /\ Forall2 ping_task stopped (filter invocation chunk).
Proof.
  revert w1 w2. induction chunk as [|line rest IH]; intros w1 w2 Pl R.
  - exists [], w1, w2. split; [reflexivity|]. split; [reflexivity|].
    split; [exact R | constructor].
  - cbn [forallb] in Pl. apply andb_prop in Pl. destruct Pl as [Pl Pr].
    cbn [arrivals filter]. destruct (invocation line) eqn:I; cbn [negb].
    + destruct (plain_invocation line Pl I) as (request & P & A & Hname).
      destruct R as (Q1 & Q2 & S).
      rewrite (@arrive_ping line request w1 Q1 P A Hname).
      destruct (IH (received request w1) w2 Pr) as (stopped & w1' & w2' & E & B & R' & F).
      { split; [apply quiet_logged; exact Q1|]. split; [exact Q2 | exact S]. }
      rewrite E. eexists (_ :: stopped), w1', w2'.
      split; [reflexivity|]. split; [exact B|]. split; [exact R'|].
      constructor; [|exact F]. exists request.
      split; [exact P|]. split; [exact A|]. split; [exact Hname|].
      split; [exact Pl | reflexivity].
    + pose proof (@agree_on_line line Pl w1 w2 R) as G.
      destruct R as (Q1 & Q2 & S).
      destruct (on_line_answers line Q1) as (wa & rs & Ea & _).
      pose proof (@arrive_through line w1 I) as T. rewrite Ea in *. cbn [fst snd] in *.
      rewrite (T eq_refl).
      cbn [Basic.serve]. unfold bind.
      destruct (Basic.on_line line w2) as [[[]|e] w2a]; [|contradiction].
      destruct G as [_ R'].
      destruct (IH wa w2a Pr R') as (stopped & w1' & w2' & E & B & R'' & F).
      rewrite E. exists stopped, w1', w2'.
      split; [reflexivity|]. split; [exact B|]. split; [exact R'' | exact F].
Qed.

Lemma resumptions_pings (stopped : list task) (pings : list jstring) (w1 w2 : world) :
  Forall2 ping_task stopped pings -> related w1 w2 ->
  filter (fun t => negb (task_waits t)) stopped = stopped
  /\ filter task_waits stopped = []
  /\ exists w1' w2',
       resumptions stopped w1 = (false, w1')
       /\ Basic.serve pings w2 = (Normal tt, w2')
       /\ related w1' w2'.
Proof.
  intros F. revert w1 w2. induction F as [|t line stopped pings Ht _ IH]; intros w1 w2 R.
  - split; [reflexivity|]. split; [reflexivity|]. exists w1, w2.
    split; [reflexivity|]. split; [reflexivity | exact R].
  - destruct Ht as (request & P & A & Hname & Pl & ->).
    destruct R as (Q1 & Q2 & S).
    destruct (@basic_ping line request w2 Q2 P Pl A Hname) as (w2a & B & Q2a & S2).
    assert (R' : related
                   (wrote (encode (Success (member_of request "id") pong))
                      (logged (js "[aws] [info] Sending response: "
                               ++ encode (Success (member_of request "id") pong)) w1))
                   w2a).
    { split; [apply quiet_wrote, quiet_logged; exact Q1|]. split; [exact Q2a|].
      cbn [stdout wrote logged]. rewrite S2, S. reflexivity. }
    destruct (IH _ _ R') as (F1 & F2 & w1' & w2' & E & B' & R'').
    cbn [filter task_waits negb]. rewrite F1, F2.
    split; [reflexivity|]. split; [reflexivity|].
    exists w1', w2'. cbn [resumptions Basic.serve].
    rewrite resume_ping by (try exact Q1; apply A). rewrite E.
    unfold bind. rewrite B, B'.
    split; [reflexivity|]. split; [reflexivity | exact R''].
Qed.

Lemma deliver_plain (chunk : list jstring) (w1 w2 : world) :
  forallb plain chunk = true -> related w1 w2 ->
  exists w1' w2',
    deliver chunk (start w1) = start w1'
    /\ Basic.serve (pings_last chunk) w2 = (Normal tt, w2')
    /\ related w1' w2'.
Proof.
  intros Pl R.
  destruct (@arrivals_plain chunk w1 w2 Pl R) as (stopped & wa & wb & E & B & R' & F).
  destruct (@resumptions_pings stopped _ wa wb F R') as (F1 & F2 & w1' & w2' & E' & B' & R'').
  exists w1', w2'. unfold deliver, pings_last. cbn [state start pending].
  rewrite E, F1, F2, E'. rewrite basic_serve_app. unfold bind. rewrite B, B'.
  split; [reflexivity|]. split; [reflexivity | exact R''].
Qed.

Lemma run_plain (chunks : list (list jstring)) (w1 w2 : world) :
  forallb (forallb plain) chunks = true -> related w1 w2 ->
  exists w1' w2',
    run (map Chunk chunks) (start w1) = start w1'
    /\ Basic.serve (flat_map pings_last chunks) w2 = (Normal tt, w2')
    /\ related w1' w2'.
Proof.
  revert w1 w2. induction chunks as [|chunk rest IH]; intros w1 w2 Pl R.
  - exists w1, w2. split; [reflexivity|]. split; [reflexivity | exact R].
  - cbn [forallb] in Pl. apply andb_prop in Pl. destruct Pl as [Pc Pr].
    destruct (@deliver_plain chunk w1 w2 Pc R) as (wa & wb & D & B & R').
    destruct (IH wa wb Pr R') as (w1' & w2' & E & B' & R'').
    exists w1', w2'. cbn [map flat_map]. unfold run in *. cbn [fold_left].
    unfold step at 2. cbn [crashed start]. rewrite D, E.
    rewrite basic_serve_app. unfold bind. rewrite B, B'.
    split; [reflexivity|]. split; [reflexivity | exact R''].
Qed.

Lemma pings_last_single (chunks : list (list jstring)) :
  Forall (fun chunk => List.length chunk <= 1) chunks ->
  flat_map pings_last chunks = List.concat chunks.
Proof.
  intros F. induction F as [|chunk rest L _ IH]; [reflexivity|].
  cbn [flat_map List.concat]. rewrite IH. f_equal.
  destruct chunk as [|line [|line' more]]; [reflexivity| |simpl in L; lia].
  unfold pings_last. cbn [filter]. destruct (invocation line); reflexivity.
Qed.

(** The full server answers as the basic one did, up to the order in a
    chunk. Over a session that holds no request the full server treats
    otherwise (a listing of the tools, an invocation of a tool other
    than [ping], the [notifications/initialized] notification), and
    however its lines come in chunks, the full server ends no listener
    on a rejection, leaves none waiting, and has written what the basic
    server writes for the same lines with the [ping]s of each chunk
    moved to its end: the listener of a [ping] stops at its [await] and
    writes once the chunk is through. When every chunk holds one line
    the two servers write the same lines in the same order. (The log is
    taken to work.) *)
Theorem basic_server_preserved (chunks : list (list jstring)) (w : world) :
  quiet w -> forallb (forallb plain) chunks = true ->
  let p := run (map Chunk chunks) (start w) in
  crashed p = false /\ pending p = []
  /\ fst (Basic.serve (flat_map pings_last chunks) w) = Normal tt
  /\ stdout (state p) = stdout (snd (Basic.serve (flat_map pings_last chunks) w))
  /\ (Forall (fun chunk => List.length chunk <= 1) chunks ->
      stdout (state p) = stdout (snd (Basic.serve (List.concat chunks) w))).
Proof.
  intros Q Pl p.
  destruct (@run_plain chunks w w Pl (conj Q (conj Q eq_refl))) as (w1 & w2 & E & B & R).
  subst p. rewrite E, B. cbn [crashed pending state start fst snd].
  split; [reflexivity|]. split; [reflexivity|]. split; [reflexivity|].
  split; [apply R|]. intros F. rewrite <- (pings_last_single F), B. apply R.
Qed.

(** At a chunk of a [ping] and an unknown method, and then a line that
    is not JSON: the reply to the [ping] comes second. *)
Lemma basic_server_witness :
  stdout (state (run
    [Chunk [wire "{`jsonrpc`:`2.0`,`id`:2,`method`:`tools/invoke`,`params`:{`name`:`ping`}}";
            wire "{`jsonrpc`:`2.0`,`id`:3,`method`:`resources/list`}"];
     Chunk [wire "{oops"]]
    (start started)))
  = [ready;
     wire "{`jsonrpc`:`2.0`,`id`:3,`error`:{`code`:-32601,`message`:`Method not found`}}";
     wire "{`jsonrpc`:`2.0`,`id`:2,`result`:{`result`:`pong`}}";
     wire "{`jsonrpc`:`2.0`,`id`:null,`error`:{`code`:-32700,`message`:`Parse error`}}"].
Proof.
  destruct (@basic_server_preserved
    [[wire "{`jsonrpc`:`2.0`,`id`:2,`method`:`tools/invoke`,`params`:{`name`:`ping`}}";
      wire "{`jsonrpc`:`2.0`,`id`:3,`method`:`resources/list`}"];
     [wire "{oops"]] started) as (_ & _ & _ & S & _).
  - vm_compute; constructor.
  - vm_compute; reflexivity.
  - cbn [map] in S. rewrite S. vm_compute; reflexivity.
Defined.
